(** * komga-mangadex-suite: the manga downloader, embedded and verified

    A shallow embedding of [manga-downloader/src]:

    - [mangadex_client.py]: the authenticated, rate-limited client
      ([_ensure_auth], [_refresh_auth], [_limited_get]);
    - [download_manager.py]: [process_job], split along its phases
      (chapter discovery, chapter filter, image acquisition, archive
      packaging, the per-chapter loop and its counters);
    - [main.py]: the job table, the queue and the [worker] loop.

    Network peers and the disk are the environment.  Each peer is a
    script: the list of the outcomes it gives to the successive requests it
    receives.  A call that needs an outcome from an exhausted script is
    still awaiting it ([Pending]); Python's [except] clauses never see that
    state.  Everything else is explicit state passing. *)

From Stdlib Require Import ZArith List Bool Ascii String Lia.
From Stdlib Require Import DecimalString.
From stdpp Require Import base option list strings gmap.
Import ListNotations.

Local Open Scope string_scope.
Local Open Scope list_scope.

(** ** Python values shared by the modules *)

(** Truthiness of an optional string ([if x:] on [None] or on a [str]). *)
Definition truthy (o : option string) : bool :=
  match o with
  | Some s => negb (String.eqb s "")
  | None => false
  end.

(** [x or y] on optional strings. *)
Definition py_or (x y : option string) : option string :=
  if truthy x then x else y.

(** [x or y] with a string on the right. *)
Definition or_else (x : option string) (y : string) : string :=
  match x with
  | Some s => if String.eqb s "" then y else s
  | None => y
  end.

(** [xs or []] on an optional list. *)
Definition or_empty {A} (o : option (list A)) : list A :=
  match o with
  | Some l => l
  | None => []
  end.

(** [if xs:] on a list. *)
Definition nonempty {A} (l : list A) : bool :=
  match l with
  | [] => false
  | _ :: _ => true
  end.

(** [s in xs] for strings (also [s in set(map(str, xs))]). *)
Definition str_in (s : string) (xs : list string) : bool :=
  existsb (String.eqb s) xs.

(** Python's [float(str(x))] and [<=] on floats.  The downloader only
    parses and compares, so the float type stays abstract: every theorem
    below holds for IEEE doubles as for any other instance. *)
Class PyFloat := {
  float : Type;
  float_of_str : string -> option float;
  float_le : float -> float -> bool
}.

(** Python's Unicode tables, where the downloader asks them about text
    beyond ASCII.  Texts are held as UTF-8; a character is given as its
    bytes. *)
Class PyUnicode := {
  unicode_isalnum : string -> bool      (* [c.isalnum()] for one character [c] *)
}.

(** A chapter descriptor as [process_job] reads it:
    [ch.get("id")] and the fields of [ch.get("attributes", {})]. *)
Record chapter := {
  ch_id : option string;
  ch_volume : option string;
  ch_chapter : option string;
  ch_externalUrl : option string;
  ch_title : option string;
  ch_translatedLanguage : option string
}.

(** The request payload ([JobRequest.model_dump()]). *)
Record job_request := {
  manga_id : string;
  language : option string;
  volumes : option (list string);
  chapters : option (list string)
}.

(** ** Chapter filter ([process_job], lines 238-286) *)
Module Filter.
Section WithFloat.
Context {F : PyFloat}.

Definition chapter_str_to_float (chval : option string) : option float :=
  match chval with
  | None => None
  | Some s => float_of_str s
  end.

(** [ch_start], [ch_end]: set only for a two-element filter. *)
Definition endpoints (chapters_filter : list string) : option float * option float :=
  match chapters_filter with
  | [a; b] => (chapter_str_to_float (Some a), chapter_str_to_float (Some b))
  | _ => (None, None)
  end.

Definition range_mode (chapters_filter : list string) : bool :=
  match endpoints chapters_filter with
  | (Some _, Some _) => true
  | _ => false
  end.

Definition include_chapter (volumes_filter chapters_filter : list string)
    (ch : chapter) : bool :=
  let vol := ch_volume ch in
  let chnum := ch_chapter ch in
  let chnum_f := chapter_str_to_float chnum in
  if nonempty volumes_filter
     && match vol with
        | None => true
        | Some v => negb (str_in v volumes_filter)
        end
  then false
  else if nonempty chapters_filter then
    if range_mode chapters_filter then
      match chnum_f, endpoints chapters_filter with
      | Some x, (Some ch_start, Some ch_end) =>
          if negb (float_le ch_start x && float_le x ch_end) then false else true
      | _, _ => false
      end
    else
      match chnum with
      | None => false
      | Some c => if negb (str_in c chapters_filter) then false else true
      end
  else true.

(** The filtering statement at the end of the block. *)
Definition select (volumes_filter chapters_filter : list string)
    (chs : list chapter) : list chapter :=
  if nonempty volumes_filter || nonempty chapters_filter
  then List.filter (include_chapter volumes_filter chapters_filter) chs
  else chs.

Definition filter_job (job : job_request) (chs : list chapter) : list chapter :=
  select (or_empty (volumes job)) (or_empty (chapters job)) chs.

End WithFloat.
End Filter.

(** ** HTTP exchanges (httpx, as the downloader uses it) *)
Module Http.

Inductive exn :=
| HTTPStatusError (status : Z) (text : string)
| TransportError (text : string)
| ValueError (text : string)
| OSError (text : string).

(** [str(e)] *)
Definition str (e : exn) : string :=
  match e with
  | HTTPStatusError _ t => t
  | TransportError t => t
  | ValueError t => t
  | OSError t => t
  end.

(** What a call gives: a value, an exception, or nothing yet. *)
Inductive result (A : Type) :=
| Ret (a : A)
| Raise (e : exn)
| Pending.
Arguments Ret {A} a.
Arguments Raise {A} e.
Arguments Pending {A}.

Record response (B : Type) := {
  status_code : Z;
  reason_phrase : string;
  retry_after : option string;      (* headers.get("Retry-After") *)
  body : B
}.
Arguments status_code {B} r.
Arguments reason_phrase {B} r.
Arguments retry_after {B} r.
Arguments body {B} r.

(** What the peer does with one request: answer, or break the exchange
    (the exception [client.get] / [client.post] raises). *)
Inductive outcome (B : Type) :=
| Responds (r : response B)
| Fails (e : exn).
Arguments Responds {B} r.
Arguments Fails {B} e.

Definition dec (z : Z) : string := NilZero.string_of_int (Z.to_int z).

Definition is_success {B} (r : response B) : bool :=
  (200 <=? status_code r)%Z && (status_code r <=? 299)%Z.

Definition error_type (status : Z) : string :=
  match (status / 100)%Z with
  | 1%Z => "Informational response"
  | 3%Z => "Redirect response"
  | 4%Z => "Client error"
  | 5%Z => "Server error"
  | _ => "Invalid status code"
  end.

(** [r.raise_for_status()]: [None] when it returns, [Some e] when it
    raises; the text is httpx's message for the response. *)
Definition raise_for_status {B} (url : string) (r : response B) : option exn :=
  if is_success r then None
  else Some (HTTPStatusError (status_code r)
    (error_type (status_code r) ++ " '" ++ dec (status_code r) ++ " "
     ++ reason_phrase r ++ "' for url '" ++ url ++ "'"
     ++ String "010" "For more information check: "
     ++ "https://developer.mozilla.org/en-US/docs/Web/HTTP/Status/"
     ++ dec (status_code r))).

(** [resp.json()] on a body that may fail to decode. *)
Definition json {B} (r : response (option B)) : result B :=
  match body r with
  | Some b => Ret b
  | None => Raise (ValueError "Expecting value: line 1 column 1 (char 0)")
  end.

Inductive limiter := api_rpm | api_rps.

Inductive delay :=
| Fixed (secs : Z)                  (* asyncio.sleep(1), float(2) *)
| RetryAfter (header : string).     (* float(headers["Retry-After"]) *)

(** What the client does that the outside can see. *)
Inductive event :=
| Enter (l : limiter)               (* async with l: *)
| Leave (l : limiter)
| GET (url : string) (params : list (string * string)) (authorization : option string)
| POST (url : string) (grant_type : string)
| Sleep (d : delay).

Section WithFloat.
Context {F : PyFloat}.

(** [float(r.headers.get("Retry-After", 2))] *)
Definition retry_delay {B} (r : response B) : result delay :=
  match retry_after r with
  | None => Ret (Fixed 2)
  | Some h =>
      match float_of_str h with
      | Some _ => Ret (RetryAfter h)
      | None => Raise (ValueError ("could not convert string to float: '" ++ h ++ "'"))
      end
  end.
End WithFloat.

End Http.
Import Http.

(** ** Data the pipeline handles *)

Abbreviation bytes := (list Byte.byte).

(** [manga_data_full]: the fields of the title record that are read. *)
Record manga_data := {
  md_title : list (string * string);          (* attributes.title, in key order *)
  md_description : list (string * string);
  md_status : option string;
  md_year : option Z;
  md_tags : list string;                      (* attributes.name.en of each tag, or the empty string *)
  md_authors : list (option string);          (* names of the author relationships *)
  md_artists : list (option string);
  md_cover : option (option string)           (* the cover_art relationship and its fileName *)
}.

(** The answer of the at-home endpoint. *)
Record at_home := {
  baseUrl : option string;
  hash : option string;                       (* chapter.hash *)
  data : list string;                         (* chapter.data *)
  dataSaver : list string                     (* chapter.dataSaver *)
}.

(** One page of the chapter listing. *)
Record page := {
  pg_data : list chapter;                     (* .get("data", []) *)
  pg_total : option Z                         (* .get("total") *)
}.

(** The token endpoint's JSON. *)
Record token_body := {
  tok_access : option string;
  tok_refresh : option string
}.

(** Files: what is stored under a path. *)
Inductive entry_data :=
| Doc (elems : list (string * string))        (* an XML document, element by element *)
| Raw (content : bytes).

Inductive file :=
| Blob (content : bytes)
| Zip (entries : list (string * entry_data))
| SeriesJson (m : manga_data) (mangadex_id : string)
| Directory
| Partial (whole : file).                     (* a copy of [whole] that was cut short *)

(** ** The client object and the world around it *)

Record client := {
  base_url : string;
  authorization : option string;              (* headers.get("Authorization") *)
  _username : option string;
  _password : option string;
  _access_token : option string;
  _refresh_token : option string;
  _client_id : option string;
  _client_secret : option string
}.

Record world := {
  self_client : client;
  auth_server : list (outcome (option token_body));   (* auth.mangadex.org *)
  image_hosts : list (outcome bytes);                 (* at-home nodes, uploads.mangadex.org *)
  files : gmap string file;
  disk_faults : list bool;                            (* true: the next disk operation fails *)
  trace : list event
}.

Definition set_client (c : client) (w : world) : world :=
  {| self_client := c; auth_server := auth_server w; image_hosts := image_hosts w;
     files := files w; disk_faults := disk_faults w; trace := trace w |}.

Definition set_auth_server (s : list (outcome (option token_body))) (w : world) : world :=
  {| self_client := self_client w; auth_server := s; image_hosts := image_hosts w;
     files := files w; disk_faults := disk_faults w; trace := trace w |}.

Definition set_image_hosts (s : list (outcome bytes)) (w : world) : world :=
  {| self_client := self_client w; auth_server := auth_server w; image_hosts := s;
     files := files w; disk_faults := disk_faults w; trace := trace w |}.

Definition set_files (fs : gmap string file) (w : world) : world :=
  {| self_client := self_client w; auth_server := auth_server w; image_hosts := image_hosts w;
     files := fs; disk_faults := disk_faults w; trace := trace w |}.

Definition set_disk_faults (d : list bool) (w : world) : world :=
  {| self_client := self_client w; auth_server := auth_server w; image_hosts := image_hosts w;
     files := files w; disk_faults := d; trace := trace w |}.

Definition emit (es : list event) (w : world) : world :=
  {| self_client := self_client w; auth_server := auth_server w; image_hosts := image_hosts w;
     files := files w; disk_faults := disk_faults w; trace := trace w ++ es |}.

(** ** The rate-limited, authenticated client ([mangadex_client.py]) *)
Module Client.

Definition token_url : string :=
  "https://auth.mangadex.org/realms/mangadex/protocol/openid-connect/token".

Definition bearer (tok : option string) : option string :=
  match tok with
  | Some t => Some ("Bearer " ++ t)%string
  | None => None
  end.

Definition with_tokens (access refresh : option string) (c : client) : client :=
  {| base_url := base_url c; authorization := authorization c;
     _username := _username c; _password := _password c;
     _access_token := access; _refresh_token := refresh;
     _client_id := _client_id c; _client_secret := _client_secret c |}.

(** [self.headers["Authorization"] = f"Bearer {self._access_token}"] *)
Definition with_bearer (c : client) : client :=
  {| base_url := base_url c; authorization := bearer (_access_token c);
     _username := _username c; _password := _password c;
     _access_token := _access_token c; _refresh_token := _refresh_token c;
     _client_id := _client_id c; _client_secret := _client_secret c |}.

Definition _ensure_auth (w : world) : result unit * world :=
  let c := self_client w in
  if truthy (_access_token c) then (Ret tt, set_client (with_bearer c) w)
  else if truthy (_username c) && truthy (_password c)
          && truthy (_client_id c) && truthy (_client_secret c) then
    let w := emit [POST token_url "password"] w in
    match auth_server w with
    | [] => (Pending, w)
    | o :: rest =>
        let w := set_auth_server rest w in
        match o with
        | Fails e => (Raise e, w)
        | Responds r =>
            match raise_for_status token_url r with
            | Some e => (Raise e, w)
            | None =>
                match json r with
                | Ret d =>
                    let c := with_tokens (tok_access d) (tok_refresh d) c in
                    (Ret tt, set_client (if truthy (_access_token c) then with_bearer c else c) w)
                | Raise e => (Raise e, w)
                | Pending => (Pending, w)
                end
            end
        end
    end
  else (Ret tt, w).

Definition _refresh_auth (w : world) : result bool * world :=
  let c := self_client w in
  if negb (truthy (_refresh_token c)) then (Ret false, w)
  else
    let w := emit [POST token_url "refresh_token"] w in
    match auth_server w with
    | [] => (Pending, w)
    | o :: rest =>
        let w := set_auth_server rest w in
        match o with
        | Fails e => (Raise e, w)
        | Responds r =>
            if (status_code r =? 200)%Z then
              match json r with
              | Ret d =>
                  let c := with_tokens (tok_access d)
                             (py_or (tok_refresh d) (_refresh_token c)) c in
                  if truthy (_access_token c)
                  then (Ret true, set_client (with_bearer c) w)
                  else (Ret false, set_client c w)
              | Raise e => (Raise e, w)
              | Pending => (Pending, w)
              end
            else (Ret false, w)
        end
    end.

(** Entering both [async with] blocks and sending the request. *)
Definition dispatch (url : string) (params : list (string * string)) (w : world) : world :=
  emit [Enter api_rpm; Enter api_rps;
        GET url params (authorization (self_client w))] w.

Definition release (w : world) : world := emit [Leave api_rps; Leave api_rpm] w.

Section WithFloat.
Context {F : PyFloat}.

(** [_limited_get], by recursion on what the API still has to say: each
    call that recurses has consumed one outcome. *)
Fixpoint _limited_get {B} (url : string) (params : list (string * string))
    (api : list (outcome B)) (w : world)
    : result (response B) * list (outcome B) * world :=
  match _ensure_auth w with
  | (Raise e, w) => (Raise e, api, w)
  | (Pending, w) => (Pending, api, w)
  | (Ret _, w) =>
      let w := dispatch url params w in
      match api with
      | [] => (Pending, [], w)
      | Fails e :: api => (Raise e, api, release w)
      | Responds r :: api =>
          let w := release w in
          if (status_code r =? 429)%Z then
            match retry_delay r with
            | Ret d => _limited_get url params api (emit [Sleep d] w)
            | Raise e => (Raise e, api, w)
            | Pending => (Pending, api, w)
            end
          else if (500 <=? status_code r)%Z && (status_code r <? 600)%Z then
            _limited_get url params api (emit [Sleep (Fixed 1)] w)
          else if (status_code r =? 401)%Z then
            match _refresh_auth w with
            | (Raise e, w) => (Raise e, api, w)
            | (Pending, w) => (Pending, api, w)
            | (Ret true, w) =>
                (* Retry once after refresh *)
                let w := dispatch url params w in
                match api with
                | [] => (Pending, [], w)
                | Fails e :: api => (Raise e, api, release w)
                | Responds r :: api =>
                    match raise_for_status url r with
                    | Some e => (Raise e, api, release w)
                    | None => (Ret r, api, release w)
                    end
                end
            | (Ret false, w) =>
                match raise_for_status url r with
                | Some e => (Raise e, api, w)
                | None => (Ret r, api, w)
                end
            end
          else
            match raise_for_status url r with
            | Some e => (Raise e, api, w)
            | None => (Ret r, api, w)
            end
      end
  end.

(** A JSON endpoint: [_limited_get] then [resp.json()]. *)
Definition get_json {B} (url : string) (params : list (string * string))
    (api : list (outcome (option B))) (w : world)
    : result B * list (outcome (option B)) * world :=
  match _limited_get url params api w with
  | (Ret resp, api, w) => (json resp, api, w)
  | (Raise e, api, w) => (Raise e, api, w)
  | (Pending, api, w) => (Pending, api, w)
  end.

Definition get_manga (manga_id : string)
    (api : list (outcome (option (option manga_data)))) (w : world) :=
  get_json (base_url (self_client w) ++ "/manga/" ++ manga_id)%string
           [("includes[]", "cover_art")] api w.

Definition get_manga_chapters (manga_id language : string) (limit offset : Z)
    (api : list (outcome (option page))) (w : world) :=
  get_json (base_url (self_client w) ++ "/chapter")%string
           [("manga", manga_id); ("translatedLanguage[]", language);
            ("order[chapter]", "asc");
            ("limit", dec (Z.max 1 (Z.min limit 500)));
            ("offset", dec (Z.max 0 offset))] api w.

Definition get_at_home (chapter_id : string) (api : list (outcome (option at_home)))
    (w : world) :=
  get_json (base_url (self_client w) ++ "/at-home/server/" ++ chapter_id)%string [] api w.

End WithFloat.
End Client.

(** ** Chapter discovery ([process_job], lines 201-236) *)
Module Discovery.
Import Client.

Definition fallback_limit : Z := 100.

(** The loop's variables. *)
Record listing := {
  found : list chapter;     (* chapters *)
  offset : Z;
  limit : Z
}.

Definition start : listing := {| found := []; offset := 0; limit := 500 |}.

(** [{"data": [], "total": 0}] *)
Definition empty_page : page := {| pg_data := []; pg_total := Some 0%Z |}.

Abbreviation api_script := (list (outcome (option page))).

Section WithFloat.
Context {F : PyFloat}.
Variables manga_id language : string.

(** The inner [try]: the page the iteration goes on with and the page
    size in force afterwards, or the exception that leaves the loop. *)
Definition fetch_page (st : listing) (api : api_script) (w : world)
    : result page * Z * api_script * world :=
  match get_manga_chapters manga_id language (limit st) (offset st) api w with
  | (Ret chapters_json, api, w) => (Ret chapters_json, limit st, api, w)
  | (Raise (HTTPStatusError status _), api, w) =>
      if (status =? 400)%Z && negb (limit st =? fallback_limit)%Z then
        (* retry immediately without advancing offset *)
        match get_manga_chapters manga_id language fallback_limit (offset st) api w with
        | (Ret chapters_json, api, w) => (Ret chapters_json, fallback_limit, api, w)
        | (Raise (HTTPStatusError _ _), api, w) => (Ret empty_page, fallback_limit, api, w)
        | (Raise e, api, w) => (Raise e, fallback_limit, api, w)
        | (Pending, api, w) => (Pending, fallback_limit, api, w)
        end
      else (Ret empty_page, limit st, api, w)
  | (Raise e, api, w) => (Raise e, limit st, api, w)
  | (Pending, api, w) => (Pending, limit st, api, w)
  end.

(** [while True:].  [None]: more iterations than [fuel]. *)
Fixpoint listing_loop (fuel : nat) (st : listing) (api : api_script) (w : world)
    : option (result unit * listing * api_script * world) :=
  match fuel with
  | O => None
  | S fuel =>
      match fetch_page st api w with
      | (Ret chapters_json, lim, api, w) =>
          let batch := pg_data chapters_json in
          if negb (nonempty batch)
          then Some (Ret tt, {| found := found st; offset := offset st; limit := lim |}, api, w)
          else
            let st := {| found := found st ++ batch;
                         offset := offset st + Z.of_nat (length batch);
                         limit := lim |} in
            let total := default 0%Z (pg_total chapters_json) in
            if (total <=? offset st)%Z
            then Some (Ret tt, st, api, w)
            else listing_loop fuel st api w
      | (Raise e, lim, api, w) =>
          Some (Raise e, {| found := found st; offset := offset st; limit := lim |}, api, w)
      | (Pending, lim, api, w) =>
          Some (Pending, {| found := found st; offset := offset st; limit := lim |}, api, w)
      end
  end.

(** The whole block with its outer [try ... except Exception]: every
    iteration that goes round again has taken an answer from the API, so
    one more round than there are answers is enough. *)
Definition list_from (st : listing) (api : api_script) (w : world)
    : result (list chapter) * api_script * world :=
  match listing_loop (S (length api)) st api w with
  | Some (Ret _, st, api, w) => (Ret (found st), api, w)
  | Some (Raise _, st, api, w) => (Ret (found st), api, w)
  | Some (Pending, _, api, w) => (Pending, api, w)
  | None => (Pending, api, w)
  end.

Definition list_chapters (api : api_script) (w : world)
    : result (list chapter) * api_script * world :=
  list_from start api w.

End WithFloat.
End Discovery.

(** ** Image acquisition ([process_job], lines 313-406) *)
Module Acquire.

(** [needle in hay] *)
Fixpoint contains (needle hay : string) : bool :=
  String.prefix needle hay
  || match hay with
     | EmptyString => false
     | String _ rest => contains needle rest
     end.

(** The variables of one chapter's fetch; [errors] is the job's counter. *)
Record pass := {
  image_bytes : list bytes;
  consecutive_400s : nat;
  errors : nat
}.

(** The block under [async with self.client.api_rps:]: the request, and
    the outcome when there is one. *)
Definition image_get (url : string) (w : world) : option (outcome bytes) * world :=
  let w := emit [Enter api_rps; GET url [] (authorization (self_client w))] w in
  match image_hosts w with
  | [] => (None, w)
  | o :: rest => (Some o, emit [Leave api_rps] (set_image_hosts rest w))
  end.

(** [consecutive_400s >= 5 and data_kind == "data-saver" and data_regular] *)
Definition tripped (p : pass) (data_kind : string) (data_regular : list string) : bool :=
  (5 <=? consecutive_400s p)%nat && String.eqb data_kind "data-saver" && nonempty data_regular.

Definition image_url (base_url data_kind chapter_hash img : string) : string :=
  (base_url ++ "/" ++ data_kind ++ "/" ++ chapter_hash ++ "/" ++ img)%string.

Inductive verdict :=
| Stored (content : bytes)
| Throttled (d : delay)
| Failed (e : exn).

Section WithFloat.
Context {F : PyFloat}.

(** The ways out of the [try] block of one attempt, read off the
    outcome of its request: the image is stored ([break]), the loop
    sleeps and goes on ([continue]), or the [except] clause runs. *)
Definition judge (url : string) (o : outcome bytes) : verdict :=
  match o with
  | Fails e => Failed e
  | Responds r =>
      if (status_code r =? 429)%Z then
        match retry_delay r with
        | Ret d => Throttled d
        | Raise e => Failed e
        | Pending => Failed (ValueError "")
        end
      else
        match raise_for_status url r with
        | Some e => Failed e
        | None => Stored (body r)
        end
  end.

(** [for attempt in range(3):] of the first pass, on the attempts left. *)
Fixpoint fetch_image (attempts : list nat) (url data_kind : string)
    (data_regular : list string) (p : pass) (w : world) : result unit * pass * world :=
  match attempts with
  | [] => (Ret tt, p, w)
  | attempt :: attempts =>
      match image_get url w with
      | (None, w) => (Pending, p, w)
      | (Some o, w) =>
          (* the [except Exception as e:] clause *)
          let handler (e : exn) :=
            if (attempt =? 2)%nat then
              let p := {| image_bytes := image_bytes p;
                          consecutive_400s := consecutive_400s p;
                          errors := errors p + 1 |} in
              if contains "400" (str e) then
                let p := {| image_bytes := image_bytes p;
                            consecutive_400s := consecutive_400s p + 1;
                            errors := errors p |} in
                if tripped p data_kind data_regular then (Ret tt, p, w)
                else fetch_image attempts url data_kind data_regular p w
              else fetch_image attempts url data_kind data_regular p w
            else fetch_image attempts url data_kind data_regular p (emit [Sleep (Fixed 1)] w)
          in
          match o with
          | Fails e => handler e
          | Responds r =>
              if (status_code r =? 429)%Z then
                match retry_delay r with
                | Ret d =>
                    (* sleep, then [continue] *)
                    fetch_image attempts url data_kind data_regular p (emit [Sleep d] w)
                | Raise e => handler e
                | Pending => (Pending, p, w)
                end
              else
                match raise_for_status url r with
                | Some e => handler e
                | None =>
                    (Ret tt, {| image_bytes := image_bytes p ++ [body r];
                                consecutive_400s := 0;
                                errors := errors p |}, w)
                end
          end
      end
  end.

(** [for img in data:] *)
Fixpoint fetch_tier (imgs : list string) (base_url data_kind chapter_hash : string)
    (data_regular : list string) (p : pass) (w : world) : result unit * pass * world :=
  match imgs with
  | [] => (Ret tt, p, w)
  | img :: imgs =>
      match fetch_image (seq 0 3) (image_url base_url data_kind chapter_hash img)
              data_kind data_regular p w with
      | (Ret _, p, w) =>
          if tripped p data_kind data_regular then (Ret tt, p, w)
          else fetch_tier imgs base_url data_kind chapter_hash data_regular p w
      | (Raise e, p, w) => (Raise e, p, w)
      | (Pending, p, w) => (Pending, p, w)
      end
  end.

(** [for attempt in range(3):] of the fallback pass. *)
Fixpoint fetch_regular_image (attempts : list nat) (url : string)
    (p : pass) (w : world) : result unit * pass * world :=
  match attempts with
  | [] => (Ret tt, p, w)
  | attempt :: attempts =>
      match image_get url w with
      | (None, w) => (Pending, p, w)
      | (Some o, w) =>
          let handler (e : exn) :=
            if (attempt =? 2)%nat then
              fetch_regular_image attempts url
                {| image_bytes := image_bytes p;
                   consecutive_400s := consecutive_400s p;
                   errors := errors p + 1 |} w
            else fetch_regular_image attempts url p (emit [Sleep (Fixed 1)] w)
          in
          match o with
          | Fails e => handler e
          | Responds r =>
              if (status_code r =? 429)%Z then
                match retry_delay r with
                | Ret d => fetch_regular_image attempts url p (emit [Sleep d] w)
                | Raise e => handler e
                | Pending => (Pending, p, w)
                end
              else
                match raise_for_status url r with
                | Some e => handler e
                | None =>
                    (Ret tt, {| image_bytes := image_bytes p ++ [body r];
                                consecutive_400s := consecutive_400s p;
                                errors := errors p |}, w)
                end
          end
      end
  end.

(** [for img in data_regular:] *)
Fixpoint fetch_regular (imgs : list string) (base_url chapter_hash : string)
    (p : pass) (w : world) : result unit * pass * world :=
  match imgs with
  | [] => (Ret tt, p, w)
  | img :: imgs =>
      match fetch_regular_image (seq 0 3) (image_url base_url "data" chapter_hash img) p w with
      | (Ret _, p, w) => fetch_regular imgs base_url chapter_hash p w
      | (Raise e, p, w) => (Raise e, p, w)
      | (Pending, p, w) => (Pending, p, w)
      end
  end.

(** The tier to start with: [(data, data_kind)]. *)
Definition choose_tier (prefer_datasaver : bool) (ah : at_home) : list string * string :=
  if prefer_datasaver then
    if negb (nonempty (dataSaver ah)) && nonempty (data ah)
    then (data ah, "data") else (dataSaver ah, "data-saver")
  else
    if negb (nonempty (data ah)) && nonempty (dataSaver ah)
    then (dataSaver ah, "data-saver") else (data ah, "data").

(** Lines 337-400: the first pass, then the retry with regular images
    if data-saver completely failed.  Gives [image_bytes] and the job's
    error counter. *)
Definition fetch_chapter (base_url chapter_hash data_kind : string)
    (tier data_regular : list string) (errors0 : nat) (w : world)
    : result (list bytes * nat) * world :=
  match fetch_tier tier base_url data_kind chapter_hash data_regular
          {| image_bytes := []; consecutive_400s := 0; errors := errors0 |} w with
  | (Ret _, p, w) =>
      if negb (nonempty (image_bytes p)) && String.eqb data_kind "data-saver"
         && nonempty data_regular then
        let errors_before := errors p in
        match fetch_regular data_regular base_url chapter_hash
                {| image_bytes := []; consecutive_400s := consecutive_400s p;
                   errors := errors p |} w with
        | (Ret _, q, w) =>
            if nonempty (image_bytes q)
            then (Ret (image_bytes q, errors_before), w)
            else (Ret (image_bytes q, errors q), w)
        | (Raise e, _, w) => (Raise e, w)
        | (Pending, _, w) => (Pending, w)
        end
      else (Ret (image_bytes p, errors p), w)
  | (Raise e, _, w) => (Raise e, w)
  | (Pending, _, w) => (Pending, w)
  end.

End WithFloat.
End Acquire.

(** ** Paths and names *)
Module Paths.

Fixpoint ends_with_slash (s : string) : bool :=
  match s with
  | EmptyString => false
  | String c EmptyString => Ascii.eqb c "/"
  | String _ rest => ends_with_slash rest
  end.

(** [os.path.join(a, b)] (POSIX) *)
Definition join (a b : string) : string :=
  if String.prefix "/" b then b
  else if String.eqb a "" || ends_with_slash a then a ++ b
  else a ++ "/" ++ b.

Fixpoint contains_slash (p : string) : bool :=
  match p with
  | EmptyString => false
  | String c rest => Ascii.eqb c "/" || contains_slash rest
  end.

Fixpoint all_slashes (s : string) : bool :=
  match s with
  | EmptyString => true
  | String c rest => Ascii.eqb c "/" && all_slashes rest
  end.

(** [s.rstrip("/")] *)
Fixpoint rstrip_slashes (s : string) : string :=
  match s with
  | EmptyString => EmptyString
  | String c rest =>
      match rstrip_slashes rest with
      | EmptyString => if Ascii.eqb c "/" then EmptyString else String c EmptyString
      | r => String c r
      end
  end.

(** [p[:p.rfind("/") + 1]] *)
Fixpoint head (p : string) : string :=
  match p with
  | EmptyString => EmptyString
  | String c rest => if contains_slash p then String c (head rest) else EmptyString
  end.

(** [os.path.dirname(p)] (POSIX) *)
Definition dirname (p : string) : string :=
  let h := head p in
  if all_slashes h then h else rstrip_slashes h.

(** [os.path.basename(p)] *)
Fixpoint basename (p : string) : string :=
  match p with
  | EmptyString => EmptyString
  | String c rest =>
      if Ascii.eqb c "/" then basename rest
      else if contains_slash rest then basename rest
      else p
  end.

Definition between (lo hi c : ascii) : bool :=
  (nat_of_ascii lo <=? nat_of_ascii c)%nat && (nat_of_ascii c <=? nat_of_ascii hi)%nat.

(** *** Texts

    A [str] is held as its UTF-8 bytes.  The functions below work on its
    characters, each the bytes of one code point. *)

(** The number of bytes of the character that starts with [lead]; a
    byte that starts no character stands for itself. *)
Definition width (lead : ascii) : nat :=
  let n := nat_of_ascii lead in
  if (n <? 192)%nat then 1
  else if (n <? 224)%nat then 2
  else if (n <? 240)%nat then 3
  else if (n <? 248)%nat then 4
  else 1.

Fixpoint split_at (k : nat) (s : string) : string * string :=
  match k, s with
  | S k, String b rest => let '(a, r) := split_at k rest in (String b a, r)
  | _, _ => (EmptyString, s)
  end.

Fixpoint chars_upto (fuel : nat) (s : string) : list string :=
  match fuel, s with
  | S fuel, String b rest =>
      let '(more, rest) := split_at (width b - 1) rest in
      String b more :: chars_upto fuel rest
  | _, _ => []
  end.

(** [list(s)]: the characters of [s]. *)
Definition chars (s : string) : list string := chars_upto (String.length s) s.

(** ["".join(cs)] *)
Fixpoint joined (cs : list string) : string :=
  match cs with
  | [] => EmptyString
  | c :: cs => c ++ joined cs
  end.

Definition continuation (b : ascii) : bool :=
  (128 <=? nat_of_ascii b)%nat && (nat_of_ascii b <? 192)%nat.

Fixpoint all_bytes (f : ascii -> bool) (s : string) : bool :=
  match s with
  | EmptyString => true
  | String b rest => f b && all_bytes f rest
  end.

(** The bytes of one whole character: as many as its first byte
    announces, the later ones continuation bytes.  Every character of a
    [str] is of this kind. *)
Definition wellformed (c : string) : bool :=
  match c with
  | EmptyString => false
  | String b more => (String.length c =? width b)%nat && all_bytes continuation more
  end.

(** The UTF-8 bytes of the character with code point [cp]. *)
Definition encode (cp : N) : string :=
  if (cp <? 128)%N then String (ascii_of_N cp) ""
  else if (cp <? 2048)%N then
    String (ascii_of_N (192 + cp / 64))
      (String (ascii_of_N (128 + cp mod 64)) "")
  else if (cp <? 65536)%N then
    String (ascii_of_N (224 + cp / 4096))
      (String (ascii_of_N (128 + (cp / 64) mod 64))
         (String (ascii_of_N (128 + cp mod 64)) ""))
  else
    String (ascii_of_N (240 + cp / 262144))
      (String (ascii_of_N (128 + (cp / 4096) mod 64))
         (String (ascii_of_N (128 + (cp / 64) mod 64))
            (String (ascii_of_N (128 + cp mod 64)) ""))).

(** The code points that [str.strip()] removes. *)
Definition whitespace : list N :=
  [9; 10; 11; 12; 13; 28; 29; 30; 31; 32; 133; 160; 5760;
   8192; 8193; 8194; 8195; 8196; 8197; 8198; 8199; 8200; 8201; 8202;
   8232; 8233; 8239; 8287; 12288]%N.

Definition isspace (c : string) : bool := str_in c (map encode whitespace).

Fixpoint lstrip (cs : list string) : list string :=
  match cs with
  | [] => []
  | c :: rest => if isspace c then lstrip rest else cs
  end.

Fixpoint rstrip (cs : list string) : list string :=
  match cs with
  | [] => []
  | c :: rest =>
      match rstrip rest with
      | [] => if isspace c then [] else [c]
      | r => c :: r
      end
  end.

(** [s.strip()] *)
Definition strip (s : string) : string := joined (rstrip (lstrip (chars s))).

Section WithUnicode.
Context {U : PyUnicode}.

(** [c.isalnum()] for one character: on ASCII the letters and digits,
    beyond it what the tables say. *)
Definition isalnum (c : string) : bool :=
  match c with
  | String b EmptyString =>
      (nat_of_ascii b <? 128)%nat
      && (between "0" "9" b || between "a" "z" b || between "A" "Z" b)
  | _ => wellformed c && unicode_isalnum c
  end.

(** [c.isalnum() or c in allowed]; bytes that make no whole character,
    which no [str] holds, are not kept. *)
Definition kept (allowed c : string) : bool :=
  wellformed c && (isalnum c || str_in c (chars allowed)).

(** ["".join(c for c in s if c.isalnum() or c in allowed).strip()] *)
Definition sanitize (allowed s : string) : string :=
  joined (rstrip (lstrip (List.filter (kept allowed) (chars s)))).

End WithUnicode.


(** [f"{idx:03d}"] *)
Definition pad3 (idx : nat) : string :=
  if (idx <? 10)%nat then "00" ++ dec (Z.of_nat idx)
  else if (idx <? 100)%nat then "0" ++ dec (Z.of_nat idx)
  else dec (Z.of_nat idx).

(** [d.get(key)] on a JSON object kept in key order. *)
Fixpoint get (key : string) (d : list (string * string)) : option string :=
  match d with
  | [] => None
  | (k, v) :: d => if String.eqb k key then Some v else get key d
  end.

(** [next(iter(d.values()), None)] *)
Definition first_value (d : list (string * string)) : option string :=
  match d with
  | [] => None
  | (_, v) :: _ => Some v
  end.

End Paths.

(** Pillow, as the packager uses it. *)
Class Pillow := {
  image_format : bytes -> option (option string);   (* Image.open(..).format; None: open raises *)
  reencode_jpeg : bytes -> option bytes             (* convert("RGB").save(..); None: it raises *)
}.

(** ** Archive packaging ([process_job], lines 425-452, and [_create_comic_info_xml]) *)
Module Packager.
Import Paths.

Definition names (l : list (option string)) : list string :=
  omap (fun o => if truthy o then o else None) l.

(** [_create_comic_info_xml]: the elements of the document; [None] for
    the empty string. *)
Definition _create_comic_info_xml (manga_data : option manga_data) (ch : chapter)
    (chapter_number chapter_title : string) : option (list (string * string)) :=
  match manga_data with
  | None => None
  | Some md =>
      let series_title :=
        or_else (get "en" (md_title md)) (default "Unknown" (first_value (md_title md))) in
      let desc :=
        or_else (get "en" (md_description md)) (default "" (first_value (md_description md))) in
      Some ([("Series", series_title); ("Number", chapter_number)]
            ++ (if truthy (Some chapter_title) then [("Title", chapter_title)] else [])
            ++ (if truthy (Some desc) then [("Summary", desc)] else [])
            ++ (match md_year md with
                | Some y => if (y =? 0)%Z then [] else [("Year", dec y)]
                | None => []
                end)
            ++ (if nonempty (md_authors md)
                then [("Writer", String.concat ", " (names (md_authors md)))] else [])
            ++ (if nonempty (md_artists md)
                then [("Penciller", String.concat ", " (names (md_artists md)))] else [])
            ++ (if nonempty (md_tags md)
                then [("Genre", String.concat ", "
                                  (List.filter (fun t => truthy (Some t)) (firstn 5 (md_tags md))))]
                else [])
            ++ [("Manga", "Yes");
                ("LanguageISO", default "en" (ch_translatedLanguage ch))])
  end.

Section WithPillow.
Context {P : Pillow}.

(** The [try] around the re-encoding: the bytes that get stored. *)
Definition normalize (content : bytes) : bytes :=
  match image_format content with
  | None => content
  | Some fmt =>
      if match fmt with
         | Some f => String.eqb f "JPEG" || String.eqb f "JPG"
         | None => false
         end
      then content
      else default content (reencode_jpeg content)
  end.

(** What the [with] block writes, in order. *)
Definition entries (comic_info_xml : option (list (string * string)))
    (image_bytes : list bytes) : list (string * entry_data) :=
  match comic_info_xml with
  | Some doc => [("ComicInfo.xml", Doc doc)]
  | None => []
  end
  ++ imap (fun i content => ((pad3 (S i) ++ ".jpg")%string, Raw (normalize content))) image_bytes.

End WithPillow.

(** The successive [zf.writestr] calls; each takes the next fault flag. *)
Fixpoint write_entries (todo zf : list (string * entry_data)) (faults : list bool)
    : result unit * list (string * entry_data) * list bool :=
  match todo with
  | [] => (Ret tt, zf, faults)
  | e :: todo =>
      match faults with
      | true :: faults => (Raise (OSError "[Errno 28] No space left on device"), zf, faults)
      | false :: faults => write_entries todo (zf ++ [e]) faults
      | [] => write_entries todo (zf ++ [e]) []
      end
  end.

(** [os.path.isdir(p)] *)
Definition isdir (p : string) (fs : gmap string file) : bool :=
  match fs !! p with
  | Some Directory => true
  | _ => false
  end.

(** Whether the directory that a file at [p] goes in is there; the
    working directory and the root always are. *)
Definition parent_exists (p : string) (fs : gmap string file) : bool :=
  let d := dirname p in
  all_slashes d || isdir d fs.

(** The fault flag the next disk operation takes. *)
Definition next_fault (faults : list bool) : bool * list bool :=
  match faults with
  | [] => (false, [])
  | b :: faults => (b, faults)
  end.

(** [shutil.move(src, dst)] for a file [src]: [os.rename], and when that
    raises [OSError] (the two paths are on different file systems, or the
    destination directory is missing), [copy2] followed by [os.unlink].
    The rename and the copy each take the next fault flag; a copy that
    fails part-way leaves a cut-short file at the destination. *)
Definition move (src dst : string) (fs : gmap string file) (faults : list bool)
    : result unit * gmap string file * list bool :=
  match fs !! src with
  | None => (Raise (OSError "[Errno 2] No such file or directory"), fs, faults)
  | Some f =>
      let to (real_dst : string) : result unit * gmap string file * list bool :=
        if parent_exists real_dst fs then
          let '(rename_fails, faults) := next_fault faults in
          if rename_fails then
            let '(copy_fails, faults) := next_fault faults in
            if copy_fails
            then (Raise (OSError "[Errno 28] No space left on device"),
                  <[real_dst := Partial f]> fs, faults)
            else (Ret tt, <[real_dst := f]> (delete src fs), faults)
          else (Ret tt, <[real_dst := f]> (delete src fs), faults)
        else (Raise (OSError "[Errno 2] No such file or directory"), fs, faults) in
      match fs !! dst with
      | Some Directory =>
          let real_dst := join dst (basename src) in
          match fs !! real_dst with
          | Some _ => (Raise (OSError "Destination path already exists"), fs, faults)
          | None => to real_dst
          end
      | _ => to dst
      end
  end.

(** Lines 435-451: the archive is written under [tmp_path], then moved. *)
Definition package (tmp_path final_path : string) (todo : list (string * entry_data))
    (w : world) : result unit * world :=
  if negb (parent_exists tmp_path (files w))
  then (Raise (OSError "[Errno 2] No such file or directory"), w)
  else
    match files w !! tmp_path with
    | Some Directory => (Raise (OSError "[Errno 21] Is a directory"), w)
    | _ =>
        let w := set_files (<[tmp_path := Zip []]> (files w)) w in
        match write_entries todo [] (disk_faults w) with
        | (Ret _, zf, faults) =>
            let w := set_disk_faults faults (set_files (<[tmp_path := Zip zf]> (files w)) w) in
            match move tmp_path final_path (files w) (disk_faults w) with
            | (Ret _, fs, faults) => (Ret tt, set_disk_faults faults (set_files fs w))
            | (Raise e, fs, faults) => (Raise e, set_disk_faults faults (set_files fs w))
            | (Pending, fs, faults) => (Pending, set_disk_faults faults (set_files fs w))
            end
        | (Raise e, zf, faults) =>
            (Raise e, set_disk_faults faults (set_files (<[tmp_path := Zip zf]> (files w)) w))
        | (Pending, zf, faults) => (Pending, w)
        end
    end.

End Packager.

(** ** The pipeline: [DownloadManager.process_job] *)
Module Pipeline.
Import Paths.

(** The manager's configuration.  The Komga collaborator (scan trigger,
    thumbnail upload) is outside the model: its calls swallow their own
    failures and touch nothing [process_job] reads. *)
Record manager := {
  library_root : string;
  work_dir : string;
  mgr_language : string;
  use_datasaver : bool
}.

(** The counters of the chapter loop. *)
Record counters := {
  created_files : list string;
  skipped_chapters : nat;
  skipped_external : nat;
  skipped_no_images : nat;
  errors : nat;
  metadata_downloaded : bool
}.

Definition zero : counters :=
  {| created_files := []; skipped_chapters := 0; skipped_external := 0;
     skipped_no_images := 0; errors := 0; metadata_downloaded := false |}.

(** The result summary. *)
Record summary := {
  chapters_processed : nat;
  chapters_packaged : nat;
  files_created : list string;
  r_skipped_chapters : nat;
  r_skipped_external : nat;
  r_skipped_no_images : nat;
  r_errors : nat
}.

(** What the three API endpoints still have to say. *)
Record apis := {
  manga_api : list (outcome (option (option manga_data)));   (* body, then its "data" *)
  chapter_api : list (outcome (option page));
  at_home_api : list (outcome (option at_home))
}.

Definition exists_path (p : string) (w : world) : bool :=
  match files w !! p with
  | Some _ => true
  | None => false
  end.

Definition write_file (p : string) (f : file) (w : world) : world :=
  set_files (<[p := f]> (files w)) w.

(** [_download_series_metadata]: every failure is swallowed; only a
    cover request without an answer keeps it from returning. *)
Definition _download_series_metadata (series_dir : string) (md : manga_data)
    (manga_id : string) (w : world) : result unit * world :=
  let cover_path := join series_dir "cover.jpg" in
  let series_json_path := join series_dir "series.json" in
  if exists_path cover_path w && exists_path series_json_path w then (Ret tt, w)
  else
    let series_json (w : world) : world :=
      if negb (exists_path series_json_path w)
      then write_file series_json_path (SeriesJson md manga_id) w
      else w in
    if negb (exists_path cover_path w) then
      match md_cover md with
      | Some cover_filename =>
          if truthy cover_filename then
            let cover_url := ("https://uploads.mangadex.org/covers/" ++ manga_id ++ "/"
                              ++ default "" cover_filename)%string in
            let w := emit [Enter api_rps; GET cover_url [] None] w in
            match image_hosts w with
            | [] => (Pending, w)
            | o :: rest =>
                let w := emit [Leave api_rps] (set_image_hosts rest w) in
                match o with
                | Fails _ => (Ret tt, series_json w)
                | Responds r =>
                    match raise_for_status cover_url r with
                    | Some _ => (Ret tt, series_json w)
                    | None => (Ret tt, series_json (write_file cover_path (Blob (body r)) w))
                    end
                end
            end
          else (Ret tt, series_json w)
      | None => (Ret tt, series_json w)
      end
    else (Ret tt, series_json w).

(** [os.makedirs(series_dir, exist_ok=True)]; the directory is recorded
    under its name without trailing slashes. *)
Definition makedirs (p : string) (w : world) : result unit * world :=
  if String.eqb p "" then (Raise (OSError "[Errno 2] No such file or directory"), w)
  else if all_slashes p then (Ret tt, w)
  else
    let d := rstrip_slashes p in
    match files w !! d with
    | None => (Ret tt, write_file d Directory w)
    | Some Directory => (Ret tt, w)
    | Some _ => (Raise (OSError "[Errno 17] File exists"), w)
    end.

Definition skip (external no_images error : bool) (k : counters) : counters :=
  {| created_files := created_files k;
     skipped_chapters := skipped_chapters k + 1;
     skipped_external := skipped_external k + (if external then 1 else 0);
     skipped_no_images := skipped_no_images k + (if no_images then 1 else 0);
     errors := errors k + (if error then 1 else 0);
     metadata_downloaded := metadata_downloaded k |}.

Definition with_errors (n : nat) (k : counters) : counters :=
  {| created_files := created_files k; skipped_chapters := skipped_chapters k;
     skipped_external := skipped_external k; skipped_no_images := skipped_no_images k;
     errors := n; metadata_downloaded := metadata_downloaded k |}.

Definition with_metadata_downloaded (k : counters) : counters :=
  {| created_files := created_files k; skipped_chapters := skipped_chapters k;
     skipped_external := skipped_external k; skipped_no_images := skipped_no_images k;
     errors := errors k; metadata_downloaded := true |}.

Definition with_created (p : string) (k : counters) : counters :=
  {| created_files := created_files k ++ [p]; skipped_chapters := skipped_chapters k;
     skipped_external := skipped_external k; skipped_no_images := skipped_no_images k;
     errors := errors k; metadata_downloaded := metadata_downloaded k |}.

(** The accounting the counters keep: [n] chapters seen so far, each
    either packaged or skipped, and every skip reason inside the skips. *)
Definition accounted (n : nat) (k : counters) : Prop :=
  length (created_files k) + skipped_chapters k = n
  /\ skipped_external k + skipped_no_images k <= skipped_chapters k.

Section WithLibraries.
Context {F : PyFloat} {P : Pillow} {U : PyUnicode}.
Variable self : manager.
Variable manga_id : string.
Variable manga_title : option string.
Variable manga_data_full : option manga_data.

(** Lines 407-453: directory, series metadata, names, archive. *)
Definition package_chapter (ch : chapter) (chapter_id : string)
    (image_bytes : list bytes) (k : counters) (w : world) : result counters * world :=
  let series_name := or_else manga_title manga_id in
  let series_dir := join (library_root self) series_name in
  match makedirs series_dir w with
  | (Raise e, w) => (Raise e, w)
  | (Pending, w) => (Pending, w)
  | (Ret _, w) =>
      let named (k : counters) (w : world) : result counters * world :=
        let chapter_number := or_else (ch_chapter ch) chapter_id in
        let chapter_title := or_else (ch_title ch) "" in
        let safe_chapter_title := sanitize " -_." chapter_title in
        let filename :=
          if truthy (Some safe_chapter_title)
          then ("c" ++ chapter_number ++ " " ++ safe_chapter_title ++ ".cbz")%string
          else ("c" ++ chapter_number ++ ".cbz")%string in
        let tmp_path := join (work_dir self) (chapter_id ++ ".cbz.tmp") in
        let final_path := join series_dir filename in
        let comic_info_xml :=
          Packager._create_comic_info_xml manga_data_full ch chapter_number chapter_title in
        match Packager.package tmp_path final_path
                (Packager.entries comic_info_xml image_bytes) w with
        | (Ret _, w) => (Ret (with_created final_path k), w)
        | (Raise e, w) => (Raise e, w)
        | (Pending, w) => (Pending, w)
        end in
      match manga_data_full with
      | Some md =>
          if negb (metadata_downloaded k) then
            match _download_series_metadata series_dir md manga_id w with
            | (Ret _, w) => named (with_metadata_downloaded k) w
            | (Raise e, w) => (Raise e, w)
            | (Pending, w) => (Pending, w)
            end
          else named k w
      | None => named k w
      end
  end.

(** The body of [for ch in chapters:]. *)
Definition process_chapter (ch : chapter) (k : counters)
    (api : list (outcome (option at_home))) (w : world)
    : result counters * list (outcome (option at_home)) * world :=
  if negb (truthy (ch_id ch)) then (Ret (skip false false false k), api, w)
  else
    let chapter_id := default "" (ch_id ch) in
    if truthy (ch_externalUrl ch) then (Ret (skip true false false k), api, w)
    else
      match Client.get_at_home chapter_id api w with
      | (Raise _, api, w) => (Ret (skip false false true k), api, w)
      | (Pending, api, w) => (Pending, api, w)
      | (Ret ah, api, w) =>
          let data_regular := data ah in
          let '(tier, data_kind) := Acquire.choose_tier (use_datasaver self) ah in
          if negb (truthy (baseUrl ah) && truthy (hash ah) && nonempty tier)
          then (Ret (skip false true false k), api, w)
          else
            match Acquire.fetch_chapter (default "" (baseUrl ah)) (default "" (hash ah))
                    data_kind tier data_regular (errors k) w with
            | (Raise e, w) => (Raise e, api, w)
            | (Pending, w) => (Pending, api, w)
            | (Ret (image_bytes, errs), w) =>
                let k := with_errors errs k in
                if negb (nonempty image_bytes)
                then (Ret (skip false true false k), api, w)
                else
                  match package_chapter ch chapter_id image_bytes k w with
                  | (Ret k, w) => (Ret k, api, w)
                  | (Raise e, w) => (Raise e, api, w)
                  | (Pending, w) => (Pending, api, w)
                  end
            end
      end.

(** [for ch in chapters:] *)
Fixpoint chapter_loop (chs : list chapter) (k : counters)
    (api : list (outcome (option at_home))) (w : world)
    : result counters * list (outcome (option at_home)) * world :=
  match chs with
  | [] => (Ret k, api, w)
  | ch :: chs =>
      match process_chapter ch k api w with
      | (Ret k, api, w) => chapter_loop chs k api w
      | (Raise e, api, w) => (Raise e, api, w)
      | (Pending, api, w) => (Pending, api, w)
      end
  end.

Definition summarize (chs : list chapter) (k : counters) : summary :=
  {| chapters_processed := length chs;
     chapters_packaged := length (created_files k);
     files_created := created_files k;
     r_skipped_chapters := skipped_chapters k;
     r_skipped_external := skipped_external k;
     r_skipped_no_images := skipped_no_images k;
     r_errors := errors k |}.

End WithLibraries.

Section WithJob.
Context {F : PyFloat} {P : Pillow} {U : PyUnicode}.

(** Lines 186-199: the title record and the directory name. *)
Definition fetch_title (manga_id : string)
    (api : list (outcome (option (option manga_data)))) (w : world)
    : result (option string * option manga_data)
      * list (outcome (option (option manga_data))) * world :=
  match Client.get_manga manga_id api w with
  | (Ret manga_data_full, api, w) =>
      let title_obj := match manga_data_full with Some md => md_title md | None => [] end in
      let manga_title :=
        py_or (get "en" title_obj)
          (py_or (get "ja-ro" title_obj)
             (py_or (get "ja" title_obj) (first_value title_obj))) in
      (Ret (if truthy manga_title
            then Some (sanitize " -_.,()[]" (default "" manga_title))
            else manga_title,
            manga_data_full), api, w)
  | (Raise _, api, w) => (Ret (None, None), api, w)
  | (Pending, api, w) => (Pending, api, w)
  end.

Definition process_job (self : manager) (job : job_request) (api : apis) (w : world)
    : result summary * apis * world :=
  let manga_id := manga_id job in
  let language := or_else (language job) (mgr_language self) in
  match fetch_title manga_id (manga_api api) w with
  | (Raise e, m, w) =>
      (Raise e, {| manga_api := m; chapter_api := chapter_api api;
                   at_home_api := at_home_api api |}, w)
  | (Pending, m, w) =>
      (Pending, {| manga_api := m; chapter_api := chapter_api api;
                   at_home_api := at_home_api api |}, w)
  | (Ret (manga_title, manga_data_full), m, w) =>
      match Discovery.list_chapters manga_id language (chapter_api api) w with
      | (Raise e, c, w) =>
          (Raise e, {| manga_api := m; chapter_api := c; at_home_api := at_home_api api |}, w)
      | (Pending, c, w) =>
          (Pending, {| manga_api := m; chapter_api := c; at_home_api := at_home_api api |}, w)
      | (Ret found, c, w) =>
          let chs := Filter.filter_job job found in
          match chapter_loop self manga_id manga_title manga_data_full chs zero
                  (at_home_api api) w with
          | (Ret k, a, w) =>
              (Ret (summarize chs k),
               {| manga_api := m; chapter_api := c; at_home_api := a |}, w)
          | (Raise e, a, w) =>
              (Raise e, {| manga_api := m; chapter_api := c; at_home_api := a |}, w)
          | (Pending, a, w) =>
              (Pending, {| manga_api := m; chapter_api := c; at_home_api := a |}, w)
          end
      end
  end.

End WithJob.
End Pipeline.

(** ** The job table, the queue and the worker ([main.py]) *)
Module Worker.
Import Pipeline.

Inductive job_status := queued | running | completed | failed | canceled | aborted.

Definition is_status (a b : job_status) : bool :=
  match a, b with
  | queued, queued | running, running | completed, completed
  | failed, failed | canceled, canceled | aborted, aborted => true
  | _, _ => false
  end.

Record job := {
  j_id : string;
  j_status : job_status;
  j_request : job_request;
  j_result : option summary;
  j_error : option string
}.

(** The two module-level objects. *)
Record server := {
  jobs : gmap string job;
  queue : list string
}.

Definition set_status (s : job_status) (j : job) : job :=
  {| j_id := j_id j; j_status := s; j_request := j_request j;
     j_result := j_result j; j_error := j_error j |}.

Definition set_error (e : string) (j : job) : job :=
  {| j_id := j_id j; j_status := j_status j; j_request := j_request j;
     j_result := j_result j; j_error := Some e |}.

Definition set_result (r : summary) (j : job) : job :=
  {| j_id := j_id j; j_status := j_status j; j_request := j_request j;
     j_result := Some r; j_error := j_error j |}.

Definition update (job_id : string) (f : job -> job) (srv : server) : server :=
  {| jobs := alter f job_id (jobs srv); queue := queue srv |}.

(** The handlers: the HTTP status they answer with and the new state. *)
Definition add_job (job_id : string) (req : job_request) (srv : server) : Z * server :=
  (200%Z,
   {| jobs := <[job_id := {| j_id := job_id; j_status := queued; j_request := req;
                             j_result := None; j_error := None |}]> (jobs srv);
      queue := queue srv ++ [job_id] |}).

Definition abort_job (job_id : string) (srv : server) : Z * server :=
  match jobs srv !! job_id with
  | None => (404%Z, srv)
  | Some j =>
      if is_status (j_status j) running
      then (200%Z, update job_id (fun j => set_error "Aborted by user" (set_status aborted j)) srv)
      else if is_status (j_status j) queued
      then (200%Z, update job_id (fun j => set_error "Aborted by user" (set_status aborted j)) srv)
      else (200%Z, srv)
  end.

Definition cancel_job (job_id : string) (srv : server) : Z * server :=
  match jobs srv !! job_id with
  | None => (404%Z, srv)
  | Some j =>
      if negb (is_status (j_status j) queued) then (400%Z, srv)
      else (200%Z, update job_id (set_status canceled) srv)
  end.

(** Requests served while the worker awaits. *)
Inductive call :=
| AddJob (job_id : string) (req : job_request)
| AbortJob (job_id : string)
| CancelJob (job_id : string).

Definition serve (srv : server) (c : call) : server :=
  match c with
  | AddJob job_id req => snd (add_job job_id req srv)
  | AbortJob job_id => snd (abort_job job_id srv)
  | CancelJob job_id => snd (cancel_job job_id srv)
  end.

(** What one turn of [while True:] did with the identifier it took. *)
Inductive turn :=
| Waiting                       (* queue.get() has nothing to give *)
| Discarded (job_id : string)   (* task_done() without running *)
| Executed (job_id : string)    (* process_job was called and came back *)
| Executing (job_id : string).  (* process_job was called and has not come back *)

Section WithLibraries.
Context {F : PyFloat} {P : Pillow} {U : PyUnicode}.
Variable manager : Pipeline.manager.

(** One turn of the worker loop; [during] are the requests served while
    [process_job] is awaited. *)
Definition worker_turn (during : list call) (srv : server) (api : apis) (w : world)
    : turn * server * apis * world :=
  match queue srv with
  | [] => (Waiting, srv, api, w)
  | job_id :: rest =>
      let srv := {| jobs := jobs srv; queue := rest |} in
      match jobs srv !! job_id with
      | None => (Discarded job_id, srv, api, w)
      | Some j =>
          if is_status (j_status j) aborted then (Discarded job_id, srv, api, w)
          else
            let srv := update job_id (set_status running) srv in
            let '(r, api, w) := process_job manager (j_request j) api w in
            let srv := fold_left serve during srv in
            match r with
            | Ret res =>
                let srv :=
                  match jobs srv !! job_id with
                  | Some j' =>
                      if is_status (j_status j') aborted then srv
                      else update job_id (set_status completed) srv
                  | None => srv
                  end in
                (Executed job_id, update job_id (set_result res) srv, api, w)
            | Raise e =>
                (Executed job_id,
                 update job_id (fun j => set_error (str e) (set_status failed j)) srv, api, w)
            | Pending => (Executing job_id, srv, api, w)
            end
      end
  end.

End WithLibraries.
End Worker.

(** ** Reading the trace *)
Module Trace.

(** Every [GET] of the trace is sent inside both [async with] blocks,
    given which blocks are open at its start. *)
Fixpoint both_windows (rpm rps : bool) (tr : list event) : bool :=
  match tr with
  | [] => true
  | Enter api_rpm :: tr => both_windows true rps tr
  | Enter api_rps :: tr => both_windows rpm true tr
  | Leave api_rpm :: tr => both_windows false rps tr
  | Leave api_rps :: tr => both_windows rpm false tr
  | GET _ _ _ :: tr => rpm && rps && both_windows rpm rps tr
  | _ :: tr => both_windows rpm rps tr
  end.

(** The blocks open at the end of the trace. *)
Fixpoint open_after (rpm rps : bool) (tr : list event) : bool * bool :=
  match tr with
  | [] => (rpm, rps)
  | Enter api_rpm :: tr => open_after true rps tr
  | Enter api_rps :: tr => open_after rpm true tr
  | Leave api_rpm :: tr => open_after false rps tr
  | Leave api_rps :: tr => open_after rpm false tr
  | _ :: tr => open_after rpm rps tr
  end.

Definition is_get (e : event) : bool :=
  match e with GET _ _ _ => true | _ => false end.


Definition count (f : event -> bool) (tr : list event) : nat :=
  length (List.filter f tr).

(** A trace that is well guarded and leaves no block open. *)
Definition settled (tr : list event) : Prop :=
  both_windows false false tr = true
  /\ open_after false false tr = (false, false).

Definition same_limiter (a b : limiter) : bool :=
  match a, b with
  | api_rpm, api_rpm | api_rps, api_rps => true
  | _, _ => false
  end.

Fixpoint same_windows (a b : list limiter) : bool :=
  match a, b with
  | [], [] => true
  | x :: a, y :: b => same_limiter x y && same_windows a b
  | _, _ => false
  end.

(** The [async with] blocks held after the events of [tr], innermost
    first, starting with [held]: a block entered is held inside the ones
    held before, and only the innermost block can be left.  [None] when a
    [GET] is sent while the blocks held are not exactly [need] (so: not
    entered in the order of [need], outermost last), when a block outside
    [need] is entered, or when a block is left out of turn. *)
Fixpoint sent_within (need held : list limiter) (tr : list event) : option (list limiter) :=
  match tr with
  | [] => Some held
  | Enter l :: tr =>
      if existsb (same_limiter l) need then sent_within need (l :: held) tr else None
  | Leave l :: tr =>
      match held with
      | l' :: held => if same_limiter l l' then sent_within need held tr else None
      | [] => None
      end
  | GET _ _ _ :: tr => if same_windows held need then sent_within need held tr else None
  | _ :: tr => sent_within need held tr
  end.

(** What a call adds to the trace, whatever went before: every request
    is sent with exactly the blocks [need] held, and once the call is over
    no block is held. *)
Definition step (need : list limiter) {A} (w : world) (r : result A) (w' : world) : Prop :=
  exists es held,
    trace w' = trace w ++ es
    /\ sent_within need [] es = Some held
    /\ (r <> Pending -> held = []).

End Trace.

(** ** Concrete libraries and inputs for the examples *)
Module Examples.

(** Decimal numerals [[+-]ddd[.ddd]] as exact decimals: the labels and
    range ends that occur in practice, a part of what [float] reads. *)
Definition digit (c : ascii) : option Z :=
  if Paths.between "0" "9" c
  then Some (Z.of_nat (nat_of_ascii c) - 48)%Z else None.

Fixpoint scan (s : string) (seen_dot : bool) (mant : Z) (scale ndig : nat)
    : option (Z * nat) :=
  match s with
  | EmptyString => if (ndig =? 0)%nat then None else Some (mant, scale)
  | String c rest =>
      match digit c with
      | Some d => scan rest seen_dot (10 * mant + d)%Z
                    (if seen_dot then S scale else scale) (S ndig)
      | None =>
          if Ascii.eqb c "." && negb seen_dot then scan rest true mant scale ndig
          else None
      end
  end.

Definition decimal_of_str (s : string) : option (Z * nat) :=
  match s with
  | String "-" rest =>
      match scan rest false 0 0 0 with
      | Some (m, k) => Some ((- m)%Z, k)
      | None => None
      end
  | String "+" rest => scan rest false 0 0 0
  | _ => scan s false 0 0 0
  end.

Definition decimal_le (a b : Z * nat) : bool :=
  (fst a * 10 ^ Z.of_nat (snd b) <=? fst b * 10 ^ Z.of_nat (snd a))%Z.

(** The code point of a whole character. *)
Definition code_point (c : string) : N :=
  match c with
  | EmptyString => 0%N
  | String b more =>
      let lead := N_of_ascii b in
      let start :=
        match Paths.width b with
        | 2 => (lead - 192)%N
        | 3 => (lead - 224)%N
        | 4 => (lead - 240)%N
        | _ => lead
        end in
      fold_left (fun acc x => (acc * 64 + (N_of_ascii x - 128))%N)
        (list_ascii_of_string more) start
  end.

(** A part of Python's table: the letters of Latin-1, hiragana, katakana
    and the unified CJK ideographs are alphanumeric. *)
Definition unicode : PyUnicode :=
  {| unicode_isalnum := fun c =>
       let cp := code_point c in
       existsb (fun '(lo, hi) => (lo <=? cp)%N && (cp <=? hi)%N)
         [(192, 214); (216, 246); (248, 255);
          (12353, 12438); (12449, 12538); (19968, 40869)]%N |}.

Definition decimal : PyFloat :=
  {| float := Z * nat; float_of_str := decimal_of_str; float_le := decimal_le |}.

(** A Pillow that finds every image already in JPEG. *)
Definition all_jpeg : Pillow :=
  {| image_format := fun _ => Some (Some "JPEG"); reencode_jpeg := fun b => Some b |}.

Definition ch (id : string) (vol num : option string) : chapter :=
  {| ch_id := Some id; ch_volume := vol; ch_chapter := num; ch_externalUrl := None;
     ch_title := None; ch_translatedLanguage := Some "en" |}.

Definition five_chapters : list chapter :=
  [ch "a" (Some "1") (Some "1"); ch "b" (Some "1") (Some "2.5");
   ch "c" (Some "2") (Some "10"); ch "d" None None; ch "e" (Some "2") (Some "Extra")].

Definition job_of (vols chs : option (list string)) : job_request :=
  {| manga_id := "m1"; language := None; volumes := vols; chapters := chs |}.

Definition answer {B} (status : Z) (reason : string) (b : B) : outcome B :=
  Responds {| status_code := status; reason_phrase := reason; retry_after := None; body := b |}.

Definition throttled {B} (retry : option string) (b : B) : outcome B :=
  Responds {| status_code := 429; reason_phrase := "Too Many Requests";
              retry_after := retry; body := b |}.

(** A client configured with a long-lived token. *)
Definition token_client : client :=
  {| base_url := "https://api.mangadex.org"; authorization := None;
     _username := None; _password := None; _access_token := Some "t0";
     _refresh_token := None; _client_id := None; _client_secret := None |}.

(** A client that logged in with a password grant and holds a refresh token. *)
Definition session_client : client :=
  {| base_url := "https://api.mangadex.org"; authorization := Some "Bearer t0";
     _username := Some "u"; _password := Some "p"; _access_token := Some "t0";
     _refresh_token := Some "r0"; _client_id := Some "id"; _client_secret := Some "secret" |}.

Definition world_of (c : client) (auth : list (outcome (option token_body)))
    (imgs : list (outcome bytes)) (faults : list bool) : world :=
  {| self_client := c; auth_server := auth; image_hosts := imgs;
     files := {["/app/data" := Directory]}; disk_faults := faults; trace := [] |}.

Definition fresh : Acquire.pass :=
  {| Acquire.image_bytes := []; Acquire.consecutive_400s := 0; Acquire.errors := 0 |}.

Definition png : bytes := [Byte.x89; Byte.x50].
Definition jpg : bytes := [Byte.xff; Byte.xd8].

Definition manager0 : Pipeline.manager :=
  {| Pipeline.library_root := "/library"; Pipeline.work_dir := "/app/data";
     Pipeline.mgr_language := "en"; Pipeline.use_datasaver := true |}.

(** A title the API does not know, and an empty chapter listing. *)
Definition quiet_apis : Pipeline.apis :=
  {| Pipeline.manga_api := [answer 404 "Not Found" None];
     Pipeline.chapter_api := [answer 200 "OK" (Some {| pg_data := []; pg_total := Some 0%Z |})];
     Pipeline.at_home_api := [] |}.

Definition job_in (st : Worker.job_status) : Worker.job :=
  {| Worker.j_id := "j1"; Worker.j_status := st; Worker.j_request := job_of None None;
     Worker.j_result := None; Worker.j_error := None |}.

(** A chapter whose data-saver image is gone from the node (404 on each
    attempt) while the full-quality image is served. *)
Definition two_tiers : at_home :=
  {| baseUrl := Some "https://node"; hash := Some "h";
     data := ["r1.jpg"]; dataSaver := ["s1.jpg"] |}.

Definition saver_gone : list (outcome bytes) :=
  [answer 404 "Not Found" []; answer 404 "Not Found" []; answer 404 "Not Found" [];
   answer 200 "OK" jpg].

(** A listing of two chapters, the second hosted elsewhere. *)
Definition two_chapter_apis : Pipeline.apis :=
  {| Pipeline.manga_api := [answer 404 "Not Found" None];
     Pipeline.chapter_api :=
       [answer 200 "OK"
          (Some {| pg_data :=
                     [ch "c1" (Some "1") (Some "1");
                      {| ch_id := Some "c2"; ch_volume := Some "1"; ch_chapter := Some "2";
                         ch_externalUrl := Some "https://elsewhere/2";
                         ch_title := None; ch_translatedLanguage := Some "en" |}];
                   pg_total := Some 2%Z |})];
     Pipeline.at_home_api := [answer 200 "OK" (Some two_tiers)] |}.

(** The table and the queue after [add_job] then [cancel_job] of "j1". *)
Definition canceled_server : Worker.server :=
  snd (Worker.cancel_job "j1" (snd (Worker.add_job "j1" (job_of None None)
         {| Worker.jobs := ∅; Worker.queue := [] |}))).

End Examples.

(** ** The client's logout ([mangadex_client.py], lines 118-122) *)
Module Session.

(** [auth_logout]: the access token and the header go, the rest stays. *)
Definition auth_logout (w : world) : bool * world :=
  let c := self_client w in
  (true,
   set_client
     {| base_url := base_url c; authorization := None;
        _username := _username c; _password := _password c;
        _access_token := None; _refresh_token := _refresh_token c;
        _client_id := _client_id c; _client_secret := _client_secret c |} w).

End Session.

(** ** The library-scan trigger ([download_manager.py], lines 470-486) *)
Module Komga.

(** The manager's Komga fields; [_last_scan] in microseconds, the
    resolution of [datetime]. *)
Record komga := {
  komga_base : option string;
  komga_library_id : option string;
  komga_token : option string;
  _last_scan : option Z
}.

(** The dictionary returned. *)
Inductive scan :=
| Skipped (reason : string)
| Triggered
| Rejected (status : Z)             (* {"scan": "failed", "status": ...} *)
| Errored (error : string).

(** [timedelta(seconds=30)] *)
Definition cooldown : Z := 30000000.

Definition armed (now : Z) (self : komga) : komga :=
  {| komga_base := komga_base self; komga_library_id := komga_library_id self;
     komga_token := komga_token self; _last_scan := Some now |}.

(** [trigger_komga_scan], with [now] the reading of [datetime.utcnow()]
    and [server] what Komga answers to the successive scan requests. *)
Definition trigger_komga_scan (self : komga) (now : Z) (server : list (outcome unit))
    : result scan * komga * list (outcome unit) :=
  if negb (truthy (komga_base self) && truthy (komga_library_id self)
           && truthy (komga_token self))
  then (Ret (Skipped "missing_config"), self, server)
  else if match _last_scan self with
          | Some last => (now - last <? cooldown)%Z
          | None => false
          end
  then (Ret (Skipped "debounced"), self, server)
  else
    match server with
    | [] => (Pending, self, [])
    | Responds r :: server =>
        if (status_code r =? 202)%Z then (Ret Triggered, armed now self, server)
        else (Ret (Rejected (status_code r)), self, server)
    | Fails e :: server => (Ret (Errored (str e)), self, server)
    end.

End Komga.

(** ** Readings used by the further properties *)
Module Observe.

Definition is_sleep (e : event) : bool :=
  match e with Sleep _ => true | _ => false end.


(** The addresses of the requests sent, in order. *)
Definition urls (tr : list event) : list string :=
  omap (fun e => match e with GET url _ _ => Some url | _ => None end) tr.

(** The requests sent from [before] to [after] are [n] requests for
    [url] with [params]. *)
Definition sent (url : string) (params : list (string * string)) (n : nat)
    (before after : list event) : Prop :=
  exists es, after = before ++ es
             /\ omap (fun e => match e with
                               | GET u p _ => Some (u, p)
                               | _ => None
                               end) es = repeat (url, params) n.

(** The chapters the answers [consumed] handed over: those of every
    answer with a success status and a body that decodes. *)
Definition delivered (consumed : list (outcome (option page))) : list chapter :=
  concat (map (fun o => match o with
                        | Responds r =>
                            if is_success r
                            then match body r with
                                 | Some pg => pg_data pg
                                 | None => []
                                 end
                            else []
                        | Fails _ => []
                        end) consumed).

(** Names in strictly ascending byte order. *)
Fixpoint ascending (l : list string) : bool :=
  match l with
  | a :: (b :: _) as rest => String.ltb a b && ascending rest
  | _ => true
  end.

(** The title record with other tags. *)
Definition with_tags (tags : list string) (md : manga_data) : manga_data :=
  {| md_title := md_title md; md_description := md_description md;
     md_status := md_status md; md_year := md_year md; md_tags := tags;
     md_authors := md_authors md; md_artists := md_artists md;
     md_cover := md_cover md |}.

(** The identifiers the [add_job] calls among [cs] put in the queue. *)
Definition added (cs : list Worker.call) : list string :=
  omap (fun c => match c with Worker.AddJob job_id _ => Some job_id | _ => None end) cs.

(** Whether an abort of [job_id] is among the requests [cs]. *)
Definition aborts (job_id : string) (cs : list Worker.call) : bool :=
  existsb (fun c => match c with
                    | Worker.AbortJob i => String.eqb i job_id
                    | _ => false
                    end) cs.

(** The statuses no handler and no worker turn leaves again. *)
Definition terminal (s : Worker.job_status) : bool :=
  match s with
  | Worker.completed | Worker.failed | Worker.canceled | Worker.aborted => true
  | Worker.queued | Worker.running => false
  end.

(** A listing served page by page from offset [off]: every page has
    chapters, and the reported total is reached exactly by the last one. *)
Fixpoint paged (off : Z) (pages : list page) : bool :=
  match pages with
  | [] => false
  | pg :: rest =>
      let off' := (off + Z.of_nat (length (pg_data pg)))%Z in
      nonempty (pg_data pg)
      && match rest with
         | [] => (default 0%Z (pg_total pg) <=? off')%Z
         | _ :: _ => negb (default 0%Z (pg_total pg) <=? off')%Z && paged off' rest
         end
  end.

(** A chapter the loop skips before any request: no identifier, or
    hosted elsewhere. *)
Definition offline (c : chapter) : bool :=
  negb (truthy (ch_id c)) || truthy (ch_externalUrl c).

Section WithFloat.
Context {F : PyFloat}.


End WithFloat.
End Observe.

(** ** More inputs for the examples *)
Module Scenes.

Definition komga0 : Komga.komga :=
  {| Komga.komga_base := Some "http://komga:25600"; Komga.komga_library_id := Some "lib";
     Komga.komga_token := Some "k"; Komga._last_scan := None |}.

Definition busy {B} (b : B) : response B :=
  {| status_code := 503; reason_phrase := "Service Unavailable";
     retry_after := None; body := b |}.


Definition fine {B} (b : B) : response B :=
  {| status_code := 200; reason_phrase := "OK"; retry_after := None; body := b |}.

Definition bad_request : response bytes :=
  {| status_code := 400; reason_phrase := "Bad Request"; retry_after := None; body := [] |}.

Definition page_of (ids : list string) (total : Z) : page :=
  {| pg_data := map (fun i => Examples.ch i None (Some i)) ids; pg_total := Some total |}.

Definition empty_server : Worker.server := {| Worker.jobs := ∅; Worker.queue := [] |}.

End Scenes.

(** * Theorems *)

(** ** Chapter filter *)

(** C6. With neither a volume filter nor a chapter filter configured
    (absent or empty), filtering gives back the chapter list itself:
    same chapters, same order. *)
Theorem empty_filter_is_identity {F : PyFloat} (job : job_request) (chs : list chapter) :
  or_empty (volumes job) = [] ->
  or_empty (chapters job) = [] ->
  Filter.filter_job job chs = chs.
Proof.
  intros Hv Hc. unfold Filter.filter_job, Filter.select.
  rewrite Hv, Hc. reflexivity.
Qed.

Lemma empty_filter_is_identity_witness :
  Filter.filter_job (F := Examples.decimal) (Examples.job_of None (Some []))
    Examples.five_chapters = Examples.five_chapters.
Proof.
  apply (empty_filter_is_identity (F := Examples.decimal)); reflexivity.
Defined.

Lemma include_range {F : PyFloat} vf sa sb a b (c : chapter) :
  float_of_str sa = Some a ->
  float_of_str sb = Some b ->
  Filter.include_chapter vf [sa; sb] c = true ->
  exists s x, ch_chapter c = Some s /\ float_of_str s = Some x
              /\ float_le a x = true /\ float_le x b = true.
Proof.
  intros Ha Hb. unfold Filter.include_chapter, Filter.range_mode, Filter.endpoints,
    Filter.chapter_str_to_float.
  rewrite Ha, Hb. cbn [nonempty].
  destruct (nonempty vf && _); [discriminate |].
  destruct (ch_chapter c) as [s |]; [| discriminate].
  destruct (float_of_str s) as [x |] eqn:Hx; [| discriminate].
  destruct (float_le a x) eqn:H1; [| discriminate].
  destruct (float_le x b) eqn:H2; [| discriminate].
  intros _. exists s, x. auto.
Qed.

(** C7. For a chapter filter of two elements that both parse as numbers
    [a] and [b] with [a <= b], every retained chapter comes from the list
    and has a label that parses as a number in [[a, b]]; a chapter whose
    label is missing or does not parse is not retained. *)
Theorem range_filter_keeps_only_range {F : PyFloat} (vf : list string) (sa sb : string)
    (a b : float) (chs : list chapter) :
  float_of_str sa = Some a ->
  float_of_str sb = Some b ->
  float_le a b = true ->
  (forall c, In c (Filter.select vf [sa; sb] chs) ->
     In c chs /\
     exists s x, ch_chapter c = Some s /\ float_of_str s = Some x
                 /\ float_le a x = true /\ float_le x b = true)
  /\ (forall c, Filter.chapter_str_to_float (ch_chapter c) = None ->
        ~ In c (Filter.select vf [sa; sb] chs)).
Proof.
  intros Ha Hb _.
  assert (Hsel : forall c, In c (Filter.select vf [sa; sb] chs) ->
            In c chs /\ Filter.include_chapter vf [sa; sb] c = true).
  { intros c. unfold Filter.select.
    replace (nonempty vf || nonempty [sa; sb]) with true
      by (cbn; rewrite orb_true_r; reflexivity).
    apply filter_In. }
  split.
  - intros c Hc. destruct (Hsel c Hc) as [Hin Hinc]. split; [exact Hin |].
    eapply include_range; eauto.
  - intros c Hnone Hc. destruct (Hsel c Hc) as [_ Hinc].
    destruct (include_range _ _ _ _ _ _ Ha Hb Hinc) as (s & x & Hs & Hx & _).
    unfold Filter.chapter_str_to_float in Hnone. rewrite Hs in Hnone. congruence.
Qed.

Lemma range_filter_keeps_only_range_witness :
  Filter.select (F := Examples.decimal) [] ["2"; "10"] Examples.five_chapters
    = [Examples.ch "b" (Some "1") (Some "2.5"); Examples.ch "c" (Some "2") (Some "10")]
  /\ ~ In (Examples.ch "e" (Some "2") (Some "Extra"))
         (Filter.select (F := Examples.decimal) [] ["2"; "10"] Examples.five_chapters).
Proof.
  split; [reflexivity |].
  apply (range_filter_keeps_only_range (F := Examples.decimal) [] "2" "10" (2%Z, 0) (10%Z, 0)
           Examples.five_chapters eq_refl eq_refl eq_refl).
  reflexivity.
Defined.

(** ** Worker *)

Lemma canceled_server_state :
  Worker.jobs Examples.canceled_server !! "j1" = Some (Examples.job_in Worker.canceled)
  /\ Worker.queue Examples.canceled_server = ["j1"].
Proof. split; vm_compute; reflexivity. Qed.

(** The worker's test before running: a dequeued job runs unless it is
    missing from the table or marked [aborted]. *)
Lemma worker_discards_iff {F : PyFloat} {P : Pillow} {U : PyUnicode} m during srv api w job_id rest :
  Worker.queue srv = job_id :: rest ->
  (fst (fst (fst (Worker.worker_turn m during srv api w))) = Worker.Discarded job_id
   <-> match Worker.jobs srv !! job_id with
       | None => True
       | Some j => Worker.j_status j = Worker.aborted
       end).
Proof.
  intros Hq. unfold Worker.worker_turn. rewrite Hq. cbn [Worker.jobs].
  destruct (Worker.jobs srv !! job_id) as [j |]; [| tauto].
  destruct (Worker.j_status j) eqn:Hs; cbn [Worker.is_status];
    try (destruct (Pipeline.process_job _ _ _ _) as [[r api'] w'];
         destruct r; cbn; split; intros; discriminate).
  cbn. tauto.
Qed.

(** C1 (evaluation at the failing input).  A job canceled while queued
    stays in the queue; when the worker takes it, it is run like any
    other and ends [completed] with a result attached. *)
Theorem canceled_job_is_executed :
  let '(t, srv, _, _) :=
    Worker.worker_turn (F := Examples.decimal) (P := Examples.all_jpeg) (U := Examples.unicode)
      Examples.manager0 [] Examples.canceled_server Examples.quiet_apis
      (Examples.world_of Examples.token_client [] [] []) in
  t = Worker.Executed "j1"
  /\ (Worker.j_status <$> Worker.jobs srv !! "j1") = Some Worker.completed
  /\ (Worker.j_result <$> Worker.jobs srv !! "j1")
     = Some (Some {| Pipeline.chapters_processed := 0; Pipeline.chapters_packaged := 0;
                     Pipeline.files_created := []; Pipeline.r_skipped_chapters := 0;
                     Pipeline.r_skipped_external := 0; Pipeline.r_skipped_no_images := 0;
                     Pipeline.r_errors := 0 |}).
Proof. vm_compute. repeat split. Qed.

(** ** Traces: how the checks behave under appending *)

Lemma trace_emit es w : trace (emit es w) = trace w ++ es.
Proof. reflexivity. Qed.

Lemma count_app f tr1 tr2 :
  Trace.count f (tr1 ++ tr2) = Trace.count f tr1 + Trace.count f tr2.
Proof. unfold Trace.count. rewrite List.filter_app, length_app. reflexivity. Qed.

Lemma sent_within_app need tr1 : forall held tr2,
  Trace.sent_within need held (tr1 ++ tr2)
  = match Trace.sent_within need held tr1 with
    | Some held' => Trace.sent_within need held' tr2
    | None => None
    end.
Proof.
  induction tr1 as [| e tr1 IH]; intros held tr2; [reflexivity |].
  destruct e as [l | l | | |]; cbn [app Trace.sent_within].
  - destruct (existsb _ need); [apply IH | reflexivity].
  - destruct held as [| l' held]; [reflexivity |].
    destruct (Trace.same_limiter l l'); [apply IH | reflexivity].
  - destruct (Trace.same_windows held need); [apply IH | reflexivity].
  - apply IH.
  - apply IH.
Qed.

Lemma step_refl need {A} w (r : result A) : Trace.step need w r w.
Proof. exists [], []. rewrite app_nil_r. repeat split. Qed.

Lemma step_same need {A} w (r : result A) w' : trace w' = trace w -> Trace.step need w r w'.
Proof. intros H. exists [], []. rewrite app_nil_r. repeat split. exact H. Qed.

Lemma step_emit need {A} es w (r : result A) :
  Trace.sent_within need [] es = Some [] -> Trace.step need w r (emit es w).
Proof. intros H. exists es, []. repeat split. exact H. Qed.

Lemma step_trans need {A B} w (r1 : result A) w1 (r2 : result B) w2 :
  r1 <> Pending -> Trace.step need w r1 w1 -> Trace.step need w1 r2 w2 ->
  Trace.step need w r2 w2.
Proof.
  intros Hr (e1 & h1 & T1 & S1 & C1) (e2 & h2 & T2 & S2 & C2).
  rewrite (C1 Hr) in S1. exists (e1 ++ e2), h2.
  split; [rewrite T2, T1, app_assoc; reflexivity |].
  split; [rewrite sent_within_app, S1; exact S2 | exact C2].
Qed.

Lemma step_cast need {A B} w (r : result A) (r' : result B) w' :
  Trace.step need w r w' -> (r' <> Pending -> r <> Pending) -> Trace.step need w r' w'.
Proof.
  intros (es & held & T & S & C) Hr. exists es, held. repeat split; auto.
Qed.

Lemma step_any need {A B} w (a : A) (r : result B) w' :
  Trace.step need w (Ret a) w' -> Trace.step need w r w'.
Proof. intros H. eapply step_cast; [exact H | discriminate]. Qed.

(** ** The client *)

Lemma ensure_auth_trace w r w0 :
  Client._ensure_auth w = (r, w0) ->
  trace w0 = trace w \/ trace w0 = trace w ++ [POST Client.token_url "password"].
Proof.
  unfold Client._ensure_auth. intros H.
  repeat case_match; simplify_eq; cbn; auto.
Qed.

Lemma refresh_auth_trace w r w1 :
  Client._refresh_auth w = (r, w1) ->
  (trace w1 = trace w /\ (r = Ret false))
  \/ trace w1 = trace w ++ [POST Client.token_url "refresh_token"].
Proof.
  unfold Client._refresh_auth. intros H.
  repeat case_match; simplify_eq; cbn; auto.
Qed.

Lemma ensure_auth_step need w r w0 :
  Client._ensure_auth w = (r, w0) -> Trace.step need w (Ret tt) w0.
Proof.
  intros H. destruct (ensure_auth_trace _ _ _ H) as [E | E].
  - apply step_same, E.
  - exists [POST Client.token_url "password"], []. repeat split. exact E.
Qed.

Lemma refresh_auth_step need w r w1 :
  Client._refresh_auth w = (r, w1) -> Trace.step need w (Ret tt) w1.
Proof.
  intros H. destruct (refresh_auth_trace _ _ _ H) as [[E _] | E].
  - apply step_same, E.
  - exists [POST Client.token_url "refresh_token"], []. repeat split. exact E.
Qed.

Lemma dispatch_step {A} url params w :
  Trace.step [api_rps; api_rpm] w (@Pending A) (Client.dispatch url params w).
Proof.
  exists [Enter api_rpm; Enter api_rps; GET url params (authorization (self_client w))],
         [api_rps; api_rpm].
  repeat split. congruence.
Qed.

Lemma exchange_step url params w :
  Trace.step [api_rps; api_rpm] w (Ret tt) (Client.release (Client.dispatch url params w)).
Proof.
  exists ([Enter api_rpm; Enter api_rps; GET url params (authorization (self_client w))]
          ++ [Leave api_rps; Leave api_rpm]), [].
  repeat split. unfold Client.release, Client.dispatch. rewrite !trace_emit, <- app_assoc.
  reflexivity.
Qed.

Lemma sleep_step need d w : Trace.step need w (Ret tt) (emit [Sleep d] w).
Proof. apply step_emit. reflexivity. Qed.

(** Every [GET] that [_limited_get] sends is sent holding the per-minute
    block and, inside it, the per-second block; when the call comes back
    no block is held. *)
Lemma limited_get_step {F : PyFloat} {B} url params (api : list (outcome B)) :
  forall w r api' w',
    Client._limited_get url params api w = (r, api', w') ->
    Trace.step [api_rps; api_rpm] w r w'.
Proof.
  induction api as [| o api IH]; intros w r api' w' H; cbn in H.
  - destruct (Client._ensure_auth w) as [[[] | e |] w0] eqn:E;
      apply (ensure_auth_step [api_rps; api_rpm]) in E; simplify_eq.
    + eapply step_trans; [| exact E | apply dispatch_step]. discriminate.
    + eapply step_any, E.
    + eapply step_any, E.
  - destruct (Client._ensure_auth w) as [[[] | e |] w0] eqn:E;
      pose proof (ensure_auth_step [api_rps; api_rpm] _ _ _ E) as Hs0;
      [| simplify_eq; eapply step_any, Hs0 ..].
    pose proof (exchange_step url params w0) as Hs1.
    assert (Hs : Trace.step [api_rps; api_rpm] w (Ret tt)
                   (Client.release (Client.dispatch url params w0)))
      by (eapply step_trans; [| exact Hs0 | exact Hs1]; discriminate).
    clear Hs0 Hs1 E.
    destruct o as [r0 | e]; [| simplify_eq; eapply step_any, Hs].
    assert (Hsleep : forall d,
              Client._limited_get url params api
                (emit [Sleep d] (Client.release (Client.dispatch url params w0)))
              = (r, api', w') ->
              Trace.step [api_rps; api_rpm] w r w').
    { intros d H1. eapply step_trans; [| exact Hs |]; [discriminate |].
      eapply step_trans; [| apply (sleep_step _ d) | eapply IH; exact H1]. discriminate. }
    destruct (status_code r0 =? 429)%Z.
    { destruct (retry_delay r0) as [d | e |].
      - eapply Hsleep; exact H.
      - simplify_eq. eapply step_any, Hs.
      - simplify_eq. eapply step_any, Hs. }
    destruct ((500 <=? status_code r0)%Z && (status_code r0 <? 600)%Z).
    { eapply Hsleep; exact H. }
    destruct (status_code r0 =? 401)%Z.
    { destruct (Client._refresh_auth _) as [[[] | e |] w1] eqn:E1;
        pose proof (refresh_auth_step [api_rps; api_rpm] _ _ _ E1) as Hs2.
      - assert (Hs3 : Trace.step [api_rps; api_rpm] w (Ret tt) w1)
          by (eapply step_trans; [| exact Hs | exact Hs2]; discriminate).
        destruct api as [| [r2 | e2] api2].
        + simplify_eq. eapply step_trans; [| exact Hs3 | apply dispatch_step]. discriminate.
        + assert (Trace.step [api_rps; api_rpm] w (Ret tt)
                    (Client.release (Client.dispatch url params w1)))
            by (eapply step_trans; [| exact Hs3 | apply exchange_step]; discriminate).
          destruct (raise_for_status url r2); simplify_eq; eapply step_any; eassumption.
        + simplify_eq. eapply step_any.
          eapply step_trans; [| exact Hs3 | apply exchange_step]. discriminate.
      - assert (Hs3 : Trace.step [api_rps; api_rpm] w (Ret tt) w1)
          by (eapply step_trans; [| exact Hs | exact Hs2]; discriminate).
        destruct (raise_for_status url r0); simplify_eq; eapply step_any, Hs3.
      - simplify_eq. eapply step_any.
        eapply step_trans; [| exact Hs | exact Hs2]. discriminate.
      - simplify_eq. eapply step_any.
        eapply step_trans; [| exact Hs | exact Hs2]. discriminate. }
    destruct (raise_for_status url r0); simplify_eq; eapply step_any, Hs.
Qed.

Lemma get_json_step {F : PyFloat} {B} url params (api : list (outcome (option B))) w
    r api' w' :
  Client.get_json url params api w = (r, api', w') ->
  Trace.step [api_rps; api_rpm] w r w'.
Proof.
  unfold Client.get_json. intros H.
  destruct (Client._limited_get url params api w) as [[r0 a0] w0] eqn:E.
  apply limited_get_step in E.
  destruct r0 as [x | e |]; simplify_eq.
  - eapply step_any, E.
  - eapply step_cast; [exact E | discriminate].
  - eapply step_cast; [exact E | congruence].
Qed.

(** ** Image requests and the windows *)

Lemma image_get_step url w o w' :
  Acquire.image_get url w = (o, w') ->
  Trace.step [api_rps] w (match o with Some _ => Ret tt | None => Pending end) w'.
Proof.
  unfold Acquire.image_get. cbn [image_hosts emit].
  destruct (image_hosts w) as [| x rest]; intros H; simplify_eq.
  - exists [Enter api_rps; GET url [] (authorization (self_client w))], [api_rps].
    repeat split. congruence.
  - exists ([Enter api_rps; GET url [] (authorization (self_client w))] ++ [Leave api_rps]), [].
    repeat split. cbn [trace emit set_image_hosts]. rewrite <- app_assoc. reflexivity.
Qed.

Lemma fetch_image_step_windows {F : PyFloat} attempts url kind reg :
  forall p w r p' w',
    Acquire.fetch_image attempts url kind reg p w = (r, p', w') ->
    Trace.step [api_rps] w r w'.
Proof.
  induction attempts as [| attempt attempts IH]; intros p w r p' w' H; cbn in H.
  - simplify_eq. apply step_refl.
  - destruct (Acquire.image_get url w) as [[o |] w1] eqn:E;
      apply image_get_step in E; [| simplify_eq; exact E].
    repeat case_match;
      lazymatch goal with
      | H : Acquire.fetch_image _ _ _ _ _ (emit [Sleep ?d] w1) = _ |- _ =>
          eapply (step_trans _ _ (Ret tt)); [discriminate | exact E |];
          eapply (step_trans _ _ (Ret tt)); [discriminate | apply sleep_step |];
          eapply IH; exact H
      | H : Acquire.fetch_image _ _ _ _ _ w1 = _ |- _ =>
          eapply (step_trans _ _ (Ret tt)); [discriminate | exact E |];
          eapply IH; exact H
      | _ => simplify_eq; eapply step_any; exact E
      end.
Qed.

Lemma fetch_regular_image_step {F : PyFloat} attempts url :
  forall p w r p' w',
    Acquire.fetch_regular_image attempts url p w = (r, p', w') ->
    Trace.step [api_rps] w r w'.
Proof.
  induction attempts as [| attempt attempts IH]; intros p w r p' w' H; cbn in H.
  - simplify_eq. apply step_refl.
  - destruct (Acquire.image_get url w) as [[o |] w1] eqn:E;
      apply image_get_step in E; [| simplify_eq; exact E].
    repeat case_match;
      lazymatch goal with
      | H : Acquire.fetch_regular_image _ _ _ (emit [Sleep ?d] w1) = _ |- _ =>
          eapply (step_trans _ _ (Ret tt)); [discriminate | exact E |];
          eapply (step_trans _ _ (Ret tt)); [discriminate | apply sleep_step |];
          eapply IH; exact H
      | H : Acquire.fetch_regular_image _ _ _ w1 = _ |- _ =>
          eapply (step_trans _ _ (Ret tt)); [discriminate | exact E |];
          eapply IH; exact H
      | _ => simplify_eq; eapply step_any; exact E
      end.
Qed.

Lemma fetch_tier_step {F : PyFloat} imgs base kind hash reg :
  forall p w r p' w',
    Acquire.fetch_tier imgs base kind hash reg p w = (r, p', w') ->
    Trace.step [api_rps] w r w'.
Proof.
  induction imgs as [| img imgs IH]; intros p w r p' w' H; cbn [Acquire.fetch_tier] in H.
  - simplify_eq. apply step_refl.
  - destruct (Acquire.fetch_image _ _ _ _ _ _) as [[r1 p1] w1] eqn:E.
    apply fetch_image_step_windows in E.
    destruct r1; [| simplify_eq; exact E ..].
    destruct (Acquire.tripped p1 kind reg); [simplify_eq; eapply step_any; exact E |].
    eapply (step_trans _ _ (Ret a)); [discriminate | exact E |].
    eapply IH; exact H.
Qed.

Lemma fetch_regular_step {F : PyFloat} imgs base hash :
  forall p w r p' w',
    Acquire.fetch_regular imgs base hash p w = (r, p', w') ->
    Trace.step [api_rps] w r w'.
Proof.
  induction imgs as [| img imgs IH]; intros p w r p' w' H;
    cbn [Acquire.fetch_regular] in H.
  - simplify_eq. apply step_refl.
  - destruct (Acquire.fetch_regular_image _ _ _ _) as [[r1 p1] w1] eqn:E.
    apply fetch_regular_image_step in E.
    destruct r1; [| simplify_eq; exact E ..].
    eapply (step_trans _ _ (Ret a)); [discriminate | exact E |].
    eapply IH; exact H.
Qed.

Lemma fetch_chapter_step {F : PyFloat} base hash kind tier reg n w r w' :
  Acquire.fetch_chapter base hash kind tier reg n w = (r, w') ->
  Trace.step [api_rps] w r w'.
Proof.
  unfold Acquire.fetch_chapter.
  destruct (Acquire.fetch_tier _ _ _ _ _ _ _) as [[r1 p1] w1] eqn:E.
  apply fetch_tier_step in E.
  destruct r1 as [[] | e |];
    [| intros; simplify_eq; eapply step_cast; [exact E | congruence] ..].
  destruct (_ && _ && _).
  - destruct (Acquire.fetch_regular _ _ _ _ _) as [[r2 p2] w2] eqn:E2. intros H.
    eapply (step_trans _ _ (Ret tt)); [discriminate | exact E |].
    apply fetch_regular_step in E2.
    destruct r2 as [[] | e |];
      [| simplify_eq; eapply step_cast; [exact E2 | congruence] ..].
    destruct (nonempty _); simplify_eq; eapply step_any; exact E2.
  - intros; simplify_eq. eapply step_any; exact E.
Qed.

Lemma download_series_metadata_step series_dir md mid w r w' :
  Pipeline._download_series_metadata series_dir md mid w = (r, w') ->
  Trace.step [api_rps] w r w'.
Proof.
  unfold Pipeline._download_series_metadata, Pipeline.write_file. intros H.
  assert (G : forall url w2,
            trace w2 = trace w ++ [Enter api_rps; GET url [] None] ++ [Leave api_rps] ->
            Trace.step [api_rps] w r w2).
  { intros url w2 E. exists ([Enter api_rps; GET url [] None] ++ [Leave api_rps]), [].
    repeat split. exact E. }
  repeat case_match; simplify_eq;
    try (apply step_refl);
    try (apply step_same; reflexivity);
    try (eapply G; cbn [trace emit set_image_hosts set_files];
         rewrite <- ?app_assoc; reflexivity).
  eexists [Enter api_rps; GET _ [] None], [api_rps].
  repeat split. congruence.
Qed.

(** C4, the claim as stated, fails: the request for an image is sent
    inside the per-second block only. *)
Lemma image_request_outside_minute_window :
  ~ (forall (F : PyFloat) url kind reg p w,
       Trace.settled (trace w) ->
       Trace.both_windows false false
         (trace (snd (Acquire.fetch_image (seq 0 3) url kind reg p w))) = true).
Proof.
  intros H.
  specialize (H Examples.decimal "https://node/data/h/1.jpg" "data" []
                {| Acquire.image_bytes := []; Acquire.consecutive_400s := 0;
                   Acquire.errors := 0 |}
                (Examples.world_of Examples.token_client []
                   [Examples.answer 200 "OK" Examples.jpg] [])
                (conj eq_refl eq_refl)).
  vm_compute in H. discriminate H.
Qed.

(** C4, amended.  Whatever went before, the requests that go through
    [_limited_get] (title lookup, chapter discovery, image-source
    resolution) are each sent holding both windows, the per-minute one
    entered first and the per-second one inside it; the image requests of
    a chapter and the cover request are each sent holding the per-second
    window alone, and never enter the per-minute one.  In both cases no
    window is held once the call is over. *)
Theorem windows_by_request_path {F : PyFloat} (w : world) :
  (forall B url params (api : list (outcome B)),
     let '(r, _, w') := Client._limited_get url params api w in
     Trace.step [api_rps; api_rpm] w r w')
  /\ (forall mid api,
        let '(r, _, w') := Client.get_manga mid api w in
        Trace.step [api_rps; api_rpm] w r w')
  /\ (forall mid language limit offset api,
        let '(r, _, w') := Client.get_manga_chapters mid language limit offset api w in
        Trace.step [api_rps; api_rpm] w r w')
  /\ (forall chapter_id api,
        let '(r, _, w') := Client.get_at_home chapter_id api w in
        Trace.step [api_rps; api_rpm] w r w')
  /\ (forall base chapter_hash kind tier reg n,
        let '(r, w') := Acquire.fetch_chapter base chapter_hash kind tier reg n w in
        Trace.step [api_rps] w r w')
  /\ (forall series_dir md mid,
        let '(r, w') := Pipeline._download_series_metadata series_dir md mid w in
        Trace.step [api_rps] w r w').
Proof.
  split; [| split; [| split; [| split; [| split]]]].
  - intros B url params api.
    destruct (Client._limited_get url params api w) as [[r a] w'] eqn:E.
    eapply limited_get_step, E.
  - intros mid api.
    destruct (Client.get_manga mid api w) as [[r a] w'] eqn:E.
    eapply get_json_step, E.
  - intros mid lang lim off api.
    destruct (Client.get_manga_chapters mid lang lim off api w) as [[r a] w'] eqn:E.
    eapply get_json_step, E.
  - intros chapter_id api.
    destruct (Client.get_at_home chapter_id api w) as [[r a] w'] eqn:E.
    eapply get_json_step, E.
  - intros base chapter_hash kind tier reg n.
    destruct (Acquire.fetch_chapter base chapter_hash kind tier reg n w) as [r w'] eqn:E.
    eapply fetch_chapter_step, E.
  - intros series_dir md mid.
    destruct (Pipeline._download_series_metadata series_dir md mid w) as [r w'] eqn:E.
    eapply download_series_metadata_step, E.
Qed.

(** The at-home lookup of a second chapter, after the images of a first
    one were fetched, and the images that follow. *)
Lemma windows_by_request_path_witness :
  let w0 := Examples.world_of Examples.token_client []
              [Examples.answer 200 "OK" Examples.jpg; Examples.answer 200 "OK" Examples.jpg]
              [] in
  let w := snd (Acquire.fetch_chapter (F := Examples.decimal)
                  "https://node" "h" "data" ["1.jpg"] ["1.jpg"] 0 w0) in
  (let '(r, _, w') := Client.get_at_home (F := Examples.decimal) "c2"
                        [Examples.answer 200 "OK" None] w in
   Trace.step [api_rps; api_rpm] w r w')
  /\ (let '(r, w') := Acquire.fetch_chapter (F := Examples.decimal)
                        "https://node" "h" "data" ["1.jpg"] ["1.jpg"] 0 w in
      Trace.step [api_rps] w r w').
Proof.
  intros w0 w.
  destruct (windows_by_request_path (F := Examples.decimal) w) as (_ & _ & _ & H1 & H2 & _).
  split; [apply H1 | apply H2].
Defined.

(** ** Authorization failures *)










(** C9, the claim as stated, fails: when the refresh exchange itself
    fails (here the connection to the auth server), the caller gets that
    failure and not the 401. *)
Lemma refresh_error_replaces_the_401 :
  ~ (forall (F : PyFloat) (url : string) (params : list (string * string))
            (r : response Z) (rest : list (outcome Z)) (w : world) (e : exn) (w1 : world),
       status_code r = 401%Z ->
       Client._refresh_auth
         (Client.release (Client.dispatch url params (snd (Client._ensure_auth w))))
       = (Raise e, w1) ->
       exists t, fst (fst (Client._limited_get url params (Responds r :: rest) w))
                 = Raise (HTTPStatusError 401 t)).
Proof.
  intros H.
  destruct (H Examples.decimal "https://api.mangadex.org/at-home/server/c1" []
              {| status_code := 401; reason_phrase := "Unauthorized";
                 retry_after := None; body := 0%Z |} []
              (Examples.world_of Examples.session_client
                 [Fails (TransportError "boom")] [] [])
              _ _ eq_refl eq_refl) as [t Ht].
  vm_compute in Ht. discriminate Ht.
Qed.

(** ** Chapter discovery *)

Lemma limited_get_length {F : PyFloat} {B} url params (api : list (outcome B)) :
  forall w r api' w',
    Client._limited_get url params api w = (r, api', w') ->
    length api' <= length api
    /\ (forall x, r = Ret x -> length api' < length api).
Proof.
  induction api as [| o api IH]; intros w r api' w' H; cbn in H.
  - repeat case_match; simplify_eq; (split; [lia | discriminate]).
  - repeat case_match; simplify_eq; cbn;
      try match goal with
      | H : Client._limited_get _ _ _ _ = _ |- _ => apply IH in H; destruct H
      end; split; intros; simplify_eq; lia.
Qed.

Lemma get_manga_chapters_length {F : PyFloat} mid lang lim off api w r api' w' :
  Client.get_manga_chapters mid lang lim off api w = (r, api', w') ->
  length api' <= length api
  /\ (forall pg, r = Ret pg -> length api' < length api).
Proof.
  unfold Client.get_manga_chapters, Client.get_json.
  destruct (Client._limited_get _ _ api w) as [[[x | e |] a] w1] eqn:E; intros H;
    simplify_eq; apply limited_get_length in E; destruct E as [E1 E2];
    (split; [exact E1 |]); intros; simplify_eq.
  eapply E2; reflexivity.
Qed.

Lemma fetch_page_shorter {F : PyFloat} mid lang st api w pg lim api' w' :
  Discovery.fetch_page mid lang st api w = (Ret pg, lim, api', w') ->
  nonempty (pg_data pg) = true ->
  length api' < length api.
Proof.
  unfold Discovery.fetch_page. intros H Hne.
  destruct (Client.get_manga_chapters mid lang (Discovery.limit st) (Discovery.offset st) api w)
    as [[r1 api1] w1] eqn:E1.
  apply get_manga_chapters_length in E1. destruct E1 as [L1 S1].
  destruct r1 as [pg1 | e |].
  - simplify_eq. eapply S1; reflexivity.
  - destruct e; simplify_eq.
    destruct (_ && _); [| simplify_eq; discriminate].
    destruct (Client.get_manga_chapters mid lang Discovery.fallback_limit _ api1 w1)
      as [[r2 api2] w2] eqn:E2.
    apply get_manga_chapters_length in E2. destruct E2 as [L2 S2].
    destruct r2 as [pg2 | e2 |].
    + simplify_eq. specialize (S2 _ eq_refl). lia.
    + destruct e2; simplify_eq; discriminate.
    + simplify_eq.
  - simplify_eq.
Qed.

(** The loop never needs more rounds than the API has answers, plus one. *)
Lemma listing_loop_enough {F : PyFloat} mid lang :
  forall n m st api w,
    length api < n -> length api < m ->
    Discovery.listing_loop mid lang n st api w = Discovery.listing_loop mid lang m st api w
    /\ Discovery.listing_loop mid lang n st api w <> None.
Proof.
  induction n as [| n IH]; intros m st api w Hn Hm; [lia |].
  destruct m as [| m]; [lia |]. cbn [Discovery.listing_loop].
  destruct (Discovery.fetch_page mid lang st api w) as [[[r lim] api1] w1] eqn:E.
  destruct r as [pg | e |]; [| split; [reflexivity | discriminate] ..].
  destruct (nonempty (pg_data pg)) eqn:Hne; cbn [negb];
    [| split; [reflexivity | discriminate]].
  destruct (_ <=? _)%Z; [split; [reflexivity | discriminate] |].
  pose proof (fetch_page_shorter _ _ _ _ _ _ _ _ _ E Hne).
  apply IH; lia.
Qed.

Lemma list_from_total {F : PyFloat} mid lang st api w :
  Discovery.listing_loop mid lang (S (length api)) st api w <> None.
Proof. apply (listing_loop_enough mid lang (S (length api)) (S (length api))); lia. Qed.

(** C8. Discovery never raises: an HTTP error other than a 400 at the
    large page size ends it with the chapters accumulated so far; a 400 at
    the large page size is followed by exactly one request at the fallback
    size from the same offset, and if that one fails too discovery ends
    with the chapters accumulated so far, while an answer lets it go on at
    the fallback size. *)
Theorem discovery_absorbs_http_errors {F : PyFloat} (mid lang : string)
    (st : Discovery.listing) (api : Discovery.api_script) (w : world) :
  (forall e, fst (fst (Discovery.list_from mid lang st api w)) <> Raise e)
  /\ (forall status t api1 w1,
        Client.get_manga_chapters mid lang (Discovery.limit st) (Discovery.offset st) api w
        = (Raise (HTTPStatusError status t), api1, w1) ->
        status <> 400%Z \/ Discovery.limit st = Discovery.fallback_limit ->
        Discovery.list_from mid lang st api w = (Ret (Discovery.found st), api1, w1))
  /\ (forall t api1 w1,
        Client.get_manga_chapters mid lang (Discovery.limit st) (Discovery.offset st) api w
        = (Raise (HTTPStatusError 400 t), api1, w1) ->
        Discovery.limit st <> Discovery.fallback_limit ->
        Discovery.list_from mid lang st api w
        = match Client.get_manga_chapters mid lang Discovery.fallback_limit
                  (Discovery.offset st) api1 w1 with
          | (Raise _, api2, w2) => (Ret (Discovery.found st), api2, w2)
          | (Pending, api2, w2) => (Pending, api2, w2)
          | (Ret pg, api2, w2) =>
              let batch := pg_data pg in
              let offset' := (Discovery.offset st + Z.of_nat (length batch))%Z in
              if negb (nonempty batch) then (Ret (Discovery.found st), api2, w2)
              else if (default 0 (pg_total pg) <=? offset')%Z
              then (Ret (Discovery.found st ++ batch), api2, w2)
              else Discovery.list_from mid lang
                     {| Discovery.found := Discovery.found st ++ batch;
                        Discovery.offset := offset';
                        Discovery.limit := Discovery.fallback_limit |} api2 w2
          end).
Proof.
  split; [| split].
  - intros e. unfold Discovery.list_from.
    destruct (Discovery.listing_loop _ _ _ _ _ _) as [[[[[r | e' |] st'] api'] w'] |];
      discriminate.
  - intros status t api1 w1 E Hs. unfold Discovery.list_from.
    cbn [Discovery.listing_loop]. unfold Discovery.fetch_page. rewrite E.
    replace ((status =? 400)%Z && negb (Discovery.limit st =? Discovery.fallback_limit)%Z)
      with false.
    + reflexivity.
    + symmetry. apply andb_false_iff. destruct Hs as [Hs | Hs].
      * left. apply Z.eqb_neq, Hs.
      * right. rewrite Hs, Z.eqb_refl. reflexivity.
  - intros t api1 w1 E Hl. unfold Discovery.list_from at 1.
    cbn [Discovery.listing_loop]. unfold Discovery.fetch_page. rewrite E.
    replace ((400 =? 400)%Z && negb (Discovery.limit st =? Discovery.fallback_limit)%Z)
      with true
      by (symmetry; apply andb_true_iff; split; [reflexivity |];
          apply negb_true_iff, Z.eqb_neq, Hl).
    apply get_manga_chapters_length in E. destruct E as [L1 _].
    destruct (Client.get_manga_chapters mid lang Discovery.fallback_limit _ api1 w1)
      as [[[pg | e |] api2] w2] eqn:E2.
    + apply get_manga_chapters_length in E2. destruct E2 as [_ S2].
      specialize (S2 _ eq_refl). cbn zeta.
      destruct (negb (nonempty (pg_data pg))); [reflexivity |].
      cbn [Discovery.found Discovery.offset Discovery.limit].
      destruct (_ <=? _)%Z; [reflexivity |].
      unfold Discovery.list_from.
      destruct (listing_loop_enough mid lang (length api) (S (length api2))
                  {| Discovery.found := Discovery.found st ++ pg_data pg;
                     Discovery.offset := Discovery.offset st + Z.of_nat (length (pg_data pg));
                     Discovery.limit := Discovery.fallback_limit |} api2 w2) as [Heq Hsome];
        [lia | lia |].
      rewrite Heq in Hsome |- *. clear Heq.
      match goal with
      | |- context [Discovery.listing_loop ?a ?b ?c ?d ?e ?f] =>
          destruct (Discovery.listing_loop a b c d e f)
      end; [reflexivity | contradiction].
    + destruct e; reflexivity.
    + reflexivity.
Qed.

Lemma discovery_absorbs_http_errors_witness :
  let w := Examples.world_of Examples.token_client [] [] [] in
  let st := {| Discovery.found := [Examples.ch "a" None (Some "1")];
               Discovery.offset := 1; Discovery.limit := 500 |} in
  let api := [Examples.answer 400 "Bad Request" None;
              Examples.answer 400 "Bad Request" None] in
  let '(r, api', w') := Discovery.list_from (F := Examples.decimal) "m1" "en" st api w in
  r = Ret [Examples.ch "a" None (Some "1")]
  /\ api' = []
  /\ omap (fun e => match e with
                    | GET _ params _ => Some (Paths.get "limit" params, Paths.get "offset" params)
                    | _ => None
                    end) (trace w')
     = [(Some "500", Some "1"); (Some "100", Some "1")].
Proof.
  intros w st api.
  destruct (discovery_absorbs_http_errors (F := Examples.decimal) "m1" "en" st api w)
    as (_ & _ & H).
  erewrite H; [| reflexivity | discriminate].
  vm_compute. repeat split.
Defined.

(** ** The three attempts on an image *)

Lemma retry_delay_returns {F : PyFloat} {B} (r : response B) : retry_delay r <> Pending.
Proof. unfold retry_delay. repeat case_match; discriminate. Qed.

(** C2, the claim as stated, fails: were a 429 answer free of charge, any
    number of them followed by a good answer would give the image; after
    three of them the image is dropped, the good answer never asked for. *)
Lemma throttling_consumes_attempts :
  ~ (forall (n : nat) (w : world),
       image_hosts w = repeat (Examples.throttled None []) n
                       ++ [Examples.answer 200 "OK" Examples.jpg] ->
       Acquire.image_bytes
         (snd (fst (Acquire.fetch_image (F := Examples.decimal) (seq 0 3)
                      "https://node/data/h/1.jpg" "data" [] Examples.fresh w)))
       = [Examples.jpg]).
Proof.
  intros H.
  specialize (H 3 (Examples.world_of Examples.token_client []
                     (repeat (Examples.throttled None []) 3
                      ++ [Examples.answer 200 "OK" Examples.jpg]) []) eq_refl).
  vm_compute in H. discriminate H.
Qed.

Lemma fetch_image_bounds {F : PyFloat} attempts url kind reg :
  forall p w r p' w',
    Acquire.fetch_image attempts url kind reg p w = (r, p', w') ->
    Trace.count Trace.is_get (trace w') <= Trace.count Trace.is_get (trace w) + length attempts
    /\ length (image_hosts w') <= length (image_hosts w)
    /\ length (image_hosts w) <= length (image_hosts w') + length attempts.
Proof.
  induction attempts as [| attempt attempts IH]; intros p w r p' w' H; cbn in H.
  - simplify_eq. lia.
  - unfold Acquire.image_get in H. cbn [image_hosts emit] in H.
    destruct (image_hosts w) as [| o rest] eqn:Eh.
    + simplify_eq. cbn [trace image_hosts emit length]. rewrite ?Eh, count_app. cbn. lia.
    + repeat case_match; simplify_eq;
        try match goal with
        | H : Acquire.fetch_image _ _ _ _ _ _ = _ |- _ => apply IH in H; revert H
        end;
        cbn [trace image_hosts emit set_image_hosts length];
        rewrite ?Eh, <- ?app_assoc, ?count_app; cbn; lia.
Qed.

Lemma fetch_image_errors {F : PyFloat} attempts url kind reg :
  forall p w r p' w',
    NoDup attempts ->
    Acquire.fetch_image attempts url kind reg p w = (r, p', w') ->
    Acquire.errors p <= Acquire.errors p'
    /\ Acquire.errors p' <= Acquire.errors p + (if decide (2 ∈ attempts) then 1 else 0).
Proof.
  induction attempts as [| attempt attempts IH]; intros p w r p' w' Hnd H; cbn in H.
  - simplify_eq. case_decide; lia.
  - inversion Hnd as [| ? ? Hnotin Hnd']; subst.
    destruct (Acquire.image_get url w) as [[o |] w1]; [| simplify_eq; case_decide; lia].
    assert (Hlater : forall q w2 r2 q' w2',
              Acquire.fetch_image attempts url kind reg q w2 = (r2, q', w2') ->
              Acquire.errors q <= Acquire.errors q'
              /\ Acquire.errors q' <= Acquire.errors q + (if decide (2 ∈ attempts) then 1 else 0))
      by (intros; eapply IH; eauto).
    destruct (attempt =? 2)%nat eqn:Ea.
    + apply Nat.eqb_eq in Ea. subst attempt.
      assert (Hn : 2 ∉ attempts) by exact Hnotin.
      rewrite (decide_True (P := 2 ∈ 2 :: attempts)) by (left).
      repeat case_match; simplify_eq; cbn; try lia; try contradiction;
        match goal with
        | H : Acquire.fetch_image _ _ _ _ _ _ = _ |- _ =>
            apply Hlater in H; cbn in H; lia
        end.
    + apply Nat.eqb_neq in Ea.
      assert (Hiff : (if decide (2 ∈ attempt :: attempts) then 1 else 0)
                     = (if decide (2 ∈ attempts) then 1 else 0)).
      { clear - Ea. repeat case_decide; try reflexivity; exfalso;
          match goal with
          | H : 2 ∈ _ :: _, H' : ¬ 2 ∈ _ |- _ =>
              apply elem_of_cons in H; destruct H; [congruence | contradiction]
          | H : ¬ 2 ∈ _ :: _, H' : 2 ∈ _ |- _ => apply H; right; exact H'
          end. }
      rewrite Hiff.
      repeat case_match; simplify_eq; cbn; try lia; try contradiction;
        match goal with
        | H : Acquire.fetch_image _ _ _ _ _ _ = _ |- _ => apply Hlater in H; cbn in H; lia
        end.
Qed.

(** A 429 answer ends the [try] block in a sleep for the delay the server
    names, for 2 seconds when it names none; a delay that [float] cannot
    read sends the attempt to the [except] clause instead. *)
Lemma throttled_delay {F : PyFloat} url (r : response bytes) :
  status_code r = 429%Z ->
  Acquire.judge url (Responds r)
  = match retry_after r with
    | None => Acquire.Throttled (Fixed 2)
    | Some h =>
        match float_of_str h with
        | Some _ => Acquire.Throttled (RetryAfter h)
        | None => Acquire.Failed
                    (ValueError ("could not convert string to float: '" ++ h ++ "'"))
        end
    end.
Proof.
  intros Hs. unfold Acquire.judge, retry_delay. rewrite Hs. cbn [Z.eqb Pos.eqb].
  destruct (retry_after r) as [h |]; [| reflexivity].
  destruct (float_of_str h); reflexivity.
Qed.

(** One attempt, by the way its [try] block ends. *)
Lemma fetch_image_step {F : PyFloat} attempt attempts url kind reg p w o rest :
  image_hosts w = o :: rest ->
  Acquire.fetch_image (attempt :: attempts) url kind reg p w
  = let w1 := emit [Leave api_rps]
                (set_image_hosts rest
                   (emit [Enter api_rps; GET url [] (authorization (self_client w))] w)) in
    match Acquire.judge url o with
    | Acquire.Stored c =>
        (Ret tt, {| Acquire.image_bytes := Acquire.image_bytes p ++ [c];
                    Acquire.consecutive_400s := 0;
                    Acquire.errors := Acquire.errors p |}, w1)
    | Acquire.Throttled d =>
        Acquire.fetch_image attempts url kind reg p (emit [Sleep d] w1)
    | Acquire.Failed e =>
        if (attempt =? 2)%nat then
          if Acquire.contains "400" (str e) then
            if Acquire.tripped
                 {| Acquire.image_bytes := Acquire.image_bytes p;
                    Acquire.consecutive_400s := Acquire.consecutive_400s p + 1;
                    Acquire.errors := Acquire.errors p + 1 |} kind reg
            then (Ret tt, {| Acquire.image_bytes := Acquire.image_bytes p;
                             Acquire.consecutive_400s := Acquire.consecutive_400s p + 1;
                             Acquire.errors := Acquire.errors p + 1 |}, w1)
            else Acquire.fetch_image attempts url kind reg
                   {| Acquire.image_bytes := Acquire.image_bytes p;
                      Acquire.consecutive_400s := Acquire.consecutive_400s p + 1;
                      Acquire.errors := Acquire.errors p + 1 |} w1
          else Acquire.fetch_image attempts url kind reg
                 {| Acquire.image_bytes := Acquire.image_bytes p;
                    Acquire.consecutive_400s := Acquire.consecutive_400s p;
                    Acquire.errors := Acquire.errors p + 1 |} w1
        else Acquire.fetch_image attempts url kind reg p (emit [Sleep (Fixed 1)] w1)
    end.
Proof.
  intros Hh. cbn [Acquire.fetch_image]. unfold Acquire.image_get, Acquire.judge.
  cbn [image_hosts emit]. rewrite Hh. cbn zeta.
  destruct o as [r | e]; [| reflexivity].
  destruct (status_code r =? 429)%Z; [| destruct (raise_for_status url r); reflexivity].
  pose proof (retry_delay_returns r). destruct (retry_delay r); [reflexivity .. | contradiction].
Qed.

Lemma fetch_image_grows {F : PyFloat} attempts url kind reg :
  forall p w r p' w',
    Acquire.fetch_image attempts url kind reg p w = (r, p', w') ->
    exists es, trace w' = trace w ++ es.
Proof.
  induction attempts as [| attempt attempts IH]; intros p w r p' w' H.
  - cbn in H. simplify_eq. exists []. rewrite app_nil_r. reflexivity.
  - destruct (image_hosts w) as [| o rest] eqn:Hh.
    + cbn in H. unfold Acquire.image_get in H. cbn [image_hosts emit] in H.
      rewrite Hh in H. simplify_eq. eexists. reflexivity.
    + rewrite (fetch_image_step _ _ _ _ _ _ _ _ _ Hh) in H. cbn zeta in H.
      repeat case_match; simplify_eq;
        try match goal with
        | H : Acquire.fetch_image _ _ _ _ _ _ = _ |- _ =>
            apply IH in H; destruct H as [es Hes]; rewrite Hes
        end;
        cbn [trace emit set_image_hosts]; rewrite <- ?app_assoc; eexists; reflexivity.
Qed.

(** C2, amended.  An image gets at most three requests, whatever the
    answers.  A 429 answer makes the loop sleep (for the delay the server
    names, 2 seconds when it names none) and go on with the next attempt:
    it uses up one of the three attempts exactly as a failure does.  The
    image is stored at the first good answer among the three; otherwise it
    is dropped, and counted as an error when the third attempt fails. *)
Theorem three_attempts_per_image {F : PyFloat} (url kind : string) (reg : list string)
    (p : Acquire.pass) (w : world) :
  let '(r, p', w') := Acquire.fetch_image (seq 0 3) url kind reg p w in
  (Trace.count Trace.is_get (trace w') <= Trace.count Trace.is_get (trace w) + 3
   /\ Acquire.errors p <= Acquire.errors p' <= Acquire.errors p + 1)
  /\ (forall o1 o2 o3 rest,
        image_hosts w = o1 :: o2 :: o3 :: rest ->
        r = Ret tt
        /\ (forall d, Acquire.judge url o1 = Acquire.Throttled d ->
              In (Sleep d) (trace w') /\ length (image_hosts w') <= length (o3 :: rest))
        /\ match Acquire.judge url o1, Acquire.judge url o2, Acquire.judge url o3 with
           | Acquire.Stored c, _, _ =>
               image_hosts w' = o2 :: o3 :: rest
               /\ Acquire.image_bytes p' = Acquire.image_bytes p ++ [c]
               /\ Acquire.errors p' = Acquire.errors p
           | _, Acquire.Stored c, _ =>
               image_hosts w' = o3 :: rest
               /\ Acquire.image_bytes p' = Acquire.image_bytes p ++ [c]
               /\ Acquire.errors p' = Acquire.errors p
           | _, _, Acquire.Stored c =>
               image_hosts w' = rest
               /\ Acquire.image_bytes p' = Acquire.image_bytes p ++ [c]
               /\ Acquire.errors p' = Acquire.errors p
           | _, _, Acquire.Throttled _ =>
               image_hosts w' = rest
               /\ Acquire.image_bytes p' = Acquire.image_bytes p
               /\ Acquire.errors p' = Acquire.errors p
           | _, _, Acquire.Failed _ =>
               image_hosts w' = rest
               /\ Acquire.image_bytes p' = Acquire.image_bytes p
               /\ Acquire.errors p' = Acquire.errors p + 1
           end).
Proof.
  destruct (Acquire.fetch_image (seq 0 3) url kind reg p w) as [[r p'] w'] eqn:E.
  split.
  - split.
    + apply fetch_image_bounds in E. cbn in E. lia.
    + apply fetch_image_errors in E; [| apply NoDup_seq].
      case_decide; lia.
  - intros o1 o2 o3 rest Hh. change (seq 0 3) with [0; 1; 2] in E.
    rewrite (fetch_image_step _ _ _ _ _ _ _ _ _ Hh) in E. cbn zeta in E.
    assert (Hsleep : forall d q w2,
              Acquire.fetch_image [1; 2] url kind reg q
                (emit [Sleep d] (emit [Leave api_rps] (set_image_hosts (o2 :: o3 :: rest) w2)))
              = (r, p', w') ->
              In (Sleep d) (trace w') /\ length (image_hosts w') <= length (o3 :: rest)).
    { intros d q w2 E2. split.
      - apply fetch_image_grows in E2. destruct E2 as [es ->].
        cbn [trace emit set_image_hosts]. rewrite !in_app_iff. left. right. left. reflexivity.
      - erewrite fetch_image_step in E2 by reflexivity.
        cbn zeta in E2.
        repeat case_match; simplify_eq;
          try match goal with
          | H : Acquire.fetch_image _ _ _ _ _ _ = _ |- _ => apply fetch_image_bounds in H; revert H
          end; cbn [image_hosts emit set_image_hosts length]; lia. }
    destruct (Acquire.judge url o1) as [c1 | d1 | e1] eqn:J1.
    + simplify_eq. cbn [image_hosts emit set_image_hosts Acquire.image_bytes Acquire.errors].
      repeat split. intros; discriminate. intros; discriminate.
    + split; [| split; [intros d Hd; simplify_eq; eapply Hsleep; exact E |]];
        clear Hsleep;
        erewrite fetch_image_step in E by reflexivity; cbn zeta in E;
        (destruct (Acquire.judge url o2) as [c2 | d2 | e2] eqn:J2;
         [ simplify_eq; cbn [image_hosts emit set_image_hosts Acquire.image_bytes
                               Acquire.errors]; repeat split
         | erewrite fetch_image_step in E by reflexivity; cbn zeta in E
         | cbn [Nat.eqb] in E;
           erewrite fetch_image_step in E by reflexivity; cbn zeta in E ]);
        try (destruct (Acquire.judge url o3) as [c3 | d3 | e3] eqn:J3;
             cbn [Nat.eqb Acquire.fetch_image] in E;
             repeat case_match; simplify_eq;
             cbn [image_hosts emit set_image_hosts Acquire.image_bytes Acquire.errors];
             repeat split).
    + split; [| split; [intros d Hd; discriminate |]];
        clear Hsleep; cbn [Nat.eqb] in E;
        erewrite fetch_image_step in E by reflexivity; cbn zeta in E;
        (destruct (Acquire.judge url o2) as [c2 | d2 | e2] eqn:J2;
         [ simplify_eq; cbn [image_hosts emit set_image_hosts Acquire.image_bytes
                               Acquire.errors]; repeat split
         | erewrite fetch_image_step in E by reflexivity; cbn zeta in E
         | cbn [Nat.eqb] in E;
           erewrite fetch_image_step in E by reflexivity; cbn zeta in E ]);
        try (destruct (Acquire.judge url o3) as [c3 | d3 | e3] eqn:J3;
             cbn [Nat.eqb Acquire.fetch_image] in E;
             repeat case_match; simplify_eq;
             cbn [image_hosts emit set_image_hosts Acquire.image_bytes Acquire.errors];
             repeat split).
Qed.

Lemma three_attempts_per_image_witness :
  let w := Examples.world_of Examples.token_client []
             [Examples.throttled (Some "5") []; Examples.answer 404 "Not Found" [];
              Examples.answer 200 "OK" Examples.jpg; Examples.answer 200 "OK" Examples.png] [] in
  let '(r, p', w') :=
    Acquire.fetch_image (F := Examples.decimal) (seq 0 3) "https://node/data/h/1.jpg"
      "data" [] Examples.fresh w in
  r = Ret tt
  /\ In (Sleep (RetryAfter "5")) (trace w')
  /\ image_hosts w' = [Examples.answer 200 "OK" Examples.png]
  /\ Acquire.image_bytes p' = [Examples.jpg]
  /\ Acquire.errors p' = 0.
Proof.
  intros w.
  pose proof (three_attempts_per_image (F := Examples.decimal) "https://node/data/h/1.jpg"
                "data" [] Examples.fresh w) as H.
  destruct (Acquire.fetch_image _ _ _ _ _ _) as [[r p'] w'].
  destruct H as [_ H].
  specialize (H _ _ _ _ eq_refl). destruct H as (H1 & H2 & H3).
  specialize (H2 _ eq_refl). vm_compute in H3.
  destruct H2 as [H2 _]. destruct H3 as (H3 & H4 & H5).
  repeat split; assumption.
Defined.

(** ** The fallback to full-quality images *)

(** When the first pass on the data-saver tier stores nothing and a
    full-quality tier exists, the whole fetch is done again on the
    full-quality tier; if that stores an image, the counter goes back to
    [errors_before], its value at the end of the first pass. *)
Lemma fallback_counter {F : PyFloat} base chapter_hash tier reg n w p w1 q w2 :
  Acquire.fetch_tier tier base "data-saver" chapter_hash reg
    {| Acquire.image_bytes := []; Acquire.consecutive_400s := 0; Acquire.errors := n |} w
  = (Ret tt, p, w1) ->
  Acquire.image_bytes p = [] ->
  nonempty reg = true ->
  Acquire.fetch_regular reg base chapter_hash
    {| Acquire.image_bytes := []; Acquire.consecutive_400s := Acquire.consecutive_400s p;
       Acquire.errors := Acquire.errors p |} w1
  = (Ret tt, q, w2) ->
  nonempty (Acquire.image_bytes q) = true ->
  Acquire.fetch_chapter base chapter_hash "data-saver" tier reg n w
  = (Ret (Acquire.image_bytes q, Acquire.errors p), w2).
Proof.
  intros E1 Hnone Hreg E2 Hsome. unfold Acquire.fetch_chapter.
  rewrite E1, Hnone, Hreg. cbn [nonempty negb andb String.eqb].
  replace ("data-saver" =? "data-saver")%string with true by reflexivity.
  cbn [andb]. rewrite E2, Hsome. reflexivity.
Qed.

(** C3 (evaluation at the failing input).  The data-saver image fails
    on its three attempts, the full-quality image is fetched at once: the
    chapter has its image, and the error of the abandoned pass is still in
    the counter. *)
Theorem fallback_keeps_abandoned_errors :
  let w := Examples.world_of Examples.token_client [] Examples.saver_gone [] in
  fst (Acquire.fetch_chapter (F := Examples.decimal) "https://node" "h" "data-saver"
         (dataSaver Examples.two_tiers) (data Examples.two_tiers) 0 w)
  = Ret ([Examples.jpg], 1)
  /\ (let '(r, _, w') :=
        Pipeline.process_job (F := Examples.decimal) (P := Examples.all_jpeg) (U := Examples.unicode)
          Examples.manager0 (Examples.job_of None (Some ["1"])) Examples.two_chapter_apis w in
      r = Ret {| Pipeline.chapters_processed := 1; Pipeline.chapters_packaged := 1;
                 Pipeline.files_created := ["/library/m1/c1.cbz"];
                 Pipeline.r_skipped_chapters := 0; Pipeline.r_skipped_external := 0;
                 Pipeline.r_skipped_no_images := 0; Pipeline.r_errors := 1 |}
      /\ files w' !! "/library/m1/c1.cbz" = Some (Zip [("001.jpg", Raw Examples.jpg)])).
Proof. vm_compute. repeat split. Qed.

(** ** Archive packaging *)












(** C5, the claim as stated, fails: when an archive is already at the
    final path (the chapter was packaged before), a failed entry write
    leaves that file there. *)
Lemma earlier_archive_outlives_failed_write :
  ~ (forall (work_dir series_dir chapter_id name : string)
            (todo : list (string * entry_data)) (w : world) e zf faults,
       Packager.write_entries todo [] (disk_faults w) = (Raise e, zf, faults) ->
       files (snd (Packager.package (Paths.join work_dir (chapter_id ++ ".cbz.tmp"))
                     (Paths.join series_dir (name ++ ".cbz")) todo w))
         !! Paths.join series_dir (name ++ ".cbz") = None).
Proof.
  intros H.
  specialize (H "/app/data" "/library/m1" "c1" "c1" [("001.jpg", Raw Examples.jpg)]
                (Pipeline.write_file "/library/m1/c1.cbz" (Zip [])
                   (Pipeline.write_file "/library/m1" Directory
                      (Examples.world_of Examples.token_client [] [] [true])))
                _ _ _ eq_refl).
  vm_compute in H. discriminate H.
Qed.

(** The entries of a chapter's archive: the metadata document, when there
    is one, comes first; the images follow, numbered from 001. *)
Lemma entries_order {P : Pillow} doc (images : list bytes) :
  Packager.entries (Some doc) images
  = ("ComicInfo.xml", Doc doc)
    :: imap (fun i content => ((Paths.pad3 (S i) ++ ".jpg")%string,
                               Raw (Packager.normalize content))) images
  /\ length (Packager.entries None images) = length images.
Proof.
  split; [reflexivity |]. unfold Packager.entries. cbn [app].
  apply length_imap.
Qed.



(** ** The counters of a job *)

Lemma package_chapter_counts {F : PyFloat} {P : Pillow} {U : PyUnicode} self mid title md c chapter_id
    images k w k' w' :
  Pipeline.package_chapter self mid title md c chapter_id images k w = (Ret k', w') ->
  (exists path, Pipeline.created_files k' = Pipeline.created_files k ++ [path])
  /\ Pipeline.skipped_chapters k' = Pipeline.skipped_chapters k
  /\ Pipeline.skipped_external k' = Pipeline.skipped_external k
  /\ Pipeline.skipped_no_images k' = Pipeline.skipped_no_images k
  /\ Pipeline.errors k' = Pipeline.errors k.
Proof.
  unfold Pipeline.package_chapter. intros H.
  repeat case_match; simplify_eq; cbn; eauto 10.
Qed.

(** A chapter of the loop is counted once: as a new archive path, or as
    one more skip. *)
Lemma process_chapter_counts {F : PyFloat} {P : Pillow} {U : PyUnicode} self mid title md c k api w k' api' w' :
  Pipeline.process_chapter self mid title md c k api w = (Ret k', api', w') ->
  ((exists path, Pipeline.created_files k' = Pipeline.created_files k ++ [path])
   /\ Pipeline.skipped_chapters k' = Pipeline.skipped_chapters k
   /\ Pipeline.skipped_external k' = Pipeline.skipped_external k
   /\ Pipeline.skipped_no_images k' = Pipeline.skipped_no_images k)
  \/ (Pipeline.created_files k' = Pipeline.created_files k
      /\ Pipeline.skipped_chapters k' = Pipeline.skipped_chapters k + 1
      /\ Pipeline.skipped_external k' + Pipeline.skipped_no_images k'
         <= Pipeline.skipped_external k + Pipeline.skipped_no_images k + 1).
Proof.
  unfold Pipeline.process_chapter. intros H.
  repeat case_match; simplify_eq;
    try (right; cbn; repeat split; lia).
  left.
  match goal with
  | H : Pipeline.package_chapter _ _ _ _ _ _ _ _ _ = _ |- _ =>
      apply package_chapter_counts in H; cbn in H;
      destruct H as (Hfiles & Hskip & Hext & Hnone & _)
  end.
  auto.
Qed.

Lemma chapter_loop_counts {F : PyFloat} {P : Pillow} {U : PyUnicode} self mid title md chs :
  forall n k api w k' api' w',
    Pipeline.chapter_loop self mid title md chs k api w = (Ret k', api', w') ->
    Pipeline.accounted n k ->
    Pipeline.accounted (n + length chs) k'.
Proof.
  induction chs as [| c chs IH]; intros n k api w k' api' w' H Hk; cbn in H.
  - simplify_eq. cbn. rewrite Nat.add_0_r. exact Hk.
  - destruct (Pipeline.process_chapter self mid title md c k api w) as [[[k1 | e |] api1] w1] eqn:E;
      simplify_eq.
    apply (IH (S n)) in H.
    + cbn [length]. replace (n + S (length chs)) with (S n + length chs) by lia. exact H.
    + apply process_chapter_counts in E. destruct Hk as [Hk1 Hk2]. unfold Pipeline.accounted.
      destruct E as [([path Hp] & E2 & E3 & E4) | (E1 & E2 & E3)].
      * rewrite Hp, length_app, E2, E3, E4. cbn. lia.
      * rewrite E1, E2. lia.
Qed.

(** C10. When a job runs to completion, every retained chapter has been
    counted once, as packaged or as skipped, and the two skip reasons
    are counted inside the skips; the packaged count is the number of
    produced archive paths. *)
Theorem summary_accounts_for_every_chapter {F : PyFloat} {P : Pillow} {U : PyUnicode}
    (self : Pipeline.manager) (job : job_request) (api : Pipeline.apis) (w : world)
    (s : Pipeline.summary) (api' : Pipeline.apis) (w' : world) :
  Pipeline.process_job self job api w = (Ret s, api', w') ->
  Pipeline.chapters_processed s = Pipeline.chapters_packaged s + Pipeline.r_skipped_chapters s
  /\ Pipeline.r_skipped_external s + Pipeline.r_skipped_no_images s
     <= Pipeline.r_skipped_chapters s
  /\ Pipeline.chapters_packaged s = length (Pipeline.files_created s).
Proof.
  unfold Pipeline.process_job. intros H.
  repeat case_match; simplify_eq.
  match goal with
  | H : Pipeline.chapter_loop _ _ _ _ _ _ _ _ = _ |- _ =>
      apply (chapter_loop_counts _ _ _ _ _ 0) in H; [| split; cbn; lia];
      destruct H as [H1 H2]
  end.
  cbn in *. repeat split; lia.
Qed.

Lemma summary_accounts_for_every_chapter_witness :
  let w := Examples.world_of Examples.token_client [] Examples.saver_gone [] in
  let '(r, _, _) :=
    Pipeline.process_job (F := Examples.decimal) (P := Examples.all_jpeg) (U := Examples.unicode)
      Examples.manager0 (Examples.job_of None None) Examples.two_chapter_apis w in
  match r with
  | Ret s =>
      Pipeline.chapters_processed s = 2
      /\ Pipeline.files_created s = ["/library/m1/c1.cbz"]
      /\ Pipeline.chapters_processed s
         = Pipeline.chapters_packaged s + Pipeline.r_skipped_chapters s
      /\ Pipeline.r_skipped_external s + Pipeline.r_skipped_no_images s
         <= Pipeline.r_skipped_chapters s
  | _ => False
  end.
Proof.
  intros w.
  destruct (Pipeline.process_job _ _ _ w) as [[r api'] w'] eqn:E.
  assert (Hr : r = Ret {| Pipeline.chapters_processed := 2; Pipeline.chapters_packaged := 1;
                          Pipeline.files_created := ["/library/m1/c1.cbz"];
                          Pipeline.r_skipped_chapters := 1; Pipeline.r_skipped_external := 1;
                          Pipeline.r_skipped_no_images := 0; Pipeline.r_errors := 1 |}).
  { pose proof (f_equal (fun x => fst (fst x)) E) as E'. cbn [fst] in E'.
    rewrite <- E'. vm_compute. reflexivity. }
  subst r.
  destruct (summary_accounts_for_every_chapter _ _ _ _ _ _ _ E) as (H1 & H2 & _).
  repeat split; assumption.
Defined.

(** * Further properties of the code *)

(** ** The chapter filter as a selection *)

Lemma str_in_iff s xs : str_in s xs = true <-> In s xs.
Proof.
  unfold str_in. rewrite existsb_exists. split.
  - intros (x & Hx & He). apply String.eqb_eq in He. subst. exact Hx.
  - intros H. exists s. split; [exact H | apply String.eqb_refl].
Qed.

Lemma list_filter_sublist {A} (f : A -> bool) (l : list A) :
  List.filter f l `sublist_of` l.
Proof.
  induction l as [| x l IH]; cbn; [constructor |].
  destruct (f x); constructor; exact IH.
Qed.

Lemma list_filter_andb {A} (f g : A -> bool) (l : list A) :
  List.filter (fun x => f x && g x) l = List.filter f (List.filter g l).
Proof.
  induction l as [| x l IH]; cbn; [reflexivity |].
  destruct (g x) eqn:Hg; cbn; rewrite ?andb_false_r, ?andb_true_r.
  - destruct (f x); rewrite IH; reflexivity.
  - exact IH.
Qed.

Lemma list_filter_true {A} (f : A -> bool) (l : list A) :
  (forall x, In x l -> f x = true) -> List.filter f l = l.
Proof.
  induction l as [| x l IH]; intros H; cbn; [reflexivity |].
  rewrite (H x) by (left; reflexivity). f_equal. apply IH. intros y Hy. apply H. right. exact Hy.
Qed.

Lemma include_chapter_splits {F : PyFloat} vf cf c :
  Filter.include_chapter vf cf c
  = Filter.include_chapter vf [] c && Filter.include_chapter [] cf c.
Proof.
  unfold Filter.include_chapter. cbn [nonempty andb].
  destruct (nonempty vf && _); [reflexivity |].
  cbn [andb]. reflexivity.
Qed.

Lemma select_as_filter {F : PyFloat} vf cf chs :
  Filter.select vf cf chs = List.filter (Filter.include_chapter vf cf) chs.
Proof.
  unfold Filter.select. destruct vf, cf; cbn [nonempty orb]; try reflexivity.
  symmetry. apply list_filter_true. intros. reflexivity.
Qed.

(** X1. Filtering only drops chapters: what is retained is a subsequence
    of the listing, in the listing's order, whatever the filters. *)
Theorem select_keeps_order {F : PyFloat} (vf cf : list string) (chs : list chapter) :
  Filter.select vf cf chs `sublist_of` chs.
Proof. rewrite select_as_filter. apply list_filter_sublist. Qed.

(** X2. The volume filter and the chapter filter act independently and
    conjunctively: filtering by both is filtering by one and then by the
    other, in either order, and filtering twice changes nothing more. *)
Theorem filters_compose {F : PyFloat} (vf cf : list string) (chs : list chapter) :
  Filter.select vf cf chs = Filter.select vf [] (Filter.select [] cf chs)
  /\ Filter.select vf cf chs = Filter.select [] cf (Filter.select vf [] chs)
  /\ Filter.select vf cf (Filter.select vf cf chs) = Filter.select vf cf chs.
Proof.
  rewrite !select_as_filter. repeat split.
  - rewrite <- list_filter_andb. apply filter_ext. intros c. apply include_chapter_splits.
  - rewrite <- list_filter_andb. apply filter_ext. intros c.
    rewrite andb_comm. apply include_chapter_splits.
  - apply list_filter_true. intros c Hc. apply filter_In in Hc. apply Hc.
Qed.

(** X3. When the chapter filter is not a pair of parseable numbers, it is
    a list of labels: a chapter is retained exactly when its volume label
    is one of the volume filter (if there is one) and its chapter label is,
    verbatim, one of the chapter filter (if there is one). *)
Theorem explicit_list_is_membership {F : PyFloat} (vf cf : list string)
    (chs : list chapter) (c : chapter) :
  Filter.range_mode cf = false ->
  (In c (Filter.select vf cf chs)
   <-> In c chs
       /\ (vf = [] \/ exists v, ch_volume c = Some v /\ In v vf)
       /\ (cf = [] \/ exists s, ch_chapter c = Some s /\ In s cf)).
Proof.
  intros Hr. rewrite select_as_filter, filter_In. unfold Filter.include_chapter.
  rewrite Hr.
  assert (Hv : (nonempty vf && match ch_volume c with
                              | Some v => negb (str_in v vf)
                              | None => true
                              end = false)
               <-> (vf = [] \/ exists v, ch_volume c = Some v /\ In v vf)).
  { destruct vf as [| v0 vf]; cbn [nonempty andb]; [split; auto |].
    destruct (ch_volume c) as [v |].
    - rewrite negb_false_iff, str_in_iff. split.
      + intros H. right. eauto.
      + intros [H | (v' & Hv' & Hin)]; [discriminate | congruence].
    - split; [discriminate |]. intros [H | (v' & Hv' & _)]; discriminate. }
  assert (Hc : (if nonempty cf
                then match ch_chapter c with
                     | Some s => if negb (str_in s cf) then false else true
                     | None => false
                     end
                else true) = true
               <-> (cf = [] \/ exists s, ch_chapter c = Some s /\ In s cf)).
  { destruct cf as [| s0 cf]; cbn [nonempty]; [split; auto |].
    destruct (ch_chapter c) as [s |].
    - destruct (str_in s (s0 :: cf)) eqn:Hs; cbn [negb].
      + apply str_in_iff in Hs. split; eauto.
      + split; [discriminate |]. intros [H | (s' & Hs' & Hin)]; [discriminate |].
        simplify_eq. apply str_in_iff in Hin. congruence.
    - split; [discriminate |]. intros [H | (s' & Hs' & _)]; discriminate. }
  destruct (nonempty vf && _) eqn:Hvb.
  - split; [intros [_ H]; discriminate |].
    intros (_ & Hvol & _). apply Hv in Hvol. discriminate.
  - rewrite Hc. split; [intros [H1 H2] | intros (H1 & _ & H2)]; repeat split; auto.
    apply Hv. reflexivity.
Qed.

Lemma explicit_list_is_membership_witness :
  In (Examples.ch "e" (Some "2") (Some "Extra"))
     (Filter.select (F := Examples.decimal) ["2"] ["1"; "Extra"] Examples.five_chapters)
  /\ ~ In (Examples.ch "b" (Some "1") (Some "2.5"))
         (Filter.select (F := Examples.decimal) ["2"] ["1"; "Extra"] Examples.five_chapters).
Proof.
  split.
  - apply (explicit_list_is_membership (F := Examples.decimal) ["2"] ["1"; "Extra"]
             Examples.five_chapters _ eq_refl).
    split; [cbn; tauto |]. split; right; eexists; (split; [reflexivity | cbn; tauto]).
  - intros H.
    apply (explicit_list_is_membership (F := Examples.decimal) ["2"] ["1"; "Extra"]
             Examples.five_chapters _ eq_refl) in H.
    destruct H as (_ & [H | (v & Hv & Hin)] & _); [discriminate |].
    cbn in Hv, Hin. simplify_eq. destruct Hin as [H | []]. discriminate.
Defined.

(** ** The client: what comes back, and when *)

Lemma raise_for_status_none {B} url (r : response B) :
  raise_for_status url r = None <-> is_success r = true.
Proof. unfold raise_for_status. destruct (is_success r); split; congruence. Qed.

(** X4. A response that [_limited_get] hands back is a success (2xx):
    every other status was retried or raised. *)
Theorem limited_get_returns_success {F : PyFloat} {B} (url : string)
    (params : list (string * string)) (api : list (outcome B)) :
  forall (w : world) (r : response B) (api' : list (outcome B)) (w' : world),
    Client._limited_get url params api w = (Ret r, api', w') ->
    is_success r = true.
Proof.
  induction api as [| o api IH]; intros w r api' w' H; cbn in H.
  - repeat case_match; simplify_eq.
  - repeat case_match; simplify_eq;
      try (eapply IH; eassumption);
      apply (raise_for_status_none url); assumption.
Qed.

Lemma limited_get_returns_success_witness :
  let w := Examples.world_of Examples.token_client [] [] [] in
  match fst (fst (Client._limited_get (F := Examples.decimal) "u" []
                    [Responds (Scenes.busy 1%Z); Responds (Scenes.fine 2%Z)] w)) with
  | Ret r => is_success r = true /\ body r = 2%Z
  | _ => False
  end.
Proof.
  intros w.
  destruct (Client._limited_get (F := Examples.decimal) "u" []
              [Responds (Scenes.busy 1%Z); Responds (Scenes.fine 2%Z)] w)
    as [[r api'] w'] eqn:E.
  assert (Hr : r = Ret (Scenes.fine 2%Z)).
  { pose proof (f_equal (fun x => fst (fst x)) E) as E'. cbn [fst] in E'.
    rewrite <- E'. reflexivity. }
  subst r. cbn [fst]. split; [| reflexivity].
  exact (limited_get_returns_success _ _ _ _ _ _ _ E).
Defined.

Lemma ensure_auth_with_token w :
  truthy (_access_token (self_client w)) = true ->
  Client._ensure_auth w = (Ret tt, set_client (Client.with_bearer (self_client w)) w).
Proof. unfold Client._ensure_auth. intros ->. reflexivity. Qed.

Lemma success_status {B} (r : response B) :
  is_success r = true ->
  (status_code r =? 429)%Z = false
  /\ ((500 <=? status_code r)%Z && (status_code r <? 600)%Z) = false
  /\ (status_code r =? 401)%Z = false.
Proof.
  unfold is_success. intros H. apply andb_true_iff in H. destruct H as [H1 H2].
  apply Z.leb_le in H1, H2. repeat split.
  - apply Z.eqb_neq. lia.
  - apply andb_false_iff. left. apply Z.leb_gt. lia.
  - apply Z.eqb_neq. lia.
Qed.



Lemma py_or_truthy x y : truthy y = true -> truthy (py_or x y) = true.
Proof. unfold py_or. destruct (truthy x) eqn:E; auto. Qed.

(** X6. A refresh exchange never costs the client its refresh token:
    whatever the auth server answers, a client that held one still holds
    one afterwards (the server's new one when it sends one, the old one
    otherwise), and its login credentials are untouched. *)
Theorem refresh_keeps_refresh_token (w : world) (r : result bool) (w' : world) :
  Client._refresh_auth w = (r, w') ->
  truthy (_refresh_token (self_client w)) = true ->
  truthy (_refresh_token (self_client w')) = true
  /\ _username (self_client w') = _username (self_client w)
  /\ _password (self_client w') = _password (self_client w)
  /\ _client_id (self_client w') = _client_id (self_client w)
  /\ _client_secret (self_client w') = _client_secret (self_client w).
Proof.
  unfold Client._refresh_auth. intros H Ht.
  repeat case_match; simplify_eq; cbn; repeat split; auto using py_or_truthy.
Qed.

Lemma refresh_keeps_refresh_token_witness :
  let w := Examples.world_of Examples.session_client
             [Examples.answer 200 "OK"
                (Some {| tok_access := Some "t1"; tok_refresh := None |})] [] [] in
  _refresh_token (self_client (snd (Client._refresh_auth w))) = Some "r0"
  /\ _access_token (self_client (snd (Client._refresh_auth w))) = Some "t1".
Proof.
  intros w. split; [| reflexivity].
  destruct (Client._refresh_auth w) as [r w'] eqn:E.
  pose proof (refresh_keeps_refresh_token w r w' E eq_refl) as [_ _].
  pose proof (f_equal snd E) as E'. cbn [snd] in E'. rewrite <- E'. reflexivity.
Defined.

(** X7. The password grant is exchanged once: after an [_ensure_auth]
    that returned with an access token in hand, a further [_ensure_auth]
    sends nothing and changes nothing. *)
Theorem login_happens_once (w w1 : world) :
  Client._ensure_auth w = (Ret tt, w1) ->
  truthy (_access_token (self_client w1)) = true ->
  Client._ensure_auth w1 = (Ret tt, w1).
Proof.
  intros H Ht. rewrite (ensure_auth_with_token w1 Ht). f_equal.
  unfold Client._ensure_auth in H.
  repeat case_match; simplify_eq; try reflexivity.
  all: cbn in *; congruence.
Qed.

Lemma login_happens_once_witness :
  let c := {| base_url := "https://api.mangadex.org"; authorization := None;
              _username := Some "u"; _password := Some "p"; _access_token := None;
              _refresh_token := None; _client_id := Some "id";
              _client_secret := Some "secret" |} in
  let w := Examples.world_of c
             [Examples.answer 200 "OK"
                (Some {| tok_access := Some "t1"; tok_refresh := Some "r1" |})] [] [] in
  let w1 := snd (Client._ensure_auth w) in
  authorization (self_client w1) = Some "Bearer t1"
  /\ trace w1 = [POST Client.token_url "password"]
  /\ Client._ensure_auth w1 = (Ret tt, w1).
Proof.
  intros c w w1. split; [reflexivity |]. split; [reflexivity |].
  apply (login_happens_once w w1); reflexivity.
Defined.

(** X8. [auth_logout] forgets the access token and the header, nothing
    else.  So it lasts only as long as no credentials are configured: with
    the four login credentials set, the next [_ensure_auth] asks for a
    password grant again; with one of them missing it sends nothing and
    the client stays without an Authorization header. *)
Theorem logout_until_next_login (w : world) :
  let w1 := snd (Session.auth_logout w) in
  let c := self_client w in
  authorization (self_client w1) = None
  /\ _access_token (self_client w1) = None
  /\ _refresh_token (self_client w1) = _refresh_token c
  /\ trace w1 = trace w
  /\ (if truthy (_username c) && truthy (_password c)
         && truthy (_client_id c) && truthy (_client_secret c)
      then trace (snd (Client._ensure_auth w1))
           = trace w ++ [POST Client.token_url "password"]
      else Client._ensure_auth w1 = (Ret tt, w1)).
Proof.
  cbn zeta. unfold Session.auth_logout. cbn [snd self_client set_client authorization
    _access_token _refresh_token trace].
  repeat split. unfold Client._ensure_auth.
  cbn [self_client set_client _access_token _username _password _client_id _client_secret
       truthy].
  destruct (truthy (_username (self_client w)) && truthy (_password (self_client w))
            && truthy (_client_id (self_client w)) && truthy (_client_secret (self_client w)));
    [| reflexivity].
  cbn [auth_server emit set_client].
  repeat case_match; reflexivity.
Qed.

(** ** Chapter discovery: the paging *)

Lemma fetch_page_limit {F : PyFloat} mid lang st api w r lim api' w' :
  Discovery.fetch_page mid lang st api w = (r, lim, api', w') ->
  (lim = Discovery.limit st \/ lim = Discovery.fallback_limit)
  /\ length api' <= length api.
Proof.
  unfold Discovery.fetch_page. intros H.
  destruct (Client.get_manga_chapters mid lang (Discovery.limit st) (Discovery.offset st) api w)
    as [[r1 api1] w1] eqn:E1.
  apply get_manga_chapters_length in E1. destruct E1 as [L1 _].
  destruct r1 as [pg | e |]; simplify_eq; auto.
  destruct e; simplify_eq; auto.
  destruct (_ && _); simplify_eq; auto.
  destruct (Client.get_manga_chapters mid lang Discovery.fallback_limit _ api1 w1)
    as [[r2 api2] w2] eqn:E2.
  apply get_manga_chapters_length in E2. destruct E2 as [L2 _].
  destruct r2 as [pg | e |]; simplify_eq; [split; [auto | lia] | | split; [auto | lia]].
  destruct e; simplify_eq; split; auto; lia.
Qed.

Lemma delivered_app a b :
  Observe.delivered (a ++ b) = Observe.delivered a ++ Observe.delivered b.
Proof. unfold Observe.delivered. rewrite map_app, concat_app. reflexivity. Qed.

Lemma raise_for_status_success {B} url (r : response B) :
  is_success r = match raise_for_status url r with Some _ => false | None => true end.
Proof. unfold raise_for_status. destruct (is_success r); reflexivity. Qed.

Lemma retried_is_no_success {B} (r : response B) :
  (status_code r =? 429)%Z = true
  \/ ((500 <=? status_code r)%Z && (status_code r <? 600)%Z) = true
  \/ (status_code r =? 401)%Z = true ->
  is_success r = false.
Proof.
  unfold is_success. intros [H | [H | H]].
  - apply Z.eqb_eq in H. rewrite H. reflexivity.
  - apply andb_true_iff in H. destruct H as [H _]. apply Z.leb_le in H.
    apply andb_false_iff. right. apply Z.leb_gt. lia.
  - apply Z.eqb_eq in H. rewrite H. reflexivity.
Qed.

(** What one call takes from the API: the answers up to the one it
    returns, none of which handed chapters over but the one returned. *)
Lemma limited_get_consumed {F : PyFloat} url params (api : Discovery.api_script) :
  forall w res api' w',
    Client._limited_get url params api w = (res, api', w') ->
    exists consumed,
      api = consumed ++ api'
      /\ Observe.delivered consumed
         = match res with
           | Ret r => match body r with Some pg => pg_data pg | None => [] end
           | _ => []
           end.
Proof.
  assert (Hone : forall (r : response (option page)),
            is_success r = false -> Observe.delivered [Responds r] = []).
  { intros r Hr. unfold Observe.delivered. cbn. rewrite Hr. reflexivity. }
  assert (Hret : forall (r : response (option page)),
            is_success r = true ->
            Observe.delivered [Responds r]
            = match body r with Some pg => pg_data pg | None => [] end).
  { intros r Hr. unfold Observe.delivered. cbn. rewrite Hr, app_nil_r. reflexivity. }
  induction api as [| o api IH]; intros w res api' w' H; cbn in H.
  - exists []. repeat case_match; simplify_eq; split; reflexivity.
  - destruct (Client._ensure_auth w) as [[[] | e |] w0];
      [| simplify_eq; exists []; split; reflexivity ..].
    destruct o as [r0 | e]; [| simplify_eq; exists [Fails e]; split; reflexivity].
    assert (Hnext : forall w1,
              Client._limited_get url params api w1 = (res, api', w') ->
              is_success r0 = false ->
              exists consumed,
                Responds r0 :: api = consumed ++ api'
                /\ Observe.delivered consumed
                   = match res with
                     | Ret r => match body r with Some pg => pg_data pg | None => [] end
                     | _ => []
                     end).
    { intros w1 H1 Hr0. destruct (IH _ _ _ _ H1) as (c & -> & Hc).
      exists (Responds r0 :: c). split; [reflexivity |].
      change (Responds r0 :: c) with ([Responds r0] ++ c).
      rewrite delivered_app, (Hone _ Hr0). exact Hc. }
    assert (Hstop : forall (x : result (response (option page))),
              is_success r0 = false ->
              match x with Ret _ => False | _ => True end ->
              exists consumed,
                Responds r0 :: api = consumed ++ api
                /\ Observe.delivered consumed
                   = match x with
                     | Ret r => match body r with Some pg => pg_data pg | None => [] end
                     | _ => []
                     end).
    { intros x Hr0 Hx. exists [Responds r0]. split; [reflexivity |].
      rewrite (Hone _ Hr0). destruct x; [contradiction | reflexivity ..]. }
    assert (Hplain : forall w1,
              match raise_for_status url r0 with
              | Some e => (Raise e, api, w1)
              | None => (Ret r0, api, w1)
              end = (res, api', w') ->
              exists consumed,
                Responds r0 :: api = consumed ++ api'
                /\ Observe.delivered consumed
                   = match res with
                     | Ret r => match body r with Some pg => pg_data pg | None => [] end
                     | _ => []
                     end).
    { intros w1 H1. pose proof (raise_for_status_success url r0) as Hs.
      destruct (raise_for_status url r0); simplify_eq; exists [Responds r0];
        (split; [reflexivity |]); [apply Hone | apply Hret]; exact Hs. }
    destruct (status_code r0 =? 429)%Z eqn:E429.
    { pose proof (retried_is_no_success r0 (or_introl E429)) as Hr0.
      destruct (retry_delay r0) as [d | e |].
      - eapply Hnext; eassumption.
      - simplify_eq. apply (Hstop (Raise e) Hr0 I).
      - simplify_eq. apply (Hstop Pending Hr0 I). }
    destruct ((500 <=? status_code r0)%Z && (status_code r0 <? 600)%Z) eqn:E5.
    { eapply Hnext; [eassumption |]. apply retried_is_no_success. auto. }
    destruct (status_code r0 =? 401)%Z eqn:E401; [| eapply Hplain; exact H].
    pose proof (retried_is_no_success r0 (or_intror (or_intror E401))) as Hr0.
    destruct (Client._refresh_auth _) as [[[] | e |] w1].
    + destruct api as [| [r2 | e2] api2].
      * simplify_eq. apply (Hstop Pending Hr0 I).
      * pose proof (raise_for_status_success url r2) as Hs.
        exists [Responds r0; Responds r2].
        change [Responds r0; Responds r2] with ([Responds r0] ++ [Responds r2]).
        rewrite delivered_app, (Hone _ Hr0).
        destruct (raise_for_status url r2); simplify_eq;
          (split; [reflexivity |]); [apply Hone | apply Hret]; exact Hs.
      * simplify_eq. exists [Responds r0; Fails e2]. split; [reflexivity |].
        change [Responds r0; Fails e2] with ([Responds r0] ++ [Fails e2]).
        rewrite delivered_app, (Hone _ Hr0). reflexivity.
    + eapply Hplain; exact H.
    + simplify_eq. apply (Hstop (Raise e) Hr0 I).
    + simplify_eq. apply (Hstop Pending Hr0 I).
Qed.

Lemma get_manga_chapters_consumed {F : PyFloat} mid lang lim off api w res api' w' :
  Client.get_manga_chapters mid lang lim off api w = (res, api', w') ->
  exists consumed,
    api = consumed ++ api'
    /\ Observe.delivered consumed = match res with Ret pg => pg_data pg | _ => [] end.
Proof.
  unfold Client.get_manga_chapters, Client.get_json. intros H.
  destruct (Client._limited_get _ _ api w) as [[r0 a0] w0] eqn:E.
  apply limited_get_consumed in E. destruct E as (c & -> & Hc). exists c.
  destruct r0 as [r | e |]; simplify_eq; (split; [reflexivity |]); [| exact Hc ..].
  rewrite Hc. unfold json. destruct (body r); reflexivity.
Qed.

Lemma fetch_page_consumed {F : PyFloat} mid lang st api w r lim api' w' :
  Discovery.fetch_page mid lang st api w = (r, lim, api', w') ->
  exists consumed,
    api = consumed ++ api'
    /\ Observe.delivered consumed = match r with Ret pg => pg_data pg | _ => [] end.
Proof.
  unfold Discovery.fetch_page. intros H.
  destruct (Client.get_manga_chapters mid lang (Discovery.limit st) (Discovery.offset st) api w)
    as [[r1 api1] w1] eqn:E1.
  apply get_manga_chapters_consumed in E1. destruct E1 as (c1 & -> & H1).
  destruct r1 as [pg | e |]; [simplify_eq; exists c1; auto | | simplify_eq; exists c1; auto].
  destruct e; try (simplify_eq; exists c1; auto; fail).
  destruct (_ && _); [| simplify_eq; exists c1; auto].
  destruct (Client.get_manga_chapters mid lang Discovery.fallback_limit _ api1 w1)
    as [[r2 api2] w2] eqn:E2.
  apply get_manga_chapters_consumed in E2. destruct E2 as (c2 & -> & H2).
  exists (c1 ++ c2). rewrite app_assoc, delivered_app, H1, H2. cbn [app].
  destruct r2 as [pg | e |]; [simplify_eq; auto | | simplify_eq; auto].
  destruct e; simplify_eq; auto.
Qed.

(** X9. The paging loop keeps its books: however it ends, the chapters
    it holds are those it started with followed by the chapters of every
    page the API handed over during the loop, in the order of the answers,
    each once; the offset has advanced by exactly their number, and the
    page size is the one it started with or the fallback size. *)
Theorem paging_keeps_offset {F : PyFloat} (mid lang : string) (fuel : nat) :
  forall (st : Discovery.listing) (api : Discovery.api_script) (w : world)
         (r : result unit) (st' : Discovery.listing) (api' : Discovery.api_script)
         (w' : world),
    Discovery.listing_loop mid lang fuel st api w = Some (r, st', api', w') ->
    exists consumed,
      api = consumed ++ api'
      /\ Discovery.found st' = Discovery.found st ++ Observe.delivered consumed
      /\ Discovery.offset st'
         = (Discovery.offset st + Z.of_nat (length (Observe.delivered consumed)))%Z
      /\ (Discovery.limit st' = Discovery.limit st
          \/ Discovery.limit st' = Discovery.fallback_limit).
Proof.
  induction fuel as [| fuel IH]; intros st api w r st' api' w' H; [discriminate |].
  cbn [Discovery.listing_loop] in H.
  destruct (Discovery.fetch_page mid lang st api w) as [[[r1 lim] api1] w1] eqn:E.
  pose proof (fetch_page_limit _ _ _ _ _ _ _ _ _ E) as [Hlim _].
  apply fetch_page_consumed in E. destruct E as (c1 & -> & Hc1).
  assert (Hstay : forall x y,
            Observe.delivered c1 = [] ->
            Some (x, {| Discovery.found := Discovery.found st;
                        Discovery.offset := Discovery.offset st;
                        Discovery.limit := lim |}, api1, y) = Some (r, st', api', w') ->
            exists consumed,
              c1 ++ api1 = consumed ++ api'
              /\ Discovery.found st' = Discovery.found st ++ Observe.delivered consumed
              /\ Discovery.offset st'
                 = (Discovery.offset st + Z.of_nat (length (Observe.delivered consumed)))%Z
              /\ (Discovery.limit st' = Discovery.limit st
                  \/ Discovery.limit st' = Discovery.fallback_limit)).
  { intros x y Hd Hx. simplify_eq. exists c1. rewrite Hd. cbn. rewrite app_nil_r.
    repeat split; auto. lia. }
  destruct r1 as [pg | e |]; [| eapply Hstay; [exact Hc1 | exact H] ..].
  destruct (nonempty (pg_data pg)) eqn:Hne; cbn [negb] in H.
  2: { eapply Hstay; [| exact H]. rewrite Hc1. destruct (pg_data pg); [reflexivity | discriminate]. }
  cbn [Discovery.found Discovery.offset Discovery.limit] in H.
  destruct (_ <=? _)%Z.
  - simplify_eq. exists c1. rewrite Hc1. cbn. auto.
  - apply IH in H. destruct H as (c2 & -> & H1 & H2 & H3).
    cbn [Discovery.found Discovery.offset Discovery.limit] in *.
    exists (c1 ++ c2). rewrite delivered_app, Hc1, H1, H2.
    split; [apply app_assoc |]. split; [symmetry; apply app_assoc |].
    split; [rewrite length_app; lia |]. destruct H3 as [-> | ->]; auto.
Qed.

Lemma paging_keeps_offset_witness :
  let w := Examples.world_of Examples.token_client [] [] [] in
  let api := [Responds (Scenes.busy None);
              Responds (Scenes.fine (Some (Scenes.page_of ["1"; "2"] 3)));
              Responds (Scenes.fine (Some (Scenes.page_of ["3"] 3)));
              Responds (Scenes.fine (Some (Scenes.page_of ["4"] 4)))] in
  match Discovery.listing_loop (F := Examples.decimal) "m1" "en" 3 Discovery.start api w with
  | Some (r, st', api', _) =>
      r = Ret tt
      /\ api' = [Responds (Scenes.fine (Some (Scenes.page_of ["4"] 4)))]
      /\ Discovery.found st'
         = pg_data (Scenes.page_of ["1"; "2"] 3) ++ pg_data (Scenes.page_of ["3"] 3)
      /\ Discovery.offset st' = 3%Z
  | None => False
  end.
Proof.
  intros w api.
  destruct (Discovery.listing_loop "m1" "en" 3 Discovery.start api w)
    as [[[[r st'] api'] w'] |] eqn:E.
  - destruct (paging_keeps_offset _ _ _ _ _ _ _ _ _ _ E) as (consumed & H0 & H1 & H2 & _).
    assert (Hr : Some (r, api') = Some (Ret tt, [Responds (Scenes.fine
                                                  (Some (Scenes.page_of ["4"] 4)))])).
    { pose proof (f_equal (fun o => match o with
                                    | Some (r, _, api', _) => Some (r, api')
                                    | None => None
                                    end) E) as E'.
      cbn beta iota in E'. rewrite <- E'. reflexivity. }
    injection Hr as Hr1 Hr2. subst r api'.
    assert (Hc : consumed = [Responds (Scenes.busy None);
                             Responds (Scenes.fine (Some (Scenes.page_of ["1"; "2"] 3)));
                             Responds (Scenes.fine (Some (Scenes.page_of ["3"] 3)))]).
    { subst api. change (?a :: ?b :: ?c :: ?d) with ([a; b; c] ++ d) in H0.
      apply app_inv_tail in H0. symmetry. exact H0. }
    subst consumed. split; [reflexivity |]. split; [reflexivity |].
    split; [exact H1 | exact H2].
  - vm_compute in E. discriminate E.
Defined.

Lemma limited_get_success {F : PyFloat} {B} url params (r : response B) api w :
  truthy (_access_token (self_client w)) = true ->
  is_success r = true ->
  Client._limited_get url params (Responds r :: api) w
  = (Ret r, api,
     Client.release (Client.dispatch url params
                       (set_client (Client.with_bearer (self_client w)) w))).
Proof.
  intros Ht Hr. cbn [Client._limited_get]. rewrite (ensure_auth_with_token w Ht).
  destruct (success_status r Hr) as (-> & -> & ->).
  apply raise_for_status_none with (url := url) in Hr. rewrite Hr. reflexivity.
Qed.

(** X10. A listing served in pages is collected whole: with a token
    configured, when the API answers each request with the next page (all
    pages non-empty, the reported total reached exactly by the last one),
    discovery returns the chapters of all pages, in order and once each,
    after exactly one request per page. *)
Theorem paged_listing_is_complete {F : PyFloat} (mid lang : string)
    (rs : list (response (option page))) (pages : list page) :
  Forall2 (fun r pg => is_success r = true /\ body r = Some pg) rs pages ->
  forall (st : Discovery.listing) (rest : Discovery.api_script) (w : world),
    truthy (_access_token (self_client w)) = true ->
    Observe.paged (Discovery.offset st) pages = true ->
    let '(res, api', w') :=
      Discovery.list_from mid lang st (map Responds rs ++ rest) w in
    res = Ret (Discovery.found st ++ concat (map pg_data pages))
    /\ api' = rest
    /\ Trace.count Trace.is_get (trace w') = Trace.count Trace.is_get (trace w) + length pages.
Proof.
  intros Hall.
  assert (Hloop : forall (st : Discovery.listing) rest w fuel,
            truthy (_access_token (self_client w)) = true ->
            Observe.paged (Discovery.offset st) pages = true ->
            length pages <= fuel ->
            exists st' w',
              Discovery.listing_loop mid lang fuel st (map Responds rs ++ rest) w
              = Some (Ret tt, st', rest, w')
              /\ Discovery.found st' = Discovery.found st ++ concat (map pg_data pages)
              /\ Trace.count Trace.is_get (trace w')
                 = Trace.count Trace.is_get (trace w) + length pages).
  { induction Hall as [| r pg rs pages [Hr Hb] Hall IH]; intros st rest w fuel Ht Hp Hf;
      [discriminate |].
    destruct fuel as [| fuel]; [cbn in Hf; lia |].
    cbn [Observe.paged] in Hp. apply andb_true_iff in Hp. destruct Hp as [Hne Hp].
    cbn [map app Discovery.listing_loop]. unfold Discovery.fetch_page,
      Client.get_manga_chapters, Client.get_json.
    rewrite (limited_get_success _ _ r _ w Ht Hr). unfold json. rewrite Hb, Hne.
    cbn [negb Discovery.found Discovery.offset Discovery.limit].
    set (w1 := Client.release (Client.dispatch _ _ _)).
    assert (Hw1 : truthy (_access_token (self_client w1)) = true
                  /\ Trace.count Trace.is_get (trace w1)
                     = Trace.count Trace.is_get (trace w) + 1).
    { subst w1. unfold Client.release, Client.dispatch.
      cbn [trace emit set_client self_client Client.with_bearer _access_token].
      rewrite !count_app. cbn. split; [exact Ht | lia]. }
    destruct Hw1 as [Ht1 Hg1].
    destruct pages as [| pg2 pages].
    - inversion Hall; subst. rewrite Hp. eexists _, w1. split; [reflexivity |].
      split; [cbn [map concat Discovery.found]; rewrite app_nil_r; reflexivity
             | cbn [length]; lia].
    - apply andb_true_iff in Hp. destruct Hp as [Hlt Hp].
      apply negb_true_iff in Hlt. rewrite Hlt.
      edestruct (IH {| Discovery.found := Discovery.found st ++ pg_data pg;
                       Discovery.offset := Discovery.offset st
                                           + Z.of_nat (length (pg_data pg));
                       Discovery.limit := Discovery.limit st |} rest w1 fuel Ht1 Hp)
        as (st' & w' & E & Hfound & Hget); [cbn in Hf |- *; lia |].
      exists st', w'. split; [exact E |].
      cbn [Discovery.found] in Hfound. rewrite Hfound, <- app_assoc.
      split; [reflexivity |]. cbn [length] in Hget |- *. lia. }
  intros st rest w Ht Hp.
  edestruct (Hloop st rest w (S (length (map Responds rs ++ rest))) Ht Hp)
    as (st' & w' & E & Hfound & Hget).
  { rewrite length_app, length_map. apply Forall2_length in Hall. lia. }
  unfold Discovery.list_from. rewrite E, Hfound. auto.
Qed.

Lemma paged_listing_is_complete_witness :
  let w := Examples.world_of Examples.token_client [] [] [] in
  let '(res, api', w') :=
    Discovery.list_from (F := Examples.decimal) "m1" "en" Discovery.start
      (map Responds [Scenes.fine (Some (Scenes.page_of ["1"; "2"] 3));
                     Scenes.fine (Some (Scenes.page_of ["3"] 3))]
       ++ [Fails (TransportError "unused")]) w in
  res = Ret (map (fun i => Examples.ch i None (Some i)) ["1"; "2"; "3"])
  /\ api' = [Fails (TransportError "unused")]
  /\ Trace.count Trace.is_get (trace w') = 2.
Proof.
  intros w.
  pose proof (paged_listing_is_complete (F := Examples.decimal) "m1" "en"
                [Scenes.fine (Some (Scenes.page_of ["1"; "2"] 3));
                 Scenes.fine (Some (Scenes.page_of ["3"] 3))]
                [Scenes.page_of ["1"; "2"] 3; Scenes.page_of ["3"] 3]
                ltac:(repeat constructor) Discovery.start
                [Fails (TransportError "unused")] w eq_refl eq_refl) as H.
  destruct (Discovery.list_from _ _ _ _ w) as [[res api'] w'].
  exact H.
Defined.

(** ** Image acquisition: tiers, the good case, the breaker *)

(** X11. The tier to start with is the preferred one unless it is empty
    and the other is not; so the chosen tier is empty only when both are,
    and the name that goes into the image addresses is always the name of
    the tier chosen. *)
Theorem tier_choice (prefer_datasaver : bool) (ah : at_home) :
  let '(tier, data_kind) := Acquire.choose_tier prefer_datasaver ah in
  (tier = [] <-> data ah = [] /\ dataSaver ah = [])
  /\ ((data_kind = "data" /\ tier = data ah)
      \/ (data_kind = "data-saver" /\ tier = dataSaver ah))
  /\ (prefer_datasaver = true -> dataSaver ah <> [] ->
      data_kind = "data-saver" /\ tier = dataSaver ah)
  /\ (prefer_datasaver = false -> data ah <> [] ->
      data_kind = "data" /\ tier = data ah).
Proof.
  unfold Acquire.choose_tier.
  destruct prefer_datasaver, (dataSaver ah) as [| s ss], (data ah) as [| d ds];
    cbn; repeat split; auto; try discriminate; try tauto;
    try (intros [H1 H2]; discriminate); try (intros; congruence).
Qed.

Lemma judge_success {F : PyFloat} url (r : response bytes) :
  is_success r = true -> Acquire.judge url (Responds r) = Acquire.Stored (body r).
Proof.
  intros Hr. unfold Acquire.judge. destruct (success_status r Hr) as (-> & _ & _).
  apply raise_for_status_none with (url := url) in Hr. rewrite Hr. reflexivity.
Qed.

Lemma urls_app tr es : Observe.urls (tr ++ es) = Observe.urls tr ++ Observe.urls es.
Proof. unfold Observe.urls. apply omap_app. Qed.

Lemma fetch_tier_all_good {F : PyFloat} base kind chapter_hash reg (tier : list string) :
  forall (rs : list (response bytes)) rest p w,
    length rs = length tier ->
    forallb is_success rs = true ->
    image_hosts w = map Responds rs ++ rest ->
    exists p' w',
      Acquire.fetch_tier tier base kind chapter_hash reg p w = (Ret tt, p', w')
      /\ Acquire.image_bytes p' = Acquire.image_bytes p ++ map body rs
      /\ Acquire.errors p' = Acquire.errors p
      /\ image_hosts w' = rest
      /\ Observe.urls (trace w')
         = Observe.urls (trace w) ++ map (Acquire.image_url base kind chapter_hash) tier
      /\ Trace.count Observe.is_sleep (trace w') = Trace.count Observe.is_sleep (trace w).
Proof.
  induction tier as [| img tier IH]; intros rs rest p w Hlen Hok Hh.
  - destruct rs; [| discriminate]. exists p, w. cbn [Acquire.fetch_tier map].
    rewrite !app_nil_r. cbn in Hh. auto 10.
  - destruct rs as [| r rs]; [discriminate |].
    cbn [forallb] in Hok. apply andb_true_iff in Hok. destruct Hok as [Hr Hok].
    cbn [map app] in Hh. cbn [Acquire.fetch_tier]. change (seq 0 3) with [0; 1; 2].
    rewrite (fetch_image_step _ _ _ _ _ _ _ _ _ Hh). cbn zeta.
    rewrite (judge_success _ r Hr). unfold Acquire.tripped at 1.
    cbn [Acquire.consecutive_400s Nat.leb andb].
    edestruct (IH rs rest
                 {| Acquire.image_bytes := Acquire.image_bytes p ++ [body r];
                    Acquire.consecutive_400s := 0; Acquire.errors := Acquire.errors p |}
                 (emit [Leave api_rps]
                    (set_image_hosts (map Responds rs ++ rest)
                       (emit [Enter api_rps;
                              GET (Acquire.image_url base kind chapter_hash img) []
                                (authorization (self_client w))] w))))
      as (p' & w' & E & H1 & H2 & H3 & H4 & H5);
      [cbn in Hlen; lia | exact Hok | reflexivity |].
    exists p', w'. split; [exact E |].
    cbn [Acquire.image_bytes Acquire.errors trace emit set_image_hosts] in *.
    split; [rewrite H1, <- app_assoc; reflexivity |].
    split; [exact H2 |]. split; [exact H3 |]. split.
    + rewrite H4, !urls_app. cbn. rewrite <- !app_assoc. reflexivity.
    + rewrite H5, !count_app. cbn. lia.
Qed.

(** X12. When every image of the chosen tier is served at the first
    request, the chapter comes back complete: the images in the order of
    the file names, one request per file name at the address built from
    base, tier, hash and name, no sleep, no error counted, no fallback. *)
Theorem all_images_first_time {F : PyFloat} (base chapter_hash kind : string)
    (tier reg : list string) (rs : list (response bytes)) (rest : list (outcome bytes))
    (n : nat) (w : world) :
  tier <> [] ->
  length rs = length tier ->
  forallb is_success rs = true ->
  image_hosts w = map Responds rs ++ rest ->
  let '(res, w') := Acquire.fetch_chapter base chapter_hash kind tier reg n w in
  res = Ret (map body rs, n)
  /\ image_hosts w' = rest
  /\ Observe.urls (trace w')
     = Observe.urls (trace w) ++ map (Acquire.image_url base kind chapter_hash) tier
  /\ Trace.count Observe.is_sleep (trace w') = Trace.count Observe.is_sleep (trace w).
Proof.
  intros Hne Hlen Hok Hh. unfold Acquire.fetch_chapter.
  destruct (fetch_tier_all_good base kind chapter_hash reg tier rs rest
              {| Acquire.image_bytes := []; Acquire.consecutive_400s := 0;
                 Acquire.errors := n |} w Hlen Hok Hh)
    as (p' & w' & E & H1 & H2 & H3 & H4 & H5).
  rewrite E. cbn [Acquire.image_bytes Acquire.errors app] in H1, H2.
  assert (Hsome : nonempty (Acquire.image_bytes p') = true).
  { rewrite H1. destruct rs; [destruct tier; [contradiction | discriminate] | reflexivity]. }
  rewrite Hsome. cbn [negb andb]. rewrite H1, H2. auto.
Qed.

Lemma all_images_first_time_witness :
  let w := Examples.world_of Examples.token_client []
             [Responds (Scenes.fine Examples.jpg); Responds (Scenes.fine Examples.png)] [] in
  let '(res, w') :=
    Acquire.fetch_chapter (F := Examples.decimal) "https://node" "h" "data"
      ["1.jpg"; "2.png"] [] 4 w in
  res = Ret ([Examples.jpg; Examples.png], 4)
  /\ Observe.urls (trace w') = ["https://node/data/h/1.jpg"; "https://node/data/h/2.png"].
Proof.
  intros w.
  pose proof (all_images_first_time (F := Examples.decimal) "https://node" "h" "data"
                ["1.jpg"; "2.png"] [] [Scenes.fine Examples.jpg; Scenes.fine Examples.png]
                [] 4 w ltac:(discriminate) eq_refl eq_refl eq_refl) as H.
  destruct (Acquire.fetch_chapter _ _ _ _ _ _ w) as [res w'].
  destruct H as (H1 & _ & H3 & _). split; [exact H1 | exact H3].
Defined.

Lemma fetch_image_images {F : PyFloat} attempts url kind reg :
  forall p w r p' w',
    Acquire.fetch_image attempts url kind reg p w = (r, p', w') ->
    exists more, Acquire.image_bytes p' = Acquire.image_bytes p ++ more /\ length more <= 1.
Proof.
  induction attempts as [| attempt attempts IH]; intros p w r p' w' H; cbn in H.
  - simplify_eq. exists []. rewrite app_nil_r. auto.
  - destruct (Acquire.image_get url w) as [[o |] w1];
      [| simplify_eq; exists []; rewrite app_nil_r; auto].
    repeat case_match; simplify_eq;
      try (match goal with
           | H : Acquire.fetch_image _ _ _ _ _ _ = _ |- _ => apply IH in H; exact H
           end);
      try (exists []; rewrite app_nil_r; cbn; auto; fail).
    eexists [_]. cbn. auto.
Qed.

Lemma fetch_regular_image_facts {F : PyFloat} attempts url :
  forall p w r p' w',
    NoDup attempts ->
    Acquire.fetch_regular_image attempts url p w = (r, p', w') ->
    Trace.count Trace.is_get (trace w') <= Trace.count Trace.is_get (trace w) + length attempts
    /\ Acquire.errors p <= Acquire.errors p'
       <= Acquire.errors p + (if decide (2 ∈ attempts) then 1 else 0)
    /\ exists more, Acquire.image_bytes p' = Acquire.image_bytes p ++ more /\ length more <= 1.
Proof.
  induction attempts as [| attempt attempts IH]; intros p w r p' w' Hnd H; cbn in H.
  - simplify_eq. split; [lia |]. split; [case_decide; lia |].
    exists []. rewrite app_nil_r. auto.
  - inversion Hnd as [| ? ? Hnotin Hnd']; subst.
    unfold Acquire.image_get in H. cbn [image_hosts emit] in H.
    assert (Hdec : (if decide (2 ∈ attempt :: attempts) then 1 else 0)
                   = (if (attempt =? 2)%nat then 1
                      else if decide (2 ∈ attempts) then 1 else 0)
                   /\ ((attempt =? 2)%nat = true ->
                       (if decide (2 ∈ attempts) then 1 else 0) = 0)).
    { destruct (attempt =? 2)%nat eqn:Ea.
      - apply Nat.eqb_eq in Ea. subst. split.
        + rewrite decide_True by left. reflexivity.
        + intros _. rewrite decide_False by exact Hnotin. reflexivity.
      - apply Nat.eqb_neq in Ea. split; [| discriminate].
        repeat case_decide; try reflexivity; exfalso;
          match goal with
          | H : 2 ∈ _ :: _, H' : ¬ 2 ∈ _ |- _ =>
              apply elem_of_cons in H; destruct H; [congruence | contradiction]
          | H : ¬ 2 ∈ _ :: _, H' : 2 ∈ _ |- _ => apply H; right; exact H'
          end. }
    destruct Hdec as [Hdec Hzero]. rewrite Hdec. clear Hdec.
    destruct (image_hosts w) as [| o rest] eqn:Eh.
    + simplify_eq. cbn [trace emit]. rewrite count_app. cbn.
      split; [lia |]. split; [destruct (attempt =? 2)%nat; [| case_decide]; lia |].
      exists []. rewrite app_nil_r. auto.
    + assert (Hlater : forall q w2 r2 q' w2',
                Acquire.fetch_regular_image attempts url q w2 = (r2, q', w2') ->
                Trace.count Trace.is_get (trace w2')
                <= Trace.count Trace.is_get (trace w2) + length attempts
                /\ Acquire.errors q <= Acquire.errors q'
                   <= Acquire.errors q + (if decide (2 ∈ attempts) then 1 else 0)
                /\ exists more, Acquire.image_bytes q' = Acquire.image_bytes q ++ more
                                /\ length more <= 1)
        by (intros; eapply IH; eauto).
      clear IH.
      destruct (attempt =? 2)%nat eqn:Ea;
        [specialize (Hzero eq_refl) | clear Hzero];
        repeat case_match; simplify_eq;
        try match goal with
        | H : Acquire.fetch_regular_image _ _ _ _ = _ |- _ =>
            apply Hlater in H; destruct H as (G1 & G2 & more & G3 & G4);
            cbn [trace emit set_image_hosts Acquire.errors Acquire.image_bytes] in G1, G2, G3;
            rewrite <- ?app_assoc, ?count_app in G1; cbn in G1;
            (split; [cbn [length]; lia |]); (split; [lia |]); exists more; auto
        end;
        cbn [trace emit set_image_hosts Acquire.errors Acquire.image_bytes length];
        rewrite <- ?app_assoc, ?count_app; cbn;
        (split; [lia |]); (split; [lia |]);
        first [ exists []; rewrite app_nil_r; cbn; auto; fail | eexists [_]; cbn; auto ].
Qed.

Lemma fetch_tier_facts {F : PyFloat} base kind chapter_hash reg imgs :
  forall p w r p' w',
    Acquire.fetch_tier imgs base kind chapter_hash reg p w = (r, p', w') ->
    Trace.count Trace.is_get (trace w') <= Trace.count Trace.is_get (trace w) + 3 * length imgs
    /\ Acquire.errors p <= Acquire.errors p' <= Acquire.errors p + length imgs
    /\ exists more, Acquire.image_bytes p' = Acquire.image_bytes p ++ more
                    /\ length more <= length imgs.
Proof.
  induction imgs as [| img imgs IH]; intros p w r p' w' H; cbn [Acquire.fetch_tier] in H.
  - simplify_eq. cbn. split; [lia |]. split; [lia |]. exists []. rewrite app_nil_r. auto.
  - destruct (Acquire.fetch_image _ _ _ _ _ _) as [[r1 p1] w1] eqn:E.
    pose proof (fetch_image_bounds _ _ _ _ _ _ _ _ _ E) as (B1 & _ & _).
    change (length (seq 0 3)) with 3 in B1.
    pose proof (fetch_image_errors _ _ _ _ _ _ _ _ _ (NoDup_seq 0 3) E) as B2.
    pose proof (fetch_image_images _ _ _ _ _ _ _ _ _ E) as (m1 & B3 & B4).
    assert (B2' : Acquire.errors p <= Acquire.errors p1 <= Acquire.errors p + 1)
      by (revert B2; case_decide; lia).
    cbn [length] in *.
    assert (Hstop : Trace.count Trace.is_get (trace w1)
                    <= Trace.count Trace.is_get (trace w) + 3 * S (length imgs)
                    /\ Acquire.errors p <= Acquire.errors p1
                       <= Acquire.errors p + S (length imgs)
                    /\ exists more, Acquire.image_bytes p1 = Acquire.image_bytes p ++ more
                                    /\ length more <= S (length imgs)).
    { split; [lia |]. split; [lia |]. exists m1. split; [exact B3 | lia]. }
    destruct r1; [| simplify_eq; exact Hstop ..].
    destruct (Acquire.tripped p1 kind reg); [simplify_eq; exact Hstop |].
    apply IH in H. destruct H as (G1 & G2 & m2 & G3 & G4).
    split; [lia |]. split; [lia |]. exists (m1 ++ m2).
    rewrite G3, B3, <- app_assoc, length_app. split; [reflexivity | lia].
Qed.

Lemma fetch_regular_facts {F : PyFloat} base chapter_hash imgs :
  forall p w r p' w',
    Acquire.fetch_regular imgs base chapter_hash p w = (r, p', w') ->
    Trace.count Trace.is_get (trace w') <= Trace.count Trace.is_get (trace w) + 3 * length imgs
    /\ Acquire.errors p <= Acquire.errors p' <= Acquire.errors p + length imgs
    /\ exists more, Acquire.image_bytes p' = Acquire.image_bytes p ++ more
                    /\ length more <= length imgs.
Proof.
  induction imgs as [| img imgs IH]; intros p w r p' w' H; cbn [Acquire.fetch_regular] in H.
  - simplify_eq. cbn. split; [lia |]. split; [lia |]. exists []. rewrite app_nil_r. auto.
  - destruct (Acquire.fetch_regular_image _ _ _ _) as [[r1 p1] w1] eqn:E.
    pose proof (fetch_regular_image_facts _ _ _ _ _ _ _ (NoDup_seq 0 3) E)
      as (B1 & B2 & m1 & B3 & B4).
    change (length (seq 0 3)) with 3 in B1.
    assert (B2' : Acquire.errors p <= Acquire.errors p1 <= Acquire.errors p + 1)
      by (revert B2; case_decide; lia).
    cbn [length] in *.
    assert (Hstop : Trace.count Trace.is_get (trace w1)
                    <= Trace.count Trace.is_get (trace w) + 3 * S (length imgs)
                    /\ Acquire.errors p <= Acquire.errors p1
                       <= Acquire.errors p + S (length imgs)
                    /\ exists more, Acquire.image_bytes p1 = Acquire.image_bytes p ++ more
                                    /\ length more <= S (length imgs)).
    { split; [lia |]. split; [lia |]. exists m1. split; [exact B3 | lia]. }
    destruct r1; [| simplify_eq; exact Hstop ..].
    apply IH in H. destruct H as (G1 & G2 & m2 & G3 & G4).
    split; [lia |]. split; [lia |]. exists (m1 ++ m2).
    rewrite G3, B3, <- app_assoc, length_app. split; [reflexivity | lia].
Qed.

Lemma fetch_chapter_facts {F : PyFloat} (base chapter_hash kind : string)
    (tier reg : list string) (n : nat) (w : world) :
  let '(res, w') := Acquire.fetch_chapter base chapter_hash kind tier reg n w in
  Trace.count Trace.is_get (trace w')
  <= Trace.count Trace.is_get (trace w) + 3 * (length tier + length reg)
  /\ match res with
     | Ret (images, errs) =>
         n <= errs <= n + length tier + length reg
         /\ length images <= Nat.max (length tier) (length reg)
     | _ => True
     end.
Proof.
  unfold Acquire.fetch_chapter.
  destruct (Acquire.fetch_tier _ _ _ _ _ _ _) as [[r1 p1] w1] eqn:E1.
  apply fetch_tier_facts in E1. destruct E1 as (G1 & G2 & m1 & G3 & G4).
  cbn [Acquire.errors Acquire.image_bytes app] in G2, G3.
  destruct r1 as [[] | e |]; [| split; [lia | exact I] ..].
  destruct (_ && _ && _).
  - destruct (Acquire.fetch_regular _ _ _ _ _) as [[r2 p2] w2] eqn:E2.
    apply fetch_regular_facts in E2. destruct E2 as (K1 & K2 & m2 & K3 & K4).
    cbn [Acquire.errors Acquire.image_bytes app] in K2, K3.
    destruct r2 as [[] | e |]; [| split; [lia | exact I] ..].
    destruct (nonempty (Acquire.image_bytes p2)); (split; [lia |]);
      rewrite K3; split; lia.
  - split; [lia |]. rewrite G3. split; lia.
Qed.

(** X13. Fetching a chapter is bounded work: at most three requests per
    file name of the tier tried, and of the full-quality tier if it falls
    back; it returns at most one image per file name of the longer tier,
    and the error counter never goes down and rises by at most one per
    file name tried. *)
Theorem chapter_fetch_is_bounded {F : PyFloat} (base chapter_hash kind : string)
    (tier reg : list string) (n : nat) (w : world) :
  let '(res, w') := Acquire.fetch_chapter base chapter_hash kind tier reg n w in
  Trace.count Trace.is_get (trace w')
  <= Trace.count Trace.is_get (trace w) + 3 * (length tier + length reg)
  /\ match res with
     | Ret (images, errs) =>
         n <= errs <= n + length tier + length reg
         /\ length images <= Nat.max (length tier) (length reg)
     | _ => True
     end.
Proof. apply fetch_chapter_facts. Qed.

Lemma append_cons c a b : (String c a ++ b)%string = String c (a ++ b)%string.
Proof. reflexivity. Qed.

Lemma prefix_empty s : String.prefix "" s = true.
Proof. destruct s; reflexivity. Qed.

Lemma prefix_app n : forall a b, String.prefix n a = true -> String.prefix n (a ++ b) = true.
Proof.
  induction n as [| c n IH]; intros a b H; [apply prefix_empty |].
  destruct a as [| c' a]; [discriminate |].
  rewrite append_cons. cbn in *. destruct (ascii_dec c c'); [apply IH; exact H | discriminate].
Qed.

Lemma prefix_self n b : String.prefix n (n ++ b) = true.
Proof.
  induction n as [| c n IH]; [apply prefix_empty |].
  rewrite append_cons. cbn. destruct (ascii_dec c c); [exact IH | contradiction].
Qed.

Lemma contains_self n b : Acquire.contains n (n ++ b) = true.
Proof.
  destruct n as [| c n].
  - destruct b; reflexivity.
  - rewrite append_cons. cbn [Acquire.contains].
    rewrite <- append_cons, prefix_self. reflexivity.
Qed.

Lemma contains_app_l n a b :
  Acquire.contains n a = true -> Acquire.contains n (a ++ b) = true.
Proof.
  induction a as [| c a IH]; intros H.
  - cbn in H. rewrite orb_false_r in H. destruct n; [| discriminate].
    destruct b; reflexivity.
  - rewrite append_cons. cbn [Acquire.contains] in *.
    apply orb_true_iff in H. apply orb_true_iff. destruct H as [H | H].
    + left. apply (prefix_app n (String c a) b H).
    + right. apply IH, H.
Qed.

Lemma contains_app_r n a b :
  Acquire.contains n b = true -> Acquire.contains n (a ++ b) = true.
Proof.
  intros H. induction a as [| c a IH]; [exact H |].
  rewrite append_cons. cbn [Acquire.contains]. rewrite IH. apply orb_true_r.
Qed.

Lemma failure_mentions_400 {F : PyFloat} (url : string) (r : response bytes) :
  is_success r = false ->
  status_code r <> 429%Z ->
  status_code r = 400%Z \/ Acquire.contains "400" url = true ->
  exists e, Acquire.judge url (Responds r) = Acquire.Failed e
            /\ Acquire.contains "400" (str e) = true.
Proof.
  intros Hs H429 Hc. unfold Acquire.judge, raise_for_status.
  apply Z.eqb_neq in H429. rewrite H429, Hs. eexists. split; [reflexivity |].
  cbn [str]. destruct Hc as [Hc | Hc].
  - rewrite Hc. change (dec 400) with "400". change (error_type 400) with "Client error".
    apply contains_app_r, contains_app_r. apply (contains_self "400").
  - do 6 apply contains_app_r. apply contains_app_l. exact Hc.
Qed.

Lemma judge_400 {F : PyFloat} url (r : response bytes) :
  status_code r = 400%Z ->
  exists e, Acquire.judge url (Responds r) = Acquire.Failed e
            /\ Acquire.contains "400" (str e) = true.
Proof.
  intros H. apply failure_mentions_400; [| | left; exact H].
  - unfold is_success. rewrite H. reflexivity.
  - rewrite H. discriminate.
Qed.

Lemma image_three_failures {F : PyFloat} url kind reg p w r1 r2 r3 e1 e2 e3 rest :
  image_hosts w = Responds r1 :: Responds r2 :: Responds r3 :: rest ->
  Acquire.judge url (Responds r1) = Acquire.Failed e1 ->
  Acquire.judge url (Responds r2) = Acquire.Failed e2 ->
  Acquire.judge url (Responds r3) = Acquire.Failed e3 ->
  Acquire.contains "400" (str e3) = true ->
  exists w',
    Acquire.fetch_image (seq 0 3) url kind reg p w
    = (Ret tt, {| Acquire.image_bytes := Acquire.image_bytes p;
                  Acquire.consecutive_400s := Acquire.consecutive_400s p + 1;
                  Acquire.errors := Acquire.errors p + 1 |}, w')
    /\ image_hosts w' = rest
    /\ Trace.count Trace.is_get (trace w') = Trace.count Trace.is_get (trace w) + 3.
Proof.
  intros Hh J1 J2 J3 Hc. change (seq 0 3) with [0; 1; 2].
  rewrite (fetch_image_step _ _ _ _ _ _ _ _ _ Hh). cbn zeta. rewrite J1.
  change (0 =? 2)%nat with false. cbv iota.
  erewrite fetch_image_step by reflexivity. cbn zeta. rewrite J2.
  change (1 =? 2)%nat with false. cbv iota.
  erewrite fetch_image_step by reflexivity. cbn zeta. rewrite J3, Hc.
  change (2 =? 2)%nat with true. cbv iota.
  match goal with
  | |- context [if ?b then _ else _] => destruct b
  end; eexists; (split; [reflexivity |]); (split; [reflexivity |]);
    cbn [trace emit set_image_hosts]; rewrite !count_app; cbn; lia.
Qed.

(** X14. What counts towards the breaker is decided on the text of the
    failure.  When the three attempts for an image all fail, the image is
    given up with one more error, and it counts as a "400" when the last
    status is 400 and also whenever the address requested contains "400",
    whatever the status. *)
Theorem breaker_counts_by_text {F : PyFloat} url kind reg p w r1 r2 r3 rest :
  image_hosts w = Responds r1 :: Responds r2 :: Responds r3 :: rest ->
  Forall (fun r => is_success r = false /\ status_code r <> 429%Z) [r1; r2; r3] ->
  status_code r3 = 400%Z \/ Acquire.contains "400" url = true ->
  exists w',
    Acquire.fetch_image (seq 0 3) url kind reg p w
    = (Ret tt, {| Acquire.image_bytes := Acquire.image_bytes p;
                  Acquire.consecutive_400s := Acquire.consecutive_400s p + 1;
                  Acquire.errors := Acquire.errors p + 1 |}, w')
    /\ image_hosts w' = rest.
Proof.
  intros Hh Hall Hc.
  inversion Hall as [| ? ? [S1 N1] Hall2]; subst.
  inversion Hall2 as [| ? ? [S2 N2] Hall3]; subst.
  inversion Hall3 as [| ? ? [S3 N3] _]; subst.
  destruct (failure_mentions_400 url r3 S3 N3 Hc) as (e3 & J3 & C3).
  assert (J : forall r, is_success r = false -> status_code r <> 429%Z ->
                        exists e, Acquire.judge url (Responds r) = Acquire.Failed e).
  { intros r S N. unfold Acquire.judge, raise_for_status.
    apply Z.eqb_neq in N. rewrite N, S. eexists. reflexivity. }
  destruct (J r1 S1 N1) as [e1 J1]. destruct (J r2 S2 N2) as [e2 J2].
  destruct (image_three_failures url kind reg p w _ _ _ _ _ _ rest Hh J1 J2 J3 C3)
    as (w' & E & Hr & _).
  exists w'. split; assumption.
Qed.

Lemma breaker_counts_by_text_witness :
  exists w',
    Acquire.fetch_image (F := Examples.decimal) (seq 0 3)
      "https://node/data-saver/a400b/1.jpg" "data-saver" ["1.png"]
      {| Acquire.image_bytes := []; Acquire.consecutive_400s := 0; Acquire.errors := 0 |}
      (Examples.world_of Examples.token_client []
         [Examples.answer 404 "Not Found" []; Examples.answer 404 "Not Found" [];
          Examples.answer 404 "Not Found" []] [])
    = (Ret tt, {| Acquire.image_bytes := []; Acquire.consecutive_400s := 0 + 1;
                  Acquire.errors := 0 + 1 |}, w')
    /\ image_hosts w' = [].
Proof.
  eapply (breaker_counts_by_text (F := Examples.decimal)
            "https://node/data-saver/a400b/1.jpg" "data-saver" ["1.png"]).
  - reflexivity.
  - repeat constructor; discriminate.
  - right. reflexivity.
Defined.

(** X15. The breaker stops the data-saver pass.  When a regular tier
    exists and images of the data-saver tier keep answering 400 until five
    of them in a row have been given up, the pass ends there: three
    requests were made for each of those images, none for the images after
    them, and no image was stored. *)
Theorem breaker_stops_the_pass {F : PyFloat} base chapter_hash reg :
  forall failing more p w rs rest,
    failing <> [] ->
    nonempty reg = true ->
    Acquire.consecutive_400s p + length failing = 5 ->
    length rs = 3 * length failing ->
    Forall (fun r => status_code r = 400%Z) rs ->
    image_hosts w = map Responds rs ++ rest ->
    exists w',
      Acquire.fetch_tier (failing ++ more) base "data-saver" chapter_hash reg p w
      = (Ret tt, {| Acquire.image_bytes := Acquire.image_bytes p;
                    Acquire.consecutive_400s := 5;
                    Acquire.errors := Acquire.errors p + length failing |}, w')
      /\ image_hosts w' = rest
      /\ Trace.count Trace.is_get (trace w')
         = Trace.count Trace.is_get (trace w) + 3 * length failing.
Proof.
  induction failing as [| img failing IH]; intros more p w rs rest Hne Hreg Hc Hlen Hall Hh;
    [congruence |].
  destruct rs as [| r1 [| r2 [| r3 rs]]]; cbn [length] in Hlen; try lia.
  inversion Hall as [| ? ? S1 Hall1]; subst.
  inversion Hall1 as [| ? ? S2 Hall2]; subst.
  inversion Hall2 as [| ? ? S3 Hall3]; subst.
  set (url := Acquire.image_url base "data-saver" chapter_hash img).
  destruct (judge_400 url r1 S1) as (e1 & J1 & _).
  destruct (judge_400 url r2 S2) as (e2 & J2 & _).
  destruct (judge_400 url r3 S3) as (e3 & J3 & C3).
  destruct (image_three_failures url "data-saver" reg p w r1 r2 r3 e1 e2 e3
              (map Responds rs ++ rest) Hh J1 J2 J3 C3) as (w1 & E & Hr & Hg).
  cbn [app Acquire.fetch_tier]. fold url. rewrite E.
  unfold Acquire.tripped. cbn [Acquire.consecutive_400s]. rewrite Hreg.
  change (String.eqb "data-saver" "data-saver") with true.
  rewrite andb_true_r, andb_true_r.
  destruct failing as [| img2 failing].
  - cbn [length] in *. destruct rs; [| cbn in Hlen; lia].
    replace (Acquire.consecutive_400s p + 1) with 5 by lia.
    change (5 <=? 5)%nat with true. cbv iota.
    exists w1. repeat split; [exact Hr | lia].
  - destruct (Nat.leb_spec 5 (Acquire.consecutive_400s p + 1)) as [Hle | Hlt];
      [cbn [length] in Hc; lia |].
    edestruct (IH more
                 {| Acquire.image_bytes := Acquire.image_bytes p;
                    Acquire.consecutive_400s := Acquire.consecutive_400s p + 1;
                    Acquire.errors := Acquire.errors p + 1 |} w1 rs rest)
      as (w' & E' & Hr' & Hg'); try assumption; try discriminate.
    + cbn [Acquire.consecutive_400s length] in *. lia.
    + cbn [length] in *. lia.
    + exists w'. cbn [Acquire.image_bytes Acquire.errors] in E'. rewrite E'.
      repeat split; [| exact Hr' | cbn [length] in *; lia].
      do 3 f_equal. cbn [length]. lia.
Qed.


Lemma breaker_stops_the_pass_witness :
  exists w',
    Acquire.fetch_tier (F := Examples.decimal) (["5.jpg"] ++ ["6.jpg"; "7.jpg"])
      "https://node" "data-saver" "h" ["5.png"]
      {| Acquire.image_bytes := []; Acquire.consecutive_400s := 4; Acquire.errors := 4 |}
      (Examples.world_of Examples.token_client []
         (map Responds (repeat Scenes.bad_request 3) ++ [Examples.answer 200 "OK" Examples.jpg])
         [])
    = (Ret tt, {| Acquire.image_bytes := []; Acquire.consecutive_400s := 5;
                  Acquire.errors := 4 + length ["5.jpg"] |}, w')
    /\ image_hosts w' = [Examples.answer 200 "OK" Examples.jpg]
    /\ Trace.count Trace.is_get (trace w')
       = Trace.count Trace.is_get
           (trace (Examples.world_of Examples.token_client []
              (map Responds (repeat Scenes.bad_request 3)
               ++ [Examples.answer 200 "OK" Examples.jpg]) [])) + 3 * length ["5.jpg"].
Proof.
  apply (breaker_stops_the_pass (F := Examples.decimal) "https://node" "h" ["5.png"]
           ["5.jpg"] ["6.jpg"; "7.jpg"]
           {| Acquire.image_bytes := []; Acquire.consecutive_400s := 4; Acquire.errors := 4 |}
           _ (repeat Scenes.bad_request 3) [Examples.answer 200 "OK" Examples.jpg]).
  - discriminate.
  - reflexivity.
  - reflexivity.
  - reflexivity.
  - repeat constructor.
  - reflexivity.
Defined.

(** ** Names and archive entries *)

Lemma split_at_app (a r : string) :
  Paths.split_at (String.length a) (a ++ r)%string = (a, r).
Proof.
  induction a as [| b a IH]; simpl.
  - destruct r; reflexivity.
  - rewrite IH. reflexivity.
Qed.

Lemma split_at_shorter (k : nat) (s : string) :
  (String.length (snd (Paths.split_at k s)) <= String.length s)%nat.
Proof.
  revert s. induction k as [| k IH]; intros [| b s]; cbn; try lia.
  specialize (IH s). destruct (Paths.split_at k s). cbn in *. lia.
Qed.

Lemma chars_upto_enough (fuel fuel' : nat) (s : string) :
  (String.length s <= fuel)%nat -> (String.length s <= fuel')%nat ->
  Paths.chars_upto fuel s = Paths.chars_upto fuel' s.
Proof.
  revert fuel' s. induction fuel as [| fuel IH]; intros fuel' [| b s] H H'; cbn in *; try lia.
  - destruct fuel'; reflexivity.
  - destruct fuel'; reflexivity.
  - destruct fuel' as [| fuel']; [lia |]. cbn.
    pose proof (split_at_shorter (Paths.width b - 1) s) as Hs.
    destruct (Paths.split_at (Paths.width b - 1) s) as [more rest]. cbn in Hs.
    f_equal. apply IH; lia.
Qed.

Lemma length_append (a b : string) :
  String.length (a ++ b)%string = (String.length a + String.length b)%nat.
Proof. induction a as [| x a IH]; simpl; [reflexivity | rewrite IH; reflexivity]. Qed.

Lemma chars_cons (c s : string) :
  Paths.wellformed c = true -> Paths.chars (c ++ s)%string = c :: Paths.chars s.
Proof.
  destruct c as [| b more]; [discriminate |]. intros H.
  apply andb_true_iff in H. destruct H as [H _]. apply Nat.eqb_eq in H. cbn in H.
  unfold Paths.chars.
  change (String b more ++ s)%string with (String b (more ++ s)%string).
  cbn [String.length Paths.chars_upto].
  replace (Paths.width b - 1)%nat with (String.length more) by lia.
  rewrite split_at_app. f_equal.
  apply chars_upto_enough; rewrite ?length_append; lia.
Qed.

Lemma chars_joined (cs : list string) :
  forallb Paths.wellformed cs = true -> Paths.chars (Paths.joined cs) = cs.
Proof.
  induction cs as [| c cs IH]; intros H; [reflexivity |].
  cbn in H. apply andb_true_iff in H. destruct H as [Hc Hcs].
  cbn [Paths.joined]. rewrite chars_cons by exact Hc. rewrite IH by exact Hcs. reflexivity.
Qed.

Lemma forallb_lstrip (f : string -> bool) (cs : list string) :
  forallb f cs = true -> forallb f (Paths.lstrip cs) = true.
Proof.
  induction cs as [| c cs IH]; intros H; [reflexivity |].
  cbn [Paths.lstrip]. destruct (Paths.isspace c); [| exact H].
  cbn in H. apply andb_true_iff in H. apply IH, H.
Qed.

Lemma forallb_rstrip (f : string -> bool) (cs : list string) :
  forallb f cs = true -> forallb f (Paths.rstrip cs) = true.
Proof.
  induction cs as [| c cs IH]; intros H; [reflexivity |].
  cbn in H. apply andb_true_iff in H. destruct H as [Hc Hs].
  cbn [Paths.rstrip]. specialize (IH Hs).
  destruct (Paths.rstrip cs) as [| c' r].
  - destruct (Paths.isspace c); [reflexivity | cbn; rewrite Hc; reflexivity].
  - cbn [forallb]. rewrite Hc. exact IH.
Qed.

Lemma forallb_filter_self {A} (f : A -> bool) (l : list A) :
  forallb f (List.filter f l) = true.
Proof.
  induction l as [| a l IH]; [reflexivity |].
  cbn. destruct (f a) eqn:E; [cbn; rewrite E; exact IH | exact IH].
Qed.

Lemma filter_all {A} (f : A -> bool) (l : list A) :
  forallb f l = true -> List.filter f l = l.
Proof.
  induction l as [| a l IH]; intros H; [reflexivity |].
  cbn in H. apply andb_true_iff in H. destruct H as [Ha Hl].
  cbn. rewrite Ha, (IH Hl). reflexivity.
Qed.

Lemma forallb_weaken {A} (f g : A -> bool) (l : list A) :
  (forall a, f a = true -> g a = true) -> forallb f l = true -> forallb g l = true.
Proof.
  intros Hfg. induction l as [| a l IH]; intros H; [reflexivity |].
  cbn in *. apply andb_true_iff in H. destruct H as [Ha Hl].
  rewrite (Hfg _ Ha), (IH Hl). reflexivity.
Qed.

Lemma rstrip_idem (cs : list string) : Paths.rstrip (Paths.rstrip cs) = Paths.rstrip cs.
Proof.
  induction cs as [| c cs IH]; [reflexivity |].
  cbn [Paths.rstrip]. destruct (Paths.rstrip cs) as [| c' r] eqn:E.
  - destruct (Paths.isspace c) eqn:Ec; [reflexivity |].
    cbn [Paths.rstrip]. rewrite Ec. reflexivity.
  - change (Paths.rstrip (c :: c' :: r))
      with (match Paths.rstrip (c' :: r) with
            | [] => if Paths.isspace c then [] else [c]
            | r0 => c :: r0
            end).
    rewrite IH. reflexivity.
Qed.

Lemma lstrip_rstrip_lstrip (cs : list string) :
  Paths.lstrip (Paths.rstrip (Paths.lstrip cs)) = Paths.rstrip (Paths.lstrip cs).
Proof.
  induction cs as [| c cs IH]; [reflexivity |].
  cbn [Paths.lstrip]. destruct (Paths.isspace c) eqn:Ec; [exact IH |].
  cbn [Paths.rstrip]. destruct (Paths.rstrip cs); rewrite ?Ec; cbn [Paths.lstrip]; rewrite Ec; reflexivity.
Qed.



Lemma kept_chars_sanitize {U : PyUnicode} (allowed s : string) :
  forallb (Paths.kept allowed)
    (Paths.rstrip (Paths.lstrip (List.filter (Paths.kept allowed) (Paths.chars s)))) = true.
Proof. apply forallb_rstrip, forallb_lstrip, forallb_filter_self. Qed.

Lemma kept_wellformed {U : PyUnicode} (allowed : string) (cs : list string) :
  forallb (Paths.kept allowed) cs = true -> forallb Paths.wellformed cs = true.
Proof.
  apply forallb_weaken. intros c H. apply andb_true_iff in H. apply H.
Qed.

Lemma chars_sanitize {U : PyUnicode} (allowed s : string) :
  Paths.chars (Paths.sanitize allowed s)
  = Paths.rstrip (Paths.lstrip (List.filter (Paths.kept allowed) (Paths.chars s))).
Proof.
  unfold Paths.sanitize. apply chars_joined, (kept_wellformed allowed), kept_chars_sanitize.
Qed.



(** X16. Sanitising a name keeps only letters, digits and the allowed
    characters, leaves no white space at either end, and is stable:
    sanitising the result again changes nothing. *)
Theorem sanitize_is_stable {U : PyUnicode} (allowed s : string) :
  let out := Paths.sanitize allowed s in
  forallb (fun c => Paths.isalnum c || str_in c (Paths.chars allowed)) (Paths.chars out) = true
  /\ Paths.strip out = out
  /\ Paths.sanitize allowed out = out.
Proof.
  cbn zeta. pose proof (kept_chars_sanitize allowed s) as Hk.
  split.
  { rewrite chars_sanitize. revert Hk. apply forallb_weaken.
    intros c H. apply andb_true_iff in H. apply H. }
  split.
  - unfold Paths.strip. rewrite chars_sanitize. unfold Paths.sanitize.
    rewrite lstrip_rstrip_lstrip, rstrip_idem. reflexivity.
  - unfold Paths.sanitize at 1. rewrite chars_sanitize.
    rewrite (filter_all _ _ Hk). unfold Paths.sanitize.
    rewrite lstrip_rstrip_lstrip, rstrip_idem. reflexivity.
Qed.



Lemma sanitize_keeps_letters_beyond_ascii :
  Paths.sanitize (U := Examples.unicode) " -_.,()[]" "../Café/進撃の巨人 " = "..Café進撃の巨人".
Proof. vm_compute. reflexivity. Qed.

Lemma image_entry_names {P : Pillow} (images : list bytes) :
  map fst (Packager.entries None images)
  = map (fun i => (Paths.pad3 (S i) ++ ".jpg")%string) (seq 0 (length images)).
Proof.
  unfold Packager.entries. cbn [app].
  change (map fst ?l) with (fst <$> l). rewrite fmap_imap.
  apply (imap_seq_0 images (fun i => (Paths.pad3 (S i) ++ ".jpg")%string)).
Qed.

Lemma ascending_take (l : list string) :
  forall k, Observe.ascending l = true -> Observe.ascending (firstn k l) = true.
Proof.
  induction l as [| a l IH]; intros k H; [destruct k; reflexivity |].
  destruct k as [| k]; [reflexivity |].
  destruct l as [| b l]; [destruct k; reflexivity |].
  cbn [Observe.ascending] in H. apply andb_true_iff in H. destruct H as [Hab Hl].
  specialize (IH k Hl). destruct k as [| k]; [reflexivity |].
  cbn [firstn Observe.ascending] in *. rewrite Hab. exact IH.
Qed.

Lemma names_of_seq_take (g : nat -> string) n m :
  n <= m -> map g (seq 0 n) = firstn n (map g (seq 0 m)).
Proof.
  intros H. rewrite firstn_map, take_seq. f_equal. f_equal. lia.
Qed.

(** X18. The pages of an archive are named so that sorting the names
    gives the page order exactly when the chapter has at most 999 images:
    from the thousandth image on, the name is a digit longer and sorts
    before earlier pages. *)
Theorem page_names_sort_in_page_order {P : Pillow} (images : list bytes) :
  Observe.ascending (map fst (Packager.entries None images)) = true
  <-> length images <= 999.
Proof.
  rewrite image_entry_names.
  set (g := fun i => (Paths.pad3 (S i) ++ ".jpg")%string).
  split.
  - intros H. destruct (Nat.le_gt_cases (length images) 999) as [Hle | Hgt]; [exact Hle |].
    apply (ascending_take _ 1000) in H.
    rewrite <- (names_of_seq_take g 1000 (length images)) in H by lia.
    vm_compute in H. discriminate.
  - intros H. rewrite (names_of_seq_take g (length images) 999 H).
    apply ascending_take. vm_compute. reflexivity.
Qed.

(** X19. The document put in the archive lists at most five tags: the
    tags after the fifth never change it. *)
Theorem genre_lists_five_tags (md : manga_data) (tags : list string) (c : chapter)
    (chapter_number chapter_title : string) :
  Packager._create_comic_info_xml (Some (Observe.with_tags tags md)) c
    chapter_number chapter_title
  = Packager._create_comic_info_xml (Some (Observe.with_tags (firstn 5 tags) md)) c
      chapter_number chapter_title.
Proof.
  unfold Packager._create_comic_info_xml, Observe.with_tags.
  cbn [md_title md_description md_year md_authors md_artists md_tags].
  rewrite firstn_firstn. change (Nat.min 5 5) with 5.
  replace (nonempty (firstn 5 tags)) with (nonempty tags) by (destruct tags; reflexivity).
  reflexivity.
Qed.

Lemma move_frame src dst fs faults p :
  p <> src -> p <> dst -> p <> Paths.join dst (Paths.basename src) ->
  snd (fst (Packager.move src dst fs faults)) !! p = fs !! p.
Proof.
  intros H1 H2 H3. unfold Packager.move.
  destruct (fs !! src) as [f |]; [| reflexivity].
  assert (Hto : forall real_dst,
            p <> real_dst ->
            snd (fst (if Packager.parent_exists real_dst fs
                      then let '(rename_fails, faults0) := Packager.next_fault faults in
                           if rename_fails
                           then let '(copy_fails, faults1) := Packager.next_fault faults0 in
                                if copy_fails
                                then (Raise (OSError "[Errno 28] No space left on device"),
                                      <[real_dst := Partial f]> fs, faults1)
                                else (Ret tt, <[real_dst := f]> (delete src fs), faults1)
                           else (Ret tt, <[real_dst := f]> (delete src fs), faults0)
                      else (Raise (OSError "[Errno 2] No such file or directory"),
                            fs, faults))) !! p
            = fs !! p).
  { intros real_dst Hr.
    destruct (Packager.parent_exists real_dst fs); [| reflexivity].
    destruct (Packager.next_fault faults) as [[] faults0];
      [destruct (Packager.next_fault faults0) as [[] faults1] |]; cbn [fst snd];
      rewrite lookup_insert_ne by congruence; rewrite ?lookup_delete_ne by congruence;
      reflexivity. }
  destruct (fs !! dst) as [[] |]; try (apply Hto; exact H2).
  destruct (fs !! Paths.join dst (Paths.basename src)); [reflexivity |].
  apply Hto. exact H3.
Qed.

(** X20. Packaging a chapter touches nothing but its own files: every
    other path of the disk keeps its content, and no request is sent.
    The paths it may write are the temporary archive, the final archive,
    and, when the final path is a directory, the temporary name inside
    it. *)
Theorem package_touches_its_own_paths tmp_path final_path todo w p :
  p <> tmp_path -> p <> final_path ->
  p <> Paths.join final_path (Paths.basename tmp_path) ->
  let '(r, w') := Packager.package tmp_path final_path todo w in
  files w' !! p = files w !! p
  /\ trace w' = trace w
  /\ image_hosts w' = image_hosts w
  /\ self_client w' = self_client w.
Proof.
  intros H1 H2 H3. unfold Packager.package.
  destruct (Packager.parent_exists tmp_path (files w)); cbn [negb];
    [| repeat split; reflexivity].
  destruct (files w !! tmp_path) as [[] |] eqn:Et; try (repeat split; reflexivity).
  all: cbn [disk_faults set_files files].
  all: destruct (Packager.write_entries todo [] (disk_faults w)) as [[r zf] faults].
  all: destruct r as [[] | e |]; cbn [files set_files set_disk_faults disk_faults].
  all: try (repeat split; try reflexivity;
            rewrite ?lookup_insert_ne by congruence; reflexivity).
  all: pose proof (move_frame tmp_path final_path
                     (<[tmp_path := Zip zf]> (<[tmp_path := Zip []]> (files w)))
                     faults p H1 H2 H3) as Hm.
  all: destruct (Packager.move _ _ _ _) as [[r fs] faults']; cbn [fst snd] in Hm.
  all: destruct r; cbn [files set_files set_disk_faults trace image_hosts self_client];
       (split; [rewrite Hm, !lookup_insert_ne by congruence; reflexivity |]);
       repeat split; reflexivity.
Qed.

Lemma package_touches_its_own_paths_witness :
  let w := Pipeline.write_file "/library/m1/c0.cbz" (Zip [])
             (Examples.world_of Examples.token_client [] [] []) in
  let '(r, w') := Packager.package "/app/data/c1.cbz.tmp" "/library/m1/c1.cbz"
                    [("001.jpg", Raw Examples.jpg)] w in
  files w' !! "/library/m1/c0.cbz" = files w !! "/library/m1/c0.cbz"
  /\ trace w' = trace w
  /\ image_hosts w' = image_hosts w
  /\ self_client w' = self_client w.
Proof.
  intros w.
  apply (package_touches_its_own_paths "/app/data/c1.cbz.tmp" "/library/m1/c1.cbz"
           [("001.jpg", Raw Examples.jpg)] w "/library/m1/c0.cbz");
    vm_compute; discriminate.
Defined.

(** ** Series metadata *)

Lemma write_file_keeps p x w :
  Pipeline.exists_path p w = false ->
  forall q f, files w !! q = Some f -> files (Pipeline.write_file p x w) !! q = Some f.
Proof.
  unfold Pipeline.exists_path. intros Hp q f Hq. cbn [Pipeline.write_file set_files files].
  destruct (decide (q = p)) as [-> | Hne].
  - rewrite Hq in Hp. discriminate.
  - rewrite lookup_insert_ne by congruence. exact Hq.
Qed.

Lemma write_file_frame p x w q :
  q <> p -> files (Pipeline.write_file p x w) !! q = files w !! q.
Proof.
  intros Hne. cbn [Pipeline.write_file set_files files].
  apply lookup_insert_ne. congruence.
Qed.

(** X21. Fetching the series metadata never overwrites or removes a file
    that is already there, writes nowhere but to [cover.jpg] and
    [series.json] of the series directory, never raises, and sends at
    most one request. *)
Theorem series_metadata_only_adds series_dir md manga_id w :
  let '(r, w') := Pipeline._download_series_metadata series_dir md manga_id w in
  (forall p f, files w !! p = Some f -> files w' !! p = Some f)
  /\ (forall p, p <> Paths.join series_dir "cover.jpg" ->
                p <> Paths.join series_dir "series.json" ->
                files w' !! p = files w !! p)
  /\ (forall e, r <> Raise e)
  /\ Trace.count Trace.is_get (trace w') <= Trace.count Trace.is_get (trace w) + 1.
Proof.
  unfold Pipeline._download_series_metadata.
  set (cover := Paths.join series_dir "cover.jpg").
  set (sj := Paths.join series_dir "series.json").
  assert (Hsj : forall v,
            (forall p f, files w !! p = Some f -> files v !! p = Some f) ->
            (forall p, p <> cover -> p <> sj -> files v !! p = files w !! p) ->
            let v' := if negb (Pipeline.exists_path sj v)
                      then Pipeline.write_file sj (SeriesJson md manga_id) v else v in
            (forall p f, files w !! p = Some f -> files v' !! p = Some f)
            /\ (forall p, p <> cover -> p <> sj -> files v' !! p = files w !! p)
            /\ trace v' = trace v).
  { intros v K1 K2. cbn zeta. destruct (Pipeline.exists_path sj v) eqn:E; cbn [negb].
    - auto.
    - split; [| split; [| reflexivity]].
      + intros p f Hp. apply write_file_keeps; auto.
      + intros p Hc Hs. rewrite write_file_frame by exact Hs. auto. }
  destruct (Pipeline.exists_path cover w && Pipeline.exists_path sj w).
  { repeat split; auto; try discriminate; lia. }
  destruct (Pipeline.exists_path cover w) eqn:Ec; cbn [negb].
  { destruct (Hsj w) as (A & B & C); auto.
    repeat split; auto; try discriminate. rewrite C. lia. }
  destruct (md_cover md) as [cover_filename |];
    [| destruct (Hsj w) as (A & B & C); auto;
       repeat split; auto; try discriminate; rewrite C; lia].
  destruct (truthy cover_filename);
    [| destruct (Hsj w) as (A & B & C); auto;
       repeat split; auto; try discriminate; rewrite C; lia].
  cbn [image_hosts emit].
  destruct (image_hosts w) as [| o rest].
  { repeat split; auto; try discriminate. cbn [trace emit]. rewrite count_app. cbn. lia. }
  match goal with
  | |- context [emit [Leave api_rps] ?x] => set (w1 := emit [Leave api_rps] x)
  end.
  assert (F1 : files w1 = files w) by reflexivity.
  assert (T1 : Trace.count Trace.is_get (trace w1) = Trace.count Trace.is_get (trace w) + 1).
  { subst w1. cbn [trace emit set_image_hosts]. rewrite !count_app. cbn. lia. }
  assert (Hplain : let '(r, w') := (Ret tt : result unit,
                      if negb (Pipeline.exists_path sj w1)
                      then Pipeline.write_file sj (SeriesJson md manga_id) w1 else w1) in
            (forall p f, files w !! p = Some f -> files w' !! p = Some f)
            /\ (forall p, p <> cover -> p <> sj -> files w' !! p = files w !! p)
            /\ (forall e, r <> Raise e)
            /\ Trace.count Trace.is_get (trace w') <= Trace.count Trace.is_get (trace w) + 1).
  { destruct (Hsj w1) as (A & B & C); [rewrite F1; auto | rewrite F1; auto |].
    repeat split; auto; try discriminate. rewrite C. lia. }
  destruct o as [r | e]; [| exact Hplain].
  destruct (raise_for_status _ r); [exact Hplain |].
  set (w2 := Pipeline.write_file cover (Blob (body r)) w1).
  assert (Ec1 : Pipeline.exists_path cover w1 = false) by exact Ec.
  destruct (Hsj w2) as (A & B & C).
  - intros p f Hp. apply write_file_keeps; [exact Ec1 | rewrite F1; exact Hp].
  - intros p Hc Hs. subst w2. rewrite write_file_frame by exact Hc. rewrite F1. reflexivity.
  - repeat split; auto; try discriminate. rewrite C. subst w2. cbn [trace Pipeline.write_file set_files].
    lia.
Qed.


(** ** The chapter loop *)

Lemma offline_chapter {F : PyFloat} {P : Pillow} {U : PyUnicode} self mid title md c k api w :
  Observe.offline c = true ->
  Pipeline.process_chapter self mid title md c k api w
  = (Ret (Pipeline.skip (truthy (ch_id c)) false false k), api, w).
Proof.
  unfold Observe.offline, Pipeline.process_chapter. intros H.
  destruct (truthy (ch_id c)); cbn [negb orb] in *; [rewrite H |]; reflexivity.
Qed.

(** X22. Chapters without an identifier and chapters hosted elsewhere
    cost nothing: a run of them is skipped without a request and without
    touching the disk.  Each counts as skipped; only those with an
    identifier count as external, and none counts as an error. *)
Theorem offline_chapters_cost_nothing {F : PyFloat} {P : Pillow} {U : PyUnicode} (self : Pipeline.manager)
    (mid : string) (title : option string) (md : option manga_data)
    (chs : list chapter) (k : Pipeline.counters)
    (api : list (outcome (option at_home))) (w : world) :
  forallb Observe.offline chs = true ->
  exists k',
    Pipeline.chapter_loop self mid title md chs k api w = (Ret k', api, w)
    /\ Pipeline.created_files k' = Pipeline.created_files k
    /\ Pipeline.skipped_chapters k' = Pipeline.skipped_chapters k + length chs
    /\ Pipeline.skipped_external k'
       = Pipeline.skipped_external k + length (List.filter (fun c => truthy (ch_id c)) chs)
    /\ Pipeline.skipped_no_images k' = Pipeline.skipped_no_images k
    /\ Pipeline.errors k' = Pipeline.errors k.
Proof.
  revert k. induction chs as [| c chs IH]; intros k H.
  - exists k. cbn. repeat split; lia.
  - cbn [forallb] in H. apply andb_true_iff in H. destruct H as [Hc Hrest].
    cbn [Pipeline.chapter_loop]. rewrite (offline_chapter _ _ _ _ _ _ _ _ Hc).
    destruct (IH (Pipeline.skip (truthy (ch_id c)) false false k) Hrest)
      as (k' & E & A1 & A2 & A3 & A4 & A5).
    exists k'. split; [exact E |].
    cbn [Pipeline.skip Pipeline.created_files Pipeline.skipped_chapters
         Pipeline.skipped_external Pipeline.skipped_no_images Pipeline.errors] in *.
    cbn [List.filter length]. rewrite A1, A2, A3, A4, A5.
    destruct (truthy (ch_id c)); cbn [length]; repeat split; lia.
Qed.

Lemma offline_chapters_cost_nothing_witness :
  exists k',
    Pipeline.chapter_loop (F := Examples.decimal) (P := Examples.all_jpeg) (U := Examples.unicode)
      Examples.manager0 "m1" None None
      [Examples.ch "" None (Some "1");
       {| ch_id := Some "c2"; ch_volume := None; ch_chapter := Some "2";
          ch_externalUrl := Some "https://elsewhere/2"; ch_title := None;
          ch_translatedLanguage := Some "en" |}]
      Pipeline.zero [] (Examples.world_of Examples.token_client [] [] [])
    = (Ret k', [], Examples.world_of Examples.token_client [] [] [])
    /\ Pipeline.created_files k' = []
    /\ Pipeline.skipped_chapters k' = 0 + 2
    /\ Pipeline.skipped_external k' = 0 + 1
    /\ Pipeline.skipped_no_images k' = 0
    /\ Pipeline.errors k' = 0.
Proof.
  apply (offline_chapters_cost_nothing (F := Examples.decimal) (P := Examples.all_jpeg) (U := Examples.unicode)
           Examples.manager0 "m1" None None
           [Examples.ch "" None (Some "1");
            {| ch_id := Some "c2"; ch_volume := None; ch_chapter := Some "2";
               ch_externalUrl := Some "https://elsewhere/2"; ch_title := None;
               ch_translatedLanguage := Some "en" |}]).
  reflexivity.
Defined.

Lemma process_chapter_grows {F : PyFloat} {P : Pillow} {U : PyUnicode} self mid title md c k api w k' api' w' :
  Pipeline.process_chapter self mid title md c k api w = (Ret k', api', w') ->
  (exists new, Pipeline.created_files k' = Pipeline.created_files k ++ new /\ length new <= 1)
  /\ Pipeline.skipped_chapters k <= Pipeline.skipped_chapters k'
  /\ Pipeline.skipped_external k <= Pipeline.skipped_external k'
  /\ Pipeline.skipped_no_images k <= Pipeline.skipped_no_images k'
  /\ Pipeline.errors k <= Pipeline.errors k'.
Proof.
  assert (Hskip : forall a b e q,
            Pipeline.errors k <= Pipeline.errors q ->
            Pipeline.created_files q = Pipeline.created_files k ->
            Pipeline.skipped_chapters q = Pipeline.skipped_chapters k ->
            Pipeline.skipped_external q = Pipeline.skipped_external k ->
            Pipeline.skipped_no_images q = Pipeline.skipped_no_images k ->
            (exists new, Pipeline.created_files (Pipeline.skip a b e q)
                         = Pipeline.created_files k ++ new /\ length new <= 1)
            /\ Pipeline.skipped_chapters k <= Pipeline.skipped_chapters (Pipeline.skip a b e q)
            /\ Pipeline.skipped_external k <= Pipeline.skipped_external (Pipeline.skip a b e q)
            /\ Pipeline.skipped_no_images k <= Pipeline.skipped_no_images (Pipeline.skip a b e q)
            /\ Pipeline.errors k <= Pipeline.errors (Pipeline.skip a b e q)).
  { intros a b e q H1 H2 H3 H4 H5. cbn [Pipeline.skip Pipeline.created_files
      Pipeline.skipped_chapters Pipeline.skipped_external Pipeline.skipped_no_images
      Pipeline.errors].
    split; [exists []; rewrite app_nil_r; split; [exact H2 | cbn; lia] |].
    repeat split; lia. }
  unfold Pipeline.process_chapter. intros H.
  destruct (truthy (ch_id c)); cbn [negb] in H;
    [| simplify_eq; apply Hskip; reflexivity || lia].
  destruct (truthy (ch_externalUrl c)); [simplify_eq; apply Hskip; reflexivity || lia |].
  destruct (Client.get_at_home _ _ _) as [[r1 api1] w1].
  destruct r1 as [ah | e |]; [| simplify_eq; apply Hskip; reflexivity || lia | discriminate].
  destruct (Acquire.choose_tier _ ah) as [tier kind].
  destruct (negb _); [simplify_eq; apply Hskip; reflexivity || lia |].
  pose proof (fetch_chapter_facts (default "" (baseUrl ah)) (default "" (hash ah)) kind tier
                (data ah) (Pipeline.errors k) w1) as Hf.
  destruct (Acquire.fetch_chapter _ _ _ _ _ _ _) as [r2 w2].
  destruct r2 as [[images errs] | e |]; try discriminate.
  destruct Hf as (_ & [Herr _] & _).
  destruct (negb (nonempty images)).
  - simplify_eq. apply Hskip; cbn; reflexivity || lia.
  - destruct (Pipeline.package_chapter _ _ _ _ _ _ _ _ _) as [r3 w3] eqn:E3.
    destruct r3 as [k3 | e |]; try discriminate. simplify_eq.
    apply package_chapter_counts in E3.
    destruct E3 as ([path Hp] & B1 & B2 & B3 & B4).
    cbn [Pipeline.with_errors Pipeline.created_files Pipeline.skipped_chapters
         Pipeline.skipped_external Pipeline.skipped_no_images Pipeline.errors] in *.
    split; [exists [path]; split; [exact Hp | cbn; lia] |].
    repeat split; lia.
Qed.

(** X23. Over the chapters of a job the counters only grow: files
    already recorded stay recorded, in order, with at most one more per
    chapter, and neither the skip counters nor the error counter ever go
    down, the fallback's reset of the error counter included. *)
Theorem counters_only_grow {F : PyFloat} {P : Pillow} {U : PyUnicode} self mid title md chs :
  forall k api w k' api' w',
    Pipeline.chapter_loop self mid title md chs k api w = (Ret k', api', w') ->
    (exists new, Pipeline.created_files k' = Pipeline.created_files k ++ new
                 /\ length new <= length chs)
    /\ Pipeline.skipped_chapters k <= Pipeline.skipped_chapters k'
    /\ Pipeline.skipped_external k <= Pipeline.skipped_external k'
    /\ Pipeline.skipped_no_images k <= Pipeline.skipped_no_images k'
    /\ Pipeline.errors k <= Pipeline.errors k'.
Proof.
  induction chs as [| c chs IH]; intros k api w k' api' w' H; cbn [Pipeline.chapter_loop] in H.
  - simplify_eq. split; [exists []; rewrite app_nil_r; split; [reflexivity | cbn; lia] |].
    repeat split; lia.
  - destruct (Pipeline.process_chapter _ _ _ _ _ _ _ _) as [[r1 api1] w1] eqn:E1.
    destruct r1 as [k1 | e |]; try discriminate.
    apply process_chapter_grows in E1. apply IH in H.
    destruct E1 as ((n1 & C1 & L1) & S1 & S2 & S3 & S4).
    destruct H as ((n2 & C2 & L2) & T1 & T2 & T3 & T4).
    split; [exists (n1 ++ n2); split;
            [rewrite C2, C1, app_assoc; reflexivity | rewrite length_app; cbn [length]; lia] |].
    repeat split; lia.
Qed.


Lemma counters_only_grow_witness :
  let w := Examples.world_of Examples.token_client [] Examples.saver_gone [] in
  let '(r, _, _) :=
    Pipeline.chapter_loop (F := Examples.decimal) (P := Examples.all_jpeg) (U := Examples.unicode)
      Examples.manager0 "m1" None None [Examples.ch "c1" (Some "1") (Some "1")] Pipeline.zero
      [Examples.answer 200 "OK" (Some Examples.two_tiers)] w in
  match r with
  | Ret k' =>
      Pipeline.created_files k' = ["/library/m1/c1.cbz"]
      /\ (exists new, Pipeline.created_files k' = [] ++ new /\ length new <= 1)
      /\ 0 <= Pipeline.errors k'
  | _ => False
  end.
Proof.
  intros w.
  destruct (Pipeline.chapter_loop _ _ _ _ _ _ _ w) as [[r api'] w'] eqn:E.
  assert (Hr : r = Ret {| Pipeline.created_files := ["/library/m1/c1.cbz"];
                          Pipeline.skipped_chapters := 0; Pipeline.skipped_external := 0;
                          Pipeline.skipped_no_images := 0; Pipeline.errors := 1;
                          Pipeline.metadata_downloaded := false |}).
  { pose proof (f_equal (fun x => fst (fst x)) E) as E'. cbn [fst] in E'.
    rewrite <- E'. vm_compute. reflexivity. }
  subst r.
  destruct (counters_only_grow _ _ _ _ _ _ _ _ _ _ _ E) as (H1 & _ & _ & _ & H5).
  split; [reflexivity |]. split; [exact H1 | exact H5].
Defined.

(** ** The job table and the queue *)

Lemma serve_queue srv c :
  Worker.queue (Worker.serve srv c) = Worker.queue srv ++ Observe.added [c].
Proof.
  destruct c as [job_id req | job_id | job_id]; cbn.
  - reflexivity.
  - unfold Worker.abort_job. rewrite app_nil_r.
    destruct (Worker.jobs srv !! job_id) as [j |]; [| reflexivity].
    destruct (Worker.is_status (Worker.j_status j) Worker.running); [reflexivity |].
    destruct (Worker.is_status (Worker.j_status j) Worker.queued); reflexivity.
  - unfold Worker.cancel_job. rewrite app_nil_r.
    destruct (Worker.jobs srv !! job_id) as [j |]; [| reflexivity].
    destruct (negb _); reflexivity.
Qed.

Lemma added_app a b : Observe.added (a ++ b) = Observe.added a ++ Observe.added b.
Proof. apply omap_app. Qed.

Lemma serve_all_queue cs :
  forall srv, Worker.queue (fold_left Worker.serve cs srv) = Worker.queue srv ++ Observe.added cs.
Proof.
  induction cs as [| c cs IH]; intros srv; [cbn; rewrite app_nil_r; reflexivity |].
  cbn [fold_left]. rewrite IH, serve_queue.
  change (c :: cs) with ([c] ++ cs). rewrite added_app, app_assoc. reflexivity.
Qed.

Lemma serve_terminal srv c job_id j :
  Worker.jobs srv !! job_id = Some j ->
  Observe.terminal (Worker.j_status j) = true ->
  job_id ∉ Observe.added [c] ->
  Worker.jobs (Worker.serve srv c) !! job_id = Some j.
Proof.
  intros Hj Ht Hc. destruct c as [other req | other | other]; cbn.
  - rewrite lookup_insert_ne; [exact Hj |]. intros ->. apply Hc. cbn. left.
  - unfold Worker.abort_job.
    destruct (decide (other = job_id)) as [-> | Hne].
    + rewrite Hj. destruct (Worker.j_status j); cbn in Ht |- *; try discriminate; exact Hj.
    + destruct (Worker.jobs srv !! other) as [j' |]; [| exact Hj].
      destruct (Worker.is_status (Worker.j_status j') Worker.running);
        [cbn; rewrite lookup_alter_ne by congruence; exact Hj |].
      destruct (Worker.is_status (Worker.j_status j') Worker.queued);
        [cbn; rewrite lookup_alter_ne by congruence; exact Hj | exact Hj].
  - unfold Worker.cancel_job.
    destruct (decide (other = job_id)) as [-> | Hne].
    + rewrite Hj. destruct (Worker.j_status j); cbn in Ht |- *; try discriminate; exact Hj.
    + destruct (Worker.jobs srv !! other) as [j' |]; [| exact Hj].
      destruct (negb _); [exact Hj |].
      cbn. rewrite lookup_alter_ne by congruence. exact Hj.
Qed.

Lemma serve_all_terminal cs :
  forall srv job_id j,
    Worker.jobs srv !! job_id = Some j ->
    Observe.terminal (Worker.j_status j) = true ->
    job_id ∉ Observe.added cs ->
    Worker.jobs (fold_left Worker.serve cs srv) !! job_id = Some j.
Proof.
  induction cs as [| c cs IH]; intros srv job_id j Hj Ht Hc; [exact Hj |].
  cbn [fold_left]. change (c :: cs) with ([c] ++ cs) in Hc. rewrite added_app in Hc.
  apply not_elem_of_app in Hc. destruct Hc as [Hc1 Hc2].
  apply IH; [apply serve_terminal; assumption | exact Ht | exact Hc2].
Qed.

(** X24. The handlers only ever add to the queue.  Whatever requests are
    served, the queue afterwards is the queue before followed by the
    identifiers of the jobs added, in order: neither an abort nor a
    cancel takes an identifier out. *)
Theorem handlers_never_dequeue (cs : list Worker.call) (srv : Worker.server) :
  Worker.queue (fold_left Worker.serve cs srv) = Worker.queue srv ++ Observe.added cs.
Proof. apply serve_all_queue. Qed.

(** X25. A finished job is final for the handlers: once a job is
    completed, failed, canceled or aborted, no abort or cancel request
    changes its record, and requests about other jobs do not either. *)
Theorem finished_jobs_are_final (cs : list Worker.call) (srv : Worker.server)
    (job_id : string) (j : Worker.job) :
  Worker.jobs srv !! job_id = Some j ->
  Observe.terminal (Worker.j_status j) = true ->
  job_id ∉ Observe.added cs ->
  Worker.jobs (fold_left Worker.serve cs srv) !! job_id = Some j.
Proof. apply serve_all_terminal. Qed.

Lemma finished_jobs_are_final_witness :
  Worker.jobs
    (fold_left Worker.serve
       [Worker.AbortJob "j1"; Worker.CancelJob "j1";
        Worker.AddJob "j2" (Examples.job_of None None); Worker.AbortJob "j2"]
       Examples.canceled_server) !! "j1"
  = Some (Examples.job_in Worker.canceled).
Proof.
  apply finished_jobs_are_final.
  - vm_compute. reflexivity.
  - reflexivity.
  - cbn. intros H. apply elem_of_cons in H. destruct H as [H | H]; [discriminate |].
    apply elem_of_nil in H. exact H.
Defined.

Lemma serve_running cs :
  forall srv job_id j,
    Worker.jobs srv !! job_id = Some j ->
    Worker.j_status j = Worker.running ->
    job_id ∉ Observe.added cs ->
    Worker.jobs (fold_left Worker.serve cs srv) !! job_id
    = Some (if Observe.aborts job_id cs
            then Worker.set_error "Aborted by user" (Worker.set_status Worker.aborted j)
            else j).
Proof.
  induction cs as [| c cs IH]; intros srv job_id j Hj Hs Hc; [exact Hj |].
  change (c :: cs) with ([c] ++ cs) in Hc. rewrite added_app in Hc.
  apply not_elem_of_app in Hc. destruct Hc as [Hc1 Hc2].
  cbn [fold_left Observe.aborts existsb].
  destruct c as [other req | other | other].
  - cbn [orb]. apply IH; [| exact Hs | exact Hc2].
    cbn. rewrite lookup_insert_ne; [exact Hj |]. intros ->. apply Hc1. cbn. left.
  - destruct (String.eqb_spec other job_id) as [-> | Hne]; cbn [orb].
    + apply serve_all_terminal; [| reflexivity | exact Hc2].
      cbn. unfold Worker.abort_job. rewrite Hj, Hs. cbn.
      rewrite lookup_alter_eq, Hj. reflexivity.
    + apply IH; [| exact Hs | exact Hc2].
      cbn. unfold Worker.abort_job.
      destruct (Worker.jobs srv !! other) as [j' |]; [| exact Hj].
      destruct (Worker.is_status (Worker.j_status j') Worker.running);
        [cbn; rewrite lookup_alter_ne by congruence; exact Hj |].
      destruct (Worker.is_status (Worker.j_status j') Worker.queued);
        [cbn; rewrite lookup_alter_ne by congruence; exact Hj | exact Hj].
  - cbn [orb]. apply IH; [| exact Hs | exact Hc2].
    cbn. unfold Worker.cancel_job.
    destruct (decide (other = job_id)) as [-> | Hne].
    + rewrite Hj, Hs. exact Hj.
    + destruct (Worker.jobs srv !! other) as [j' |]; [| exact Hj].
      destruct (negb _); [exact Hj |].
      cbn. rewrite lookup_alter_ne by congruence. exact Hj.
Qed.

(** X26. A job aborted while it waits is never run.  When the worker
    takes its identifier from the queue it drops it: no request is sent,
    the disk is untouched, and the record stays aborted with the abort
    message and no result. *)
Theorem aborted_before_start_is_never_run {F : PyFloat} {P : Pillow} {U : PyUnicode}
    (m : Pipeline.manager) (during : list Worker.call) (srv : Worker.server)
    (api : Pipeline.apis) (w : world) (job_id : string) (rest : list string) (j : Worker.job) :
  Worker.queue srv = job_id :: rest ->
  Worker.jobs srv !! job_id = Some j ->
  Worker.j_status j = Worker.queued ->
  let srv1 := snd (Worker.abort_job job_id srv) in
  Worker.worker_turn m during srv1 api w
  = (Worker.Discarded job_id,
     {| Worker.jobs := Worker.jobs srv1; Worker.queue := rest |}, api, w)
  /\ Worker.jobs srv1 !! job_id
     = Some {| Worker.j_id := Worker.j_id j; Worker.j_status := Worker.aborted;
               Worker.j_request := Worker.j_request j; Worker.j_result := Worker.j_result j;
               Worker.j_error := Some "Aborted by user" |}.
Proof.
  intros Hq Hj Hs. cbn zeta. unfold Worker.abort_job. rewrite Hj, Hs. cbn [Worker.is_status snd].
  assert (Hl : Worker.jobs
                 (Worker.update job_id
                    (fun j => Worker.set_error "Aborted by user"
                                (Worker.set_status Worker.aborted j)) srv) !! job_id
               = Some {| Worker.j_id := Worker.j_id j; Worker.j_status := Worker.aborted;
                         Worker.j_request := Worker.j_request j;
                         Worker.j_result := Worker.j_result j;
                         Worker.j_error := Some "Aborted by user" |}).
  { cbn. rewrite lookup_alter_eq, Hj. reflexivity. }
  split; [| exact Hl].
  unfold Worker.worker_turn. cbn [Worker.update Worker.queue Worker.jobs] in *.
  rewrite Hq, Hl. reflexivity.
Qed.

Lemma aborted_before_start_is_never_run_witness :
  let srv := snd (Worker.add_job "j1" (Examples.job_of None None) Scenes.empty_server) in
  let srv1 := snd (Worker.abort_job "j1" srv) in
  let w := Examples.world_of Examples.token_client [] [] [] in
  Worker.worker_turn (F := Examples.decimal) (P := Examples.all_jpeg) (U := Examples.unicode)
    Examples.manager0 [] srv1 Examples.quiet_apis w
  = (Worker.Discarded "j1",
     {| Worker.jobs := Worker.jobs srv1; Worker.queue := [] |}, Examples.quiet_apis, w)
  /\ Worker.jobs srv1 !! "j1"
     = Some {| Worker.j_id := "j1"; Worker.j_status := Worker.aborted;
               Worker.j_request := Examples.job_of None None; Worker.j_result := None;
               Worker.j_error := Some "Aborted by user" |}.
Proof.
  intros srv srv1 w.
  apply (aborted_before_start_is_never_run (F := Examples.decimal) (P := Examples.all_jpeg) (U := Examples.unicode)
           Examples.manager0 [] srv Examples.quiet_apis w "j1" []
           (Examples.job_in Worker.queued)).
  - reflexivity.
  - vm_compute. reflexivity.
  - reflexivity.
Defined.

(** X27. What becomes of a job the worker runs.  The job is run to its
    end whatever is requested meanwhile.  If the run returns, the result
    is attached and the job is completed, unless an abort came in during
    the run: then it stays aborted, with the result attached all the
    same.  If the run raises, the job is failed with the text of the
    exception, abort or not.  The queue keeps its other identifiers,
    followed by the jobs added during the run. *)
Theorem run_outcome {F : PyFloat} {P : Pillow} {U : PyUnicode} m during srv api w job_id rest j r api' w' :
  Worker.queue srv = job_id :: rest ->
  Worker.jobs srv !! job_id = Some j ->
  Worker.is_status (Worker.j_status j) Worker.aborted = false ->
  job_id ∉ Observe.added during ->
  Pipeline.process_job m (Worker.j_request j) api w = (r, api', w') ->
  let '(t, srv', a, v) := Worker.worker_turn m during srv api w in
  a = api' /\ v = w'
  /\ Worker.queue srv' = rest ++ Observe.added during
  /\ exists j',
       Worker.jobs srv' !! job_id = Some j'
       /\ Worker.j_request j' = Worker.j_request j
       /\ match r with
          | Ret res =>
              t = Worker.Executed job_id
              /\ Worker.j_result j' = Some res
              /\ Worker.j_status j'
                 = (if Observe.aborts job_id during then Worker.aborted else Worker.completed)
              /\ Worker.j_error j'
                 = (if Observe.aborts job_id during then Some "Aborted by user"
                    else Worker.j_error j)
          | Raise e =>
              t = Worker.Executed job_id
              /\ Worker.j_result j' = Worker.j_result j
              /\ Worker.j_status j' = Worker.failed
              /\ Worker.j_error j' = Some (str e)
          | Pending => t = Worker.Executing job_id
          end.
Proof.
  intros Hq Hj Hs Hc Hp. unfold Worker.worker_turn. rewrite Hq. cbn [Worker.jobs].
  rewrite Hj, Hs, Hp.
  set (srv0 := Worker.update job_id (Worker.set_status Worker.running)
                 {| Worker.jobs := Worker.jobs srv; Worker.queue := rest |}).
  assert (H0 : Worker.jobs srv0 !! job_id = Some (Worker.set_status Worker.running j)).
  { subst srv0. cbn. rewrite lookup_alter_eq, Hj. reflexivity. }
  pose proof (serve_running during srv0 job_id _ H0 eq_refl Hc) as Hd.
  pose proof (serve_all_queue during srv0) as Hqd.
  change (Worker.queue srv0) with rest in Hqd.
  set (srvd := fold_left Worker.serve during srv0) in *.
  destruct r as [res | e |].
  - rewrite Hd. split; [reflexivity |]. split; [reflexivity |].
    destruct (Observe.aborts job_id during); cbn [Worker.is_status Worker.j_status
      Worker.set_error Worker.set_status Worker.update Worker.queue Worker.jobs].
    + split; [exact Hqd |]. rewrite lookup_alter_eq, Hd. cbn. eexists. split; [reflexivity |].
      cbn. auto.
    + split; [exact Hqd |]. rewrite lookup_alter_eq, lookup_alter_eq, Hd. cbn.
      eexists. split; [reflexivity |]. cbn. auto.
  - split; [reflexivity |]. split; [reflexivity |].
    cbn [Worker.update Worker.queue Worker.jobs]. split; [exact Hqd |].
    rewrite lookup_alter_eq, Hd.
    destruct (Observe.aborts job_id during); cbn; eexists; (split; [reflexivity |]); cbn; auto.
  - split; [reflexivity |]. split; [reflexivity |]. split; [exact Hqd |].
    rewrite Hd. eexists. split; [reflexivity |].
    destruct (Observe.aborts job_id during); cbn; auto.
Qed.


Lemma run_outcome_witness :
  let srv := snd (Worker.add_job "j1" (Examples.job_of None None) Scenes.empty_server) in
  let w := Examples.world_of Examples.token_client [] [] [] in
  let '(t, srv', _, _) :=
    Worker.worker_turn (F := Examples.decimal) (P := Examples.all_jpeg) (U := Examples.unicode)
      Examples.manager0 [Worker.AbortJob "j1"] srv Examples.quiet_apis w in
  t = Worker.Executed "j1"
  /\ Worker.queue srv' = []
  /\ exists j', Worker.jobs srv' !! "j1" = Some j'
                /\ Worker.j_status j' = Worker.aborted
                /\ Worker.j_error j' = Some "Aborted by user"
                /\ is_Some (Worker.j_result j').
Proof.
  intros srv w.
  destruct (Pipeline.process_job (F := Examples.decimal) (P := Examples.all_jpeg) (U := Examples.unicode)
              Examples.manager0 (Examples.job_of None None) Examples.quiet_apis w)
    as [[r api'] w'] eqn:E.
  assert (Hr : exists res, r = Ret res).
  { pose proof (f_equal (fun x => fst (fst x)) E) as E'. cbn [fst] in E'.
    rewrite <- E'. vm_compute. eexists. reflexivity. }
  destruct Hr as [res ->].
  assert (Hj : Worker.jobs srv !! "j1" = Some (Examples.job_in Worker.queued))
    by (vm_compute; reflexivity).
  assert (Hc : "j1" ∉ Observe.added [Worker.AbortJob "j1"]).
  { cbn. intros H. apply elem_of_nil in H. exact H. }
  pose proof (run_outcome (F := Examples.decimal) (P := Examples.all_jpeg) (U := Examples.unicode)
                Examples.manager0 [Worker.AbortJob "j1"] srv Examples.quiet_apis w
                "j1" [] (Examples.job_in Worker.queued) (Ret res) api' w'
                eq_refl Hj eq_refl Hc E) as H.
  destruct (Worker.worker_turn _ _ srv _ w) as [[[t srv'] a] v].
  destruct H as (_ & _ & Hq & j' & Hl & _ & Ht & Hres & Hst & He).
  split; [exact Ht |]. split; [exact Hq |].
  exists j'. split; [exact Hl |]. split; [exact Hst |]. split; [exact He |].
  rewrite Hres. eexists. reflexivity.
Defined.

(** ** The library scan *)

(** X28. Scans are debounced.  After a scan was triggered, a further
    call within thirty seconds of it sends nothing and reports
    "debounced", leaving the manager as it is. *)
Theorem scan_is_debounced (self self1 : Komga.komga) (t1 t2 : Z)
    (server server1 server2 : list (outcome unit)) :
  Komga.trigger_komga_scan self t1 server = (Ret Komga.Triggered, self1, server1) ->
  (t2 - t1 < Komga.cooldown)%Z ->
  Komga.trigger_komga_scan self1 t2 server2
  = (Ret (Komga.Skipped "debounced"), self1, server2).
Proof.
  unfold Komga.trigger_komga_scan. intros H Ht.
  destruct (negb _) eqn:Hcfg; [discriminate |].
  destruct (match Komga._last_scan self with Some _ => _ | None => _ end); [discriminate |].
  destruct server as [| [r | e] server]; try discriminate.
  destruct (status_code r =? 202)%Z; [| discriminate].
  injection H as <- <-. cbn [Komga.armed Komga.komga_base Komga.komga_library_id
    Komga.komga_token Komga._last_scan]. rewrite Hcfg.
  apply Z.ltb_lt in Ht. rewrite Ht. reflexivity.
Qed.

Lemma scan_is_debounced_witness :
  Komga.trigger_komga_scan (Komga.armed 1000000 Scenes.komga0) 30999999 []
  = (Ret (Komga.Skipped "debounced"), Komga.armed 1000000 Scenes.komga0, []).
Proof.
  apply (scan_is_debounced Scenes.komga0 _ 1000000 30999999
           [Examples.answer 202 "Accepted" tt] [] []).
  - reflexivity.
  - reflexivity.
Defined.

(** X29. Only an accepted scan starts the thirty seconds.  When Komga
    answers with another status, or the request fails, the manager is
    left as it was, so a later call that was due before is still due and
    sends its request. *)
Theorem refused_scan_can_be_retried (self self1 : Komga.komga) (t1 t2 : Z)
    (server server1 : list (outcome unit)) (res : Komga.scan)
    (o : outcome unit) (server2 : list (outcome unit)) :
  Komga.trigger_komga_scan self t1 server = (Ret res, self1, server1) ->
  (forall reason, res <> Komga.Skipped reason) ->
  res <> Komga.Triggered ->
  (t1 <= t2)%Z ->
  self1 = self
  /\ exists res2 self2,
       Komga.trigger_komga_scan self1 t2 (o :: server2) = (Ret res2, self2, server2).
Proof.
  unfold Komga.trigger_komga_scan. intros H Hskip Htrig Ht.
  destruct (negb _) eqn:Hcfg; [simplify_eq; exfalso; eapply Hskip; reflexivity |].
  destruct (match Komga._last_scan self with Some _ => _ | None => _ end) eqn:Hdeb;
    [simplify_eq; exfalso; eapply Hskip; reflexivity |].
  assert (Hs : self1 = self).
  { destruct server as [| [r | e] server]; try discriminate.
    - destruct (status_code r =? 202)%Z; injection H as H1 H2 H3; subst;
        [exfalso; apply Htrig |]; reflexivity.
    - injection H as H1 H2 H3. subst. reflexivity. }
  subst self1. split; [reflexivity |]. rewrite Hcfg.
  assert (Hdeb2 : match Komga._last_scan self with
                  | Some last => (t2 - last <? Komga.cooldown)%Z
                  | None => false
                  end = false).
  { destruct (Komga._last_scan self) as [last |]; [| reflexivity].
    apply Z.ltb_ge in Hdeb. apply Z.ltb_ge. lia. }
  rewrite Hdeb2. destruct o as [r | e]; [destruct (status_code r =? 202)%Z |];
    eexists; eexists; reflexivity.
Qed.

Lemma refused_scan_can_be_retried_witness :
  Scenes.komga0 = Scenes.komga0
  /\ exists res2 self2,
       Komga.trigger_komga_scan Scenes.komga0 5
         (Examples.answer 202 "Accepted" tt :: []) = (Ret res2, self2, []).
Proof.
  apply (refused_scan_can_be_retried Scenes.komga0 Scenes.komga0 0 5
           [Examples.answer 503 "Service Unavailable" tt] [] (Komga.Rejected 503)).
  - reflexivity.
  - discriminate.
  - discriminate.
  - lia.
Defined.

(** ** What a listing request asks for *)

Lemma sent_quiet url params tr es :
  Forall (fun e => Trace.is_get e = false) es -> Observe.sent url params 0 tr (tr ++ es).
Proof.
  intros H. exists es. split; [reflexivity |]. cbn [repeat].
  induction H as [| e es He _ IH]; [reflexivity |].
  cbn [omap list_omap]. destruct e; try discriminate; exact IH.
Qed.

Lemma sent_same url params tr tr' : tr' = tr -> Observe.sent url params 0 tr tr'.
Proof.
  intros ->. exists []. rewrite app_nil_r. split; reflexivity.
Qed.

Lemma sent_trans url params n m a b c :
  Observe.sent url params n a b -> Observe.sent url params m b c ->
  Observe.sent url params (n + m) a c.
Proof.
  intros (e1 & -> & H1) (e2 & -> & H2). exists (e1 ++ e2).
  split; [rewrite app_assoc; reflexivity |].
  rewrite omap_app, H1, H2, repeat_app. reflexivity.
Qed.

Lemma sent_chain url params a b c :
  (exists n, Observe.sent url params n a b) ->
  (exists m, Observe.sent url params m b c) ->
  exists k, Observe.sent url params k a c.
Proof.
  intros [n H1] [m H2]. exists (n + m). eapply sent_trans; eassumption.
Qed.

Lemma ensure_auth_sent url params w r w0 :
  Client._ensure_auth w = (r, w0) ->
  exists n, Observe.sent url params n (trace w) (trace w0).
Proof.
  intros H. exists 0. destruct (ensure_auth_trace _ _ _ H) as [-> | ->].
  - apply sent_same. reflexivity.
  - apply sent_quiet. repeat constructor.
Qed.

Lemma refresh_auth_sent url params w r w1 :
  Client._refresh_auth w = (r, w1) ->
  exists n, Observe.sent url params n (trace w) (trace w1).
Proof.
  intros H. exists 0. destruct (refresh_auth_trace _ _ _ H) as [[-> _] | ->].
  - apply sent_same. reflexivity.
  - apply sent_quiet. repeat constructor.
Qed.

Lemma dispatch_sent url params w :
  exists n, Observe.sent url params n (trace w) (trace (Client.dispatch url params w)).
Proof.
  exists 1. eexists. split; [reflexivity |]. reflexivity.
Qed.

Lemma emit_sent url params es w :
  Forall (fun e => Trace.is_get e = false) es ->
  exists n, Observe.sent url params n (trace w) (trace (emit es w)).
Proof. intros H. exists 0. apply sent_quiet, H. Qed.

Lemma exchange_sent url params w :
  exists n, Observe.sent url params n (trace w)
              (trace (Client.release (Client.dispatch url params w))).
Proof.
  eapply sent_chain; [apply dispatch_sent |]. apply emit_sent. repeat constructor.
Qed.

Lemma limited_get_sent {F : PyFloat} {B} url params (api : list (outcome B)) :
  forall w r api' w',
    Client._limited_get url params api w = (r, api', w') ->
    exists n, Observe.sent url params n (trace w) (trace w').
Proof.
  induction api as [| o api IH]; intros w r api' w' H; cbn in H.
  - destruct (Client._ensure_auth w) as [[[] | e |] w0] eqn:E;
      pose proof (ensure_auth_sent url params _ _ _ E) as Hs0; simplify_eq;
      [| exact Hs0 ..].
    eapply sent_chain; [exact Hs0 | apply dispatch_sent].
  - destruct (Client._ensure_auth w) as [[[] | e |] w0] eqn:E;
      pose proof (ensure_auth_sent url params _ _ _ E) as Hs0;
      [| simplify_eq; exact Hs0 ..].
    eapply sent_chain; [exact Hs0 |]. clear Hs0 E.
    pose proof (exchange_sent url params w0) as Hs1.
    destruct o as [r0 | e]; [| simplify_eq; exact Hs1].
    assert (Hsleep : forall d r api' w',
              Client._limited_get url params api
                (emit [Sleep d] (Client.release (Client.dispatch url params w0)))
              = (r, api', w') ->
              exists n, Observe.sent url params n (trace w0) (trace w')).
    { intros d r1 a1 w1 H1. eapply sent_chain; [exact Hs1 |].
      eapply sent_chain; [| eapply IH; exact H1]. apply emit_sent. repeat constructor. }
    destruct (status_code r0 =? 429)%Z.
    { destruct (retry_delay r0) as [d | e |].
      - eapply Hsleep; exact H.
      - simplify_eq. exact Hs1.
      - simplify_eq. exact Hs1. }
    destruct ((500 <=? status_code r0)%Z && (status_code r0 <? 600)%Z).
    { eapply Hsleep; exact H. }
    destruct (status_code r0 =? 401)%Z.
    { eapply sent_chain; [exact Hs1 |].
      destruct (Client._refresh_auth _) as [[[] | e |] w1] eqn:E1;
        pose proof (refresh_auth_sent url params _ _ _ E1) as Hs2.
      - eapply sent_chain; [exact Hs2 |].
        destruct api as [| [r2 | e2] api2].
        + simplify_eq. apply dispatch_sent.
        + destruct (raise_for_status url r2); simplify_eq; apply exchange_sent.
        + simplify_eq. apply exchange_sent.
      - destruct (raise_for_status url r0); simplify_eq; exact Hs2.
      - simplify_eq. exact Hs2.
      - simplify_eq. exact Hs2. }
    destruct (raise_for_status url r0); simplify_eq; exact Hs1.
Qed.

(** X30. A listing request never asks for fewer than one or more than
    500 chapters, nor from a negative offset, whatever limit and offset it
    is called with; values in range are sent as they are.  Every request
    the call sends, retries included, goes to the chapter endpoint with
    these same parameters. *)
Theorem listing_request_is_clamped {F : PyFloat} (mid lang : string) (limit offset : Z)
    (api : list (outcome (option page))) (w : world)
    (r : result page) (api' : list (outcome (option page))) (w' : world) :
  Client.get_manga_chapters mid lang limit offset api w = (r, api', w') ->
  exists n lim off,
    Observe.sent (base_url (self_client w) ++ "/chapter")
      [("manga", mid); ("translatedLanguage[]", lang); ("order[chapter]", "asc");
       ("limit", dec lim); ("offset", dec off)] n (trace w) (trace w')
    /\ (1 <= lim <= 500)%Z /\ (0 <= off)%Z
    /\ ((1 <= limit <= 500)%Z -> lim = limit)
    /\ ((0 <= offset)%Z -> off = offset).
Proof.
  unfold Client.get_manga_chapters, Client.get_json. intros H.
  destruct (Client._limited_get _ _ api w) as [[r0 a0] w0] eqn:E.
  apply limited_get_sent in E. destruct E as [n Hn].
  assert (w0 = w') as <- by (destruct r0; simplify_eq; reflexivity).
  exists n, (Z.max 1 (Z.min limit 500)), (Z.max 0 offset).
  split; [exact Hn |]. repeat split; lia.
Qed.

Lemma listing_request_is_clamped_witness :
  exists n lim off,
    Observe.sent ("https://api.mangadex.org" ++ "/chapter")
      [("manga", "m1"); ("translatedLanguage[]", "en"); ("order[chapter]", "asc");
       ("limit", dec lim); ("offset", dec off)] n []
      (trace (snd (Client.get_manga_chapters (F := Examples.decimal) "m1" "en" 9000 (-5)
                     [Responds (Scenes.busy None);
                      Responds (Scenes.fine (Some (Scenes.page_of ["a"] 1)))]
                     (Examples.world_of Examples.token_client [] [] []))))
    /\ (1 <= lim <= 500)%Z /\ (0 <= off)%Z
    /\ ((1 <= 9000 <= 500)%Z -> lim = 9000%Z)
    /\ ((0 <= -5)%Z -> off = (-5)%Z).
Proof.
  eapply (listing_request_is_clamped (F := Examples.decimal) "m1" "en" 9000 (-5)
            [Responds (Scenes.busy None);
             Responds (Scenes.fine (Some (Scenes.page_of ["a"] 1)))]
            (Examples.world_of Examples.token_client [] [] [])).
  vm_compute. reflexivity.
Defined.
